(** * PumpIt: the workout and session data management, verified

    A shallow embedding of the data-management logic of the PumpIt
    application ([src/components/workout-manager.tsx],
    [src/components/progress-list.tsx] and the exercise list and exercise
    item components that are stored alongside them), together with the part
    of the JavaScript runtime that logic calls: string trimming, number
    printing, [parseInt], [JSON.stringify] / [JSON.parse], [Date] and the
    asynchronous key-value store.

    Conventions of the embedding.
    - A JavaScript string is a [string]: a sequence of code units below 256.
    - A JavaScript [number] is a [Z]: the model covers the integer-valued
      numbers.  A sum or a product is the exact result rounded as binary64
      rounds it ([JS.round64]), so that it is exact within [±2^53].  An
      integer is printed with all its digits and read back as itself, as
      the runtime does within [±2^53].  Numbers with a fraction, the
      infinities and NaN are not values of the model.
    - Where the code would meet a value or a text the model does not
      carry (a number with a fraction or an exponent in a stored text or
      in the weight input, a code unit above 255, a stored array with an
      item that is not of the declared type), the model answers
      [JS.Unmodelled], [Untyped] or [None], and states nothing about what
      the code does there.  An exception of the runtime is [JS.Throws] or
      [Thrown], never [None].
    - A [Date] is its time value in milliseconds, or the invalid date.
    - The key-value store is a finite map from keys to texts.  Its calls
      always resolve; the handlers that only log a rejected call are not
      modelled.
    - React state is a record; a handler is a function from the state it
      closes over (and the store, and the clock readings it takes) to the
      state it sets, the store it leaves and the alerts it raises.  The
      code never updates an array or object in place (it builds new ones
      with spread, [map] and [filter]), so values are immutable here. *)

From Stdlib Require Import ZArith Ascii String List Lia.
From stdpp Require Import base numbers list strings gmap.

Set Warnings "-register-all".

Local Open Scope Z_scope.

(** ** The JavaScript runtime *)

Module JS.

(** *** Characters and strings *)

Definition code (c : ascii) : N := N_of_ascii c.

Definition chr (n : N) : ascii := ascii_of_N n.

Definition quote : ascii := chr 34.
Definition backslash : ascii := chr 92.

(** [WhiteSpace] and [LineTerminator] code units below 256: TAB, LF, VT,
    FF, CR, SP and NBSP. *)
Definition is_white_space (c : ascii) : bool :=
  let n := code c in
  ((9 <=? n) && (n <=? 13) || (n =? 32) || (n =? 160))%N.

Fixpoint trimStart (s : string) : string :=
  match s with
  | EmptyString => EmptyString
  | String c s' => if is_white_space c then trimStart s' else s
  end.

Fixpoint trimEnd (s : string) : string :=
  match s with
  | EmptyString => EmptyString
  | String c s' =>
      match trimEnd s' with
      | EmptyString => if is_white_space c then EmptyString else String c EmptyString
      | t => String c t
      end
  end.

(** [String.prototype.trim] *)
Definition trim (s : string) : string := trimEnd (trimStart s).

(** Truthiness of a string: only the empty string is falsy. *)
Definition truthy (s : string) : bool :=
  match s with EmptyString => false | String _ _ => true end.

(** [a || b] on strings *)
Definition or_else (a b : string) : string := if truthy a then a else b.

(** *** Decimal digits *)

Definition digit_char (d : N) : ascii := chr (48 + d).

Definition digit_value (c : ascii) : option N :=
  let n := code c in
  if ((48 <=? n) && (n <=? 57))%N then Some (n - 48)%N else None.

Definition is_digit (c : ascii) : bool :=
  match digit_value c with Some _ => true | None => false end.

(** The decimal digits of [n], most significant first; [fuel] bounds their
    number. *)
Fixpoint digits (fuel : nat) (n : N) : string :=
  match fuel with
  | O => EmptyString
  | S fuel' =>
      if (n <? 10)%N then String (digit_char n) EmptyString
      else digits fuel' (n / 10)%N +:+ String (digit_char (n mod 10)%N) EmptyString
  end.

Definition N_to_string (n : N) : string := digits (S (N.to_nat (N.log2 n))) n.

(** Exactly [w] digits of [n], zero padded (the low [w] digits). *)
Fixpoint fixed (w : nat) (n : N) : string :=
  match w with
  | O => EmptyString
  | S w' => fixed w' (n / 10)%N +:+ String (digit_char (n mod 10)%N) EmptyString
  end.

(** Reads the longest prefix of digits, accumulating its value. *)
Fixpoint read_digits (acc : N) (s : string) : N * string :=
  match s with
  | EmptyString => (acc, s)
  | String c s' =>
      match digit_value c with
      | Some d => read_digits (acc * 10 + d)%N s'
      | None => (acc, s)
      end
  end.

(** Reads exactly [w] digits. *)
Fixpoint read_fixed (w : nat) (acc : N) (s : string) : option (N * string) :=
  match w with
  | O => Some (acc, s)
  | S w' =>
      match s with
      | EmptyString => None
      | String c s' =>
          match digit_value c with
          | Some d => read_fixed w' (acc * 10 + d)%N s'
          | None => None
          end
      end
  end.

(** [Number.prototype.toString] on an integer: an optional minus sign and
    the decimal digits.  (Above 2^53 the runtime prints the shortest
    digits that name the binary64 value; the readings of the clock, which
    become ids, are below.) *)
Definition Number_toString (n : Z) : string :=
  if n <? 0 then String (chr 45) (N_to_string (Z.abs_N n))
  else N_to_string (Z.to_N n).

(** *** Arithmetic

    The numbers of the runtime are binary64 values.  On integers the sum
    and the product are the exact results rounded to 53 significant
    bits, to the nearest value and to the even one of two nearest. *)

(** The largest integer up to which every integer is a number: 2^53. *)
Definition maxSafeInteger : Z := 2 ^ 53.

(** The integer-valued number nearest to an integer (below 2^1024 in
    absolute value, where the runtime answers a finite number). *)
Definition round64 (z : Z) : Z :=
  let a := Z.abs z in
  if a <=? maxSafeInteger then z
  else
    let e := Z.log2 a - 52 in
    let q := a / 2 ^ e in
    let r := a mod 2 ^ e in
    let half := 2 ^ (e - 1) in
    let q' :=
      if r <? half then q
      else if half <? r then q + 1
      else if Z.even q then q else q + 1 in
    Z.sgn z * (q' * 2 ^ e).

(** [a + b] and [a * b] on integer-valued numbers. *)
Definition add (a b : Z) : Z := round64 (a + b).
Definition mul (a b : Z) : Z := round64 (a * b).

(** *** Dates *)

(** A [Date] object: its time value, in milliseconds since the epoch, or
    the invalid date (time value NaN). *)
Inductive Date : Type :=
  | DateValue (t : Z)
  | InvalidDate.

Definition msPerDay : Z := 86400000.
Definition maxTime : Z := 8640000000000000.

(** [TimeClip] *)
Definition TimeClip (t : Z) : Date :=
  if (- maxTime <=? t) && (t <=? maxTime) then DateValue t else InvalidDate.

(** Year, month (1..12) and day of the month (1..31) of a day number
    counted from the epoch, in the proleptic Gregorian calendar.  The
    computation works in 400-year eras that start on the first of March. *)
Definition civil_of_doe (doe : Z) : Z * Z * Z :=
  let yoe := (doe - doe / 1460 + doe / 36524 - doe / 146096) / 365 in
  let doy := doe - (365 * yoe + yoe / 4 - yoe / 100) in
  let mp := (5 * doy + 2) / 153 in
  let d := doy - (153 * mp + 2) / 5 + 1 in
  let m := if mp <? 10 then mp + 3 else mp - 9 in
  (if m <=? 2 then yoe + 1 else yoe, m, d).

Definition civil_from_days (day : Z) : Z * Z * Z :=
  let z := day + 719468 in
  let era := z / 146097 in
  let '(y, m, d) := civil_of_doe (z mod 146097) in
  (y + era * 400, m, d).

(** [MakeDay]: the day number of a calendar date. *)
Definition days_from_civil (y m d : Z) : Z :=
  let y' := if m <=? 2 then y - 1 else y in
  let era := y' / 400 in
  let yoe := y' mod 400 in
  let doy := (153 * (if 2 <? m then m - 3 else m + 9) + 2) / 5 + d - 1 in
  let doe := yoe * 365 + yoe / 4 - yoe / 100 + doy in
  era * 146097 + doe - 719468.

Definition is_leap (y : Z) : bool :=
  (y mod 4 =? 0) && (negb (y mod 100 =? 0) || (y mod 400 =? 0)).

Definition days_in_month (y m : Z) : Z :=
  if m =? 2 then (if is_leap y then 29 else 28)
  else if (m =? 4) || (m =? 6) || (m =? 9) || (m =? 11) then 30
  else 31.

Definition plus_sign : ascii := chr 43.
Definition minus_sign : ascii := chr 45.

(** Four digits for the years 0 to 9999, otherwise a sign and six digits. *)
Definition year_string (y : Z) : string :=
  if (0 <=? y) && (y <=? 9999) then fixed 4 (Z.to_N y)
  else String (if y <? 0 then minus_sign else plus_sign) (fixed 6 (Z.abs_N y)).

(** [Date.prototype.toISOString] on a valid time value:
    [YYYY-MM-DDTHH:mm:ss.sssZ]. *)
Definition toISOString (t : Z) : string :=
  let ms := t mod msPerDay in
  let '(y, m, d) := civil_from_days (t / msPerDay) in
  year_string y +:+ "-" +:+ fixed 2 (Z.to_N m) +:+ "-" +:+ fixed 2 (Z.to_N d)
  +:+ "T" +:+ fixed 2 (Z.to_N (ms / 3600000))
  +:+ ":" +:+ fixed 2 (Z.to_N (ms / 60000 mod 60))
  +:+ ":" +:+ fixed 2 (Z.to_N (ms / 1000 mod 60))
  +:+ "." +:+ fixed 3 (Z.to_N (ms mod 1000)) +:+ "Z".

Definition expect (c : ascii) (s : string) : option string :=
  match s with
  | String c' s' => if Ascii.eqb c c' then Some s' else None
  | EmptyString => None
  end.

Definition read_field (w : nat) (s : string) : option (Z * string) :=
  '(n, s') ← read_fixed w 0 s; Some (Z.of_N n, s').

Definition read_year (s : string) : option (Z * string) :=
  match s with
  | String c s' =>
      if Ascii.eqb c plus_sign then read_field 6 s'
      else if Ascii.eqb c minus_sign then
        '(y, s'') ← read_field 6 s';
        if y =? 0 then None else Some (- y, s'')
      else read_field 4 s
  | EmptyString => None
  end.

(** The fields of a text in the date-time string format with every part
    present and the [Z] offset. *)
Definition read_date_time (s : string)
  : option (Z * Z * Z * Z * Z * Z * Z) :=
  '(y, s) ← read_year s;
  s ← expect "-" s; '(mo, s) ← read_field 2 s;
  s ← expect "-" s; '(d, s) ← read_field 2 s;
  s ← expect "T" s; '(h, s) ← read_field 2 s;
  s ← expect ":" s; '(mi, s) ← read_field 2 s;
  s ← expect ":" s; '(se, s) ← read_field 2 s;
  s ← expect "." s; '(ms, s) ← read_field 3 s;
  s ← expect "Z" s;
  match s with
  | EmptyString => Some (y, mo, d, h, mi, se, ms)
  | String _ _ => None
  end.

Definition legal_fields (y mo d h mi se ms : Z) : bool :=
  (1 <=? mo) && (mo <=? 12) && (1 <=? d) && (d <=? days_in_month y mo)
  && (h <=? 23) && (mi <=? 59) && (se <=? 59).

(** [Date.parse] on a text in the complete form of the date-time string
    format, the form [toISOString] writes, whose fields name a calendar
    date and a time of the day, within the range of [Date]: the time
    value.  [None]: any other text (a shorter form of the format, a field
    out of its range, which some engines carry over into the next unit,
    or whatever else the heuristics of an engine accept), which the model
    does not read. *)
Definition Date_parse (s : string) : option Date :=
  match read_date_time s with
  | Some (y, mo, d, h, mi, se, ms) =>
      if legal_fields y mo d h mi se ms then
        match TimeClip (days_from_civil y mo d * msPerDay
                        + h * 3600000 + mi * 60000 + se * 1000 + ms) with
        | DateValue t => Some (DateValue t)
        | InvalidDate => None
        end
      else None
  | None => None
  end.

(** *** JSON *)

(** A JSON document.  Numbers are integers (see the conventions above);
    the members of an object keep the order in which they were written.
    The documents the application writes have no repeated member name and
    no member name that is an array index, the two cases in which an
    engine merges or reorders the members it has parsed. *)
Inductive json : Type :=
  | JNull
  | JBool (b : bool)
  | JNum (n : Z)
  | JStr (s : string)
  | JArr (items : list json)
  | JObj (members : list (string * json)).

(** Property read [o.k] on a parsed object: the last member written under
    a name wins. *)
Fixpoint get_member (k : string) (members : list (string * json)) : option json :=
  match members with
  | [] => None
  | (k', v) :: rest =>
      match get_member k rest with
      | Some v' => Some v'
      | None => if String.eqb k k' then Some v else None
      end
  end.

(** The member [k] of a value, when the value is an object that has it. *)
Definition member (k : string) (j : json) : option json :=
  match j with
  | JObj members => get_member k members
  | _ => None
  end.

Definition hex_char (n : N) : ascii :=
  if (n <? 10)%N then chr (48 + n) else chr (87 + n).

Definition hex_value (c : ascii) : option N :=
  let n := code c in
  if ((48 <=? n) && (n <=? 57))%N then Some (n - 48)%N
  else if ((97 <=? n) && (n <=? 102))%N then Some (n - 87)%N
  else if ((65 <=? n) && (n <=? 70))%N then Some (n - 55)%N
  else None.

(** [QuoteJSONString], one code unit. *)
Definition escape_char (c : ascii) : string :=
  let n := code c in
  if (n =? 34)%N then String backslash (String quote EmptyString)
  else if (n =? 92)%N then String backslash (String backslash EmptyString)
  else if (n =? 8)%N then String backslash "b"
  else if (n =? 9)%N then String backslash "t"
  else if (n =? 10)%N then String backslash "n"
  else if (n =? 12)%N then String backslash "f"
  else if (n =? 13)%N then String backslash "r"
  else if (n <? 32)%N then
    String backslash
      (String "u" (String "0" (String "0"
        (String (hex_char (n / 16)) (String (hex_char (n mod 16)) EmptyString)))))
  else String c EmptyString.

Fixpoint escape (s : string) : string :=
  match s with
  | EmptyString => EmptyString
  | String c s' => escape_char c +:+ escape s'
  end.

Definition quote_string (s : string) : string :=
  String quote (escape s +:+ String quote EmptyString).

(** [JSON.stringify] of a document (no indentation). *)
Fixpoint stringify (j : json) : string :=
  match j with
  | JNull => "null"
  | JBool true => "true"
  | JBool false => "false"
  | JNum n => Number_toString n
  | JStr s => quote_string s
  | JArr [] => "[]"
  | JArr (x :: items) =>
      "[" +:+ stringify x +:+
      (fix rest (l : list json) : string :=
         match l with
         | [] => "]"
         | y :: l' => "," +:+ stringify y +:+ rest l'
         end) items
  | JObj [] => "{}"
  | JObj ((k, v) :: members) =>
      "{" +:+ quote_string k +:+ ":" +:+ stringify v +:+
      (fix rest (l : list (string * json)) : string :=
         match l with
         | [] => "}"
         | (k', v') :: l' => "," +:+ quote_string k' +:+ ":" +:+ stringify v' +:+ rest l'
         end) members
  end.

(** The text after the first item of an array, and after the first
    member of an object. *)
Fixpoint stringify_items (l : list json) : string :=
  match l with
  | [] => "]"
  | y :: l' => "," +:+ stringify y +:+ stringify_items l'
  end.

Fixpoint stringify_members (l : list (string * json)) : string :=
  match l with
  | [] => "}"
  | (k, v) :: l' => "," +:+ quote_string k +:+ ":" +:+ stringify v +:+ stringify_members l'
  end.

(** The number of values, items and members of a document. *)
Fixpoint json_size (j : json) : nat :=
  match j with
  | JArr l =>
      S ((fix go (l : list json) : nat :=
            match l with
            | [] => O
            | x :: l' => S (json_size x + go l')
            end) l)
  | JObj ms =>
      S ((fix go (l : list (string * json)) : nat :=
            match l with
            | [] => O
            | (_, v) :: l' => S (json_size v + go l')
            end) ms)
  | _ => 1%nat
  end.

Fixpoint items_size (l : list json) : nat :=
  match l with
  | [] => O
  | x :: l' => S (json_size x + items_size l')
  end.

Fixpoint members_size (l : list (string * json)) : nat :=
  match l with
  | [] => O
  | (_, v) :: l' => S (json_size v + members_size l')
  end.

(** The text that follows a number must not go on with a digit. *)
Definition no_digit_ahead (rest : string) : Prop :=
  match rest with String c _ => is_digit c = false | EmptyString => True end.

(** The character that opens a fraction or an exponent. *)
Definition is_fraction_mark (c : ascii) : bool :=
  let n := code c in ((n =? 46) || (n =? 101) || (n =? 69))%N.

(** The text that follows a number the model reads: no digit, and no
    mark of a fraction or of an exponent. *)
Definition number_ends (rest : string) : Prop :=
  match rest with
  | String c _ => is_digit c = false ∧ is_fraction_mark c = false
  | EmptyString => True
  end.

(** What evaluating a call of the runtime gives: a value, an exception, or
    a behaviour that the model does not follow (a number with a fraction
    or an exponent, a code unit above 255, an object whose members an
    engine merges or reorders).  Where the model answers [Unmodelled] it
    says nothing about the code. *)
Inductive Outcome (A : Type) : Type :=
  | Returns (a : A)
  | Throws
  | Unmodelled.
Arguments Returns {A} a.
Arguments Throws {A}.
Arguments Unmodelled {A}.

#[export] Instance Outcome_bind : MBind Outcome :=
  λ A B f m,
    match m with
    | Returns a => f a
    | Throws => Throws
    | Unmodelled => Unmodelled
    end.

(** An optional answer, thrown on when it is missing. *)
Definition or_throw {A : Type} (o : option A) : Outcome A :=
  match o with Some a => Returns a | None => Throws end.

(** The white space of JSON: space, tab, line feed, carriage return. *)
Definition is_json_space (c : ascii) : bool :=
  let n := code c in ((n =? 32) || (n =? 9) || (n =? 10) || (n =? 13))%N.

Fixpoint skip_ws (s : string) : string :=
  match s with
  | EmptyString => EmptyString
  | String c s' => if is_json_space c then skip_ws s' else s
  end.

Definition prepend (c : ascii) (r : Outcome (string * string))
  : Outcome (string * string) :=
  '(str, rest) ← r; Returns (String c str, rest).

Definition unescape (e : ascii) : option ascii :=
  let n := code e in
  if (n =? 34)%N then Some quote
  else if (n =? 92)%N then Some backslash
  else if (n =? 47)%N then Some (chr 47)
  else if (n =? 98)%N then Some (chr 8)
  else if (n =? 116)%N then Some (chr 9)
  else if (n =? 110)%N then Some (chr 10)
  else if (n =? 102)%N then Some (chr 12)
  else if (n =? 114)%N then Some (chr 13)
  else None.

Definition hex4 (h1 h2 h3 h4 : ascii) : option N :=
  a ← hex_value h1; b ← hex_value h2; c ← hex_value h3; d ← hex_value h4;
  Some (((a * 16 + b) * 16 + c) * 16 + d)%N.

(** The characters of a JSON string, after its opening quote, up to and
    including its closing quote.  A string that does not end, a control
    character and an escape that is none are errors; an escape that names
    a code unit above 255 is outside the strings of the model. *)
Fixpoint read_string_body (s : string) : Outcome (string * string) :=
  match s with
  | EmptyString => Throws
  | String c s' =>
      if Ascii.eqb c quote then Returns (EmptyString, s')
      else if Ascii.eqb c backslash then
        match s' with
        | String e s'' =>
            if Ascii.eqb e "u" then
              match s'' with
              | String h1 (String h2 (String h3 (String h4 t))) =>
                  match hex4 h1 h2 h3 h4 with
                  | Some n =>
                      if (n <? 256)%N then prepend (chr n) (read_string_body t)
                      else Unmodelled
                  | None => Throws
                  end
              | _ => Throws
              end
            else
              match unescape e with
              | Some c' => prepend c' (read_string_body s'')
              | None => Throws
              end
        | EmptyString => Throws
        end
      else if (code c <? 32)%N then Throws
      else prepend c (read_string_body s')
  end.

(** A member name, from its opening quote on, and its colon. *)
Definition read_key (s : string) : Outcome (string * string) :=
  s ← or_throw (expect quote s);
  '(k, s) ← read_string_body s;
  s ← or_throw (expect ":" (skip_ws s));
  Returns (k, s).

(** The digits of a JSON number: a single zero, or digits that do not
    start with zero. *)
Definition read_int (s : string) : option (N * string) :=
  match s with
  | String c s' =>
      match digit_value c with
      | Some d =>
          if (d =? 0)%N then
            match s' with
            | String c' _ => if is_digit c' then None else Some (0%N, s')
            | EmptyString => Some (0%N, s')
            end
          else Some (read_digits d s')
      | None => None
      end
  | EmptyString => None
  end.

(** A JSON number, after its sign.  A number that goes on with a fraction
    or an exponent is outside the numbers of the model. *)
Definition read_number (s : string) : Outcome (N * string) :=
  '(n, rest) ← or_throw (read_int s);
  match rest with
  | String c _ => if is_fraction_mark c then Unmodelled else Returns (n, rest)
  | EmptyString => Returns (n, rest)
  end.

Fixpoint expect_string (lit s : string) : option string :=
  match lit with
  | EmptyString => Some s
  | String c lit' => s' ← expect c s; expect_string lit' s'
  end.

(** Recursive descent over a JSON text.  [fuel] bounds the number of
    values, items and members read. *)
Fixpoint parse_value (fuel : nat) (s : string) : Outcome (json * string) :=
  match fuel with
  | O => Unmodelled
  | S f =>
      match skip_ws s with
      | EmptyString => Throws
      | String c s' =>
          if Ascii.eqb c "n" then
            s'' ← or_throw (expect_string "ull" s'); Returns (JNull, s'')
          else if Ascii.eqb c "t" then
            s'' ← or_throw (expect_string "rue" s'); Returns (JBool true, s'')
          else if Ascii.eqb c "f" then
            s'' ← or_throw (expect_string "alse" s'); Returns (JBool false, s'')
          else if Ascii.eqb c quote then
            '(str, r) ← read_string_body s'; Returns (JStr str, r)
          else if Ascii.eqb c "[" then
            match expect "]" (skip_ws s') with
            | Some r => Returns (JArr [], r)
            | None =>
                '(x, r) ← parse_value f s';
                '(l, r') ← parse_items f r;
                Returns (JArr (x :: l), r')
            end
          else if Ascii.eqb c "{" then
            match expect "}" (skip_ws s') with
            | Some r => Returns (JObj [], r)
            | None =>
                '(k, r0) ← read_key (skip_ws s');
                '(v, r) ← parse_value f r0;
                '(l, r') ← parse_members f r;
                Returns (JObj ((k, v) :: l), r')
            end
          else if Ascii.eqb c minus_sign then
            '(n, r) ← read_number s'; Returns (JNum (- Z.of_N n), r)
          else
            '(n, r) ← read_number (String c s'); Returns (JNum (Z.of_N n), r)
      end
  end
with parse_items (fuel : nat) (s : string) : Outcome (list json * string) :=
  match fuel with
  | O => Unmodelled
  | S f =>
      match skip_ws s with
      | EmptyString => Throws
      | String c s' =>
          if Ascii.eqb c "]" then Returns ([], s')
          else if Ascii.eqb c "," then
            '(x, r) ← parse_value f s';
            '(l, r') ← parse_items f r;
            Returns (x :: l, r')
          else Throws
      end
  end
with parse_members (fuel : nat) (s : string)
  : Outcome (list (string * json) * string) :=
  match fuel with
  | O => Unmodelled
  | S f =>
      match skip_ws s with
      | EmptyString => Throws
      | String c s' =>
          if Ascii.eqb c "}" then Returns ([], s')
          else if Ascii.eqb c "," then
            '(k, r0) ← read_key (skip_ws s');
            '(v, r) ← parse_value f r0;
            '(l, r') ← parse_members f r;
            Returns ((k, v) :: l, r')
          else Throws
      end
  end.

(** A member name that is an array index is moved in front of the other
    members by an engine; the model sets aside every name made of digits
    only. *)
Fixpoint all_digits (k : string) : bool :=
  match k with
  | EmptyString => true
  | String c k' => is_digit c && all_digits k'
  end.

Fixpoint plain_names (names : list string) : bool :=
  match names with
  | [] => true
  | k :: rest =>
      negb (truthy k && all_digits k)
      && negb (existsb (String.eqb k) rest)
      && plain_names rest
  end.

(** A document in which no object repeats a member name or has a member
    name made of digits only: the documents that an engine keeps as they
    are written. *)
Fixpoint plain (j : json) : bool :=
  match j with
  | JArr items => forallb plain items
  | JObj members =>
      plain_names (map fst members)
      && forallb (fun member => let '(_, v) := member in plain v) members
  | _ => true
  end.

(** [JSON.parse]: the document, or the [SyntaxError] it throws.  A text
    that is JSON but has a number with a fraction or an exponent, or an
    escape above 255, or an object that is not [plain], is not modelled.
    An integer of any size is read as itself (see the conventions). *)
Definition parse (s : string) : Outcome json :=
  '(j, rest) ← parse_value (S (String.length s)) s;
  match skip_ws rest with
  | EmptyString => if plain j then Returns j else Unmodelled
  | String _ _ => Throws
  end.

(** *** parseInt *)

(** The largest integer up to which every integer is a number: 2^53. *)
Definition maxSafe : N := 9007199254740992.

(** The outcome of [parseInt] and of [parseFloat]: NaN, an integer, or
    [Rounded], where the model states nothing (an integer above 2^53,
    which the runtime rounds; for [parseFloat] also a fraction, an
    infinity, or a text with a point or an exponent mark). *)
Inductive Parsed : Type :=
  | NotANumber
  | Integer (n : Z)
  | Rounded.

Fixpoint read_hex_digits (acc : N) (s : string) : N * string :=
  match s with
  | EmptyString => (acc, s)
  | String c s' =>
      match hex_value c with
      | Some d => read_hex_digits (acc * 16 + d)%N s'
      | None => (acc, s)
      end
  end.

(** The value of the longest prefix of digits, when there is a digit. *)
Definition leading_decimal (s : string) : option N :=
  match s with
  | String c s' =>
      match digit_value c with
      | Some d => Some (read_digits d s').1
      | None => None
      end
  | EmptyString => None
  end.

Definition leading_hex (s : string) : option N :=
  match s with
  | String c s' =>
      match hex_value c with
      | Some d => Some (read_hex_digits d s').1
      | None => None
      end
  | EmptyString => None
  end.

Definition is_x (c : ascii) : bool := ((code c =? 120) || (code c =? 88))%N.

(** The sign of a text and the text after it. *)
Definition strip_sign (s : string) : bool * string :=
  match s with
  | String c s' =>
      if Ascii.eqb c minus_sign then (true, s')
      else if Ascii.eqb c plus_sign then (false, s')
      else (false, s)
  | EmptyString => (false, s)
  end.

(** [parseInt(text)], no radix given: leading white space is skipped, a
    sign is read, the prefix [0x] or [0X] selects radix 16, and the value
    is the one of the longest prefix of digits.  The zero with a minus
    sign is read as zero: [|| 0] does not tell them apart. *)
Definition parseInt (text : string) : Parsed :=
  let '(negative, s) := strip_sign (trimStart text) in
  let magnitude :=
    match s with
    | String z (String x s') =>
        if Ascii.eqb z "0" && is_x x then leading_hex s' else leading_decimal s
    | _ => leading_decimal s
    end in
  match magnitude with
  | None => NotANumber
  | Some m =>
      if (m <=? maxSafe)%N
      then Integer (if negative then - Z.of_N m else Z.of_N m)
      else Rounded
  end.

(** [parseInt(text) || 0]: NaN and zero are falsy.  [None]: the value is
    above 2^53. *)
Definition parseInt_or_zero (text : string) : option Z :=
  match parseInt text with
  | NotANumber => Some 0
  | Integer n => Some n
  | Rounded => None
  end.

(** *** parseFloat *)

Definition starts_with (prefix s : string) : bool :=
  match expect_string prefix s with Some _ => true | None => false end.

(** [parseFloat(text)]: leading white space is skipped, a sign is read,
    and the value is the one of the longest prefix that is a decimal
    literal.  The model follows the texts whose literal is made of digits
    only and is not followed by a point or an exponent mark; on
    [Infinity], on a literal with a point or an exponent mark, and on an
    integer above 2^53 it answers [Rounded] and states nothing: the
    number is one the model does not carry (a fraction, an infinity, a
    rounded integer), or the text one it does not follow (a point or an
    exponent mark that no digit follows). *)
Definition parseFloat (text : string) : Parsed :=
  let '(negative, s) := strip_sign (trimStart text) in
  if starts_with "Infinity" s then Rounded
  else
    match s with
    | String c s' =>
        match digit_value c with
        | Some d =>
            let '(m, rest) := read_digits d s' in
            match rest with
            | String c' _ =>
                if is_fraction_mark c' then Rounded
                else if (m <=? maxSafe)%N
                then Integer (if negative then - Z.of_N m else Z.of_N m)
                else Rounded
            | EmptyString =>
                if (m <=? maxSafe)%N
                then Integer (if negative then - Z.of_N m else Z.of_N m)
                else Rounded
            end
        | None => if Ascii.eqb c "." then Rounded else NotANumber
        end
    | EmptyString => NotANumber
    end.

(** [parseFloat(text) || 0]: NaN and zero are falsy.  [None]: a number the
    model does not carry, or a text it does not follow. *)
Definition parseFloat_or_zero (text : string) : option Z :=
  match parseFloat text with
  | NotANumber => Some 0
  | Integer n => Some n
  | Rounded => None
  end.

End JS.

(** ** The data model

    [Exercise] is declared with the exercise item component, [Workout] and
    [WorkoutSession] in [workout-manager.tsx]. *)

Module Exercise.
Record t : Type := mk {
  id : string;
  name : string;
  sets : Z;
  reps : Z;
  weight : Z;
}.

(** The members [JSON.stringify] writes, in the order of the object
    literals that build an exercise. *)
Definition toJSON (e : t) : JS.json :=
  JS.JObj [("id", JS.JStr (id e)); ("name", JS.JStr (name e));
           ("sets", JS.JNum (sets e)); ("reps", JS.JNum (reps e));
           ("weight", JS.JNum (weight e))].
End Exercise.

Module Workout.
Record t : Type := mk {
  id : string;
  name : string;
  exercises : list Exercise.t;
  createdAt : JS.Date;
}.
End Workout.

Module WorkoutSession.
Record t : Type := mk {
  id : string;
  workoutId : string;
  workoutName : string;
  exercises : list Exercise.t;
  completedAt : JS.Date;
  totalSets : Z;
  totalVolume : Z;
}.
End WorkoutSession.

(** ** Reading and writing the records as JSON *)

Module Codec.

(** [Date.prototype.toJSON]: the ISO text, or [null] for the invalid date. *)
Definition Date_toJSON (d : JS.Date) : JS.json :=
  match d with
  | JS.DateValue t => JS.JStr (JS.toISOString t)
  | JS.InvalidDate => JS.JNull
  end.

Definition Workout_toJSON (w : Workout.t) : JS.json :=
  JS.JObj [("id", JS.JStr (Workout.id w)); ("name", JS.JStr (Workout.name w));
           ("exercises", JS.JArr (map Exercise.toJSON (Workout.exercises w)));
           ("createdAt", Date_toJSON (Workout.createdAt w))].

Definition WorkoutSession_toJSON (x : WorkoutSession.t) : JS.json :=
  JS.JObj [("id", JS.JStr (WorkoutSession.id x));
           ("workoutId", JS.JStr (WorkoutSession.workoutId x));
           ("workoutName", JS.JStr (WorkoutSession.workoutName x));
           ("exercises", JS.JArr (map Exercise.toJSON (WorkoutSession.exercises x)));
           ("completedAt", Date_toJSON (WorkoutSession.completedAt x));
           ("totalSets", JS.JNum (WorkoutSession.totalSets x));
           ("totalVolume", JS.JNum (WorkoutSession.totalVolume x))].

(** The code takes a parsed value at its declared type ([any] cast to
    [Workout], [WorkoutSession], [Exercise]).  The readers below make that
    cast explicit: they answer [None] on a value that is not of the
    declared shape, which the typed model does not cover.  The shape is
    the one the application writes: the declared members, each once, in
    the order of the object literals of the code.  (The spread keeps any
    other member, and the order in which the members were written, so
    that an object of another shape is written back in another form.) *)
Definition has_names (names : list string) (ms : list (string * JS.json)) : bool :=
  bool_decide (map fst ms = names).

(** [new Date(v)] for a member [v] of a parsed object: a text is parsed, a
    number is clipped, [null] and the booleans convert to numbers, and a
    missing member ([undefined]) gives the invalid date.  [None]: an array
    or an object, which the model does not convert, or a text [Date_parse]
    does not read. *)
Definition new_Date (v : option JS.json) : option JS.Date :=
  match v with
  | Some (JS.JStr s) => JS.Date_parse s
  | Some (JS.JNum n) => Some (JS.TimeClip n)
  | Some JS.JNull => Some (JS.DateValue 0)
  | Some (JS.JBool b) => Some (JS.DateValue (if b then 1 else 0))
  | Some (JS.JArr _) | Some (JS.JObj _) => None
  | None => Some JS.InvalidDate
  end.

Definition as_Exercise (j : JS.json) : option Exercise.t :=
  match j with
  | JS.JObj ([(_, JS.JStr id); (_, JS.JStr name); (_, JS.JNum sets);
              (_, JS.JNum reps); (_, JS.JNum weight)] as ms) =>
      if has_names ["id"; "name"; "sets"; "reps"; "weight"] ms
      then Some (Exercise.mk id name sets reps weight) else None
  | _ => None
  end.

(** [{...w, createdAt: new Date(w.createdAt)}]: the member [createdAt]
    keeps its place, and is added at the end when it is missing. *)
Definition restore_Workout (j : JS.json) : option Workout.t :=
  match j with
  | JS.JObj ([(_, JS.JStr id); (_, JS.JStr name); (_, JS.JArr items); (_, created)]
             as ms) =>
      if has_names ["id"; "name"; "exercises"; "createdAt"] ms then
        exercises ← mapM as_Exercise items;
        createdAt ← new_Date (Some created);
        Some (Workout.mk id name exercises createdAt)
      else None
  | JS.JObj ([(_, JS.JStr id); (_, JS.JStr name); (_, JS.JArr items)] as ms) =>
      if has_names ["id"; "name"; "exercises"] ms then
        exercises ← mapM as_Exercise items;
        createdAt ← new_Date None;
        Some (Workout.mk id name exercises createdAt)
      else None
  | _ => None
  end.

(** [{...session, completedAt: new Date(session.completedAt)}] *)
Definition restore_WorkoutSession (j : JS.json) : option WorkoutSession.t :=
  match j with
  | JS.JObj ([(_, JS.JStr id); (_, JS.JStr workoutId); (_, JS.JStr workoutName);
              (_, JS.JArr items); (_, completed); (_, JS.JNum totalSets);
              (_, JS.JNum totalVolume)] as ms) =>
      if has_names ["id"; "workoutId"; "workoutName"; "exercises"; "completedAt";
                    "totalSets"; "totalVolume"] ms then
        exercises ← mapM as_Exercise items;
        completedAt ← new_Date (Some completed);
        Some (WorkoutSession.mk id workoutId workoutName exercises completedAt
                totalSets totalVolume)
      else None
  | _ => None
  end.

End Codec.

(** ** The key-value store *)

Module AsyncStorage.
Definition getItem (key : string) (store : gmap string string) : option string :=
  store !! key.

Definition setItem (key value : string) (store : gmap string string)
  : gmap string string :=
  <[key := value]> store.
End AsyncStorage.

(** A text read from the store is used when it is present and not empty
    ([if (stored)], [stored ? ... : ...]). *)
Definition present (stored : option string) : option string :=
  match stored with
  | Some text => if JS.truthy text then Some text else None
  | None => None
  end.

(** [Alert.alert(title, message)] *)
Inductive Alert : Type := alert (title message : string).

(** The outcome of evaluating [JSON.parse(text).map(restore)] inside a
    [try]: the restored array, an exception ([catch] runs), or a value the
    typed model does not cover (a text the model of [parse] does not
    follow, or an array with an item that is not of the declared shape). *)
Inductive Restored (A : Type) : Type :=
  | Got (a : A)
  | Thrown
  | Untyped.
Arguments Got {A} a.
Arguments Thrown {A}.
Arguments Untyped {A}.

Definition is_null (j : JS.json) : bool :=
  match j with JS.JNull => true | _ => false end.

(** [parse] throws on a malformed text; [.map] is missing on a value that
    is not an array; reading a member of a [null] item throws. *)
Definition parse_and_restore {A : Type} (restore : JS.json → option A)
    (text : string) : Restored (list A) :=
  match JS.parse text with
  | JS.Returns (JS.JArr items) =>
      if existsb is_null items then Thrown
      else match mapM restore items with
           | Some l => Got l
           | None => Untyped
           end
  | JS.Returns _ => Thrown
  | JS.Throws => Thrown
  | JS.Unmodelled => Untyped
  end.

(** ** The workout manager ([workout-manager.tsx]) *)

Module WorkoutManager.

Definition STORAGE_KEY : string := "@PumpIt:workouts".
Definition SELECTED_WORKOUT_KEY : string := "@PumpIt:selectedWorkout".
Definition PROGRESS_KEY : string := "@PumpIt:workoutSessions".

(** The two [new Date()] of the constant are evaluated when the module is
    loaded; [loaded1] and [loaded2] are the clock readings they take. *)
Definition DEFAULT_WORKOUTS (loaded1 loaded2 : Z) : list Workout.t :=
  [ Workout.mk "1" "Push Day"
      [ Exercise.mk "1" "Bench Press" 3 10 60;
        Exercise.mk "2" "Shoulder Press" 3 8 30 ]
      (JS.DateValue loaded1);
    Workout.mk "2" "Pull Day"
      [ Exercise.mk "3" "Pull-ups" 4 8 0;
        Exercise.mk "4" "Rows" 3 10 40 ]
      (JS.DateValue loaded2) ].

Record State : Type := mkState {
  workouts : list Workout.t;
  selectedWorkoutId : string;
  showCreateModal : bool;
  newWorkoutName : string;
  isLoading : bool;
}.

(** The [useState] initial values. *)
Definition initial : State := mkState [] EmptyString false EmptyString true.

Definition setWorkouts (ws : list Workout.t) (st : State) : State :=
  mkState ws (selectedWorkoutId st) (showCreateModal st) (newWorkoutName st)
    (isLoading st).

Definition setSelectedWorkoutId (i : string) (st : State) : State :=
  mkState (workouts st) i (showCreateModal st) (newWorkoutName st) (isLoading st).

Definition setShowCreateModal (b : bool) (st : State) : State :=
  mkState (workouts st) (selectedWorkoutId st) b (newWorkoutName st) (isLoading st).

Definition setNewWorkoutName (n : string) (st : State) : State :=
  mkState (workouts st) (selectedWorkoutId st) (showCreateModal st) n (isLoading st).

Definition setIsLoading (b : bool) (st : State) : State :=
  mkState (workouts st) (selectedWorkoutId st) (showCreateModal st)
    (newWorkoutName st) b.

(** [workouts.find(w => w.id === selectedWorkoutId)] *)
Definition find_workout (i : string) (ws : list Workout.t) : option Workout.t :=
  find (fun w => bool_decide (Workout.id w = i)) ws.

Definition selectedWorkout (st : State) : option Workout.t :=
  find_workout (selectedWorkoutId st) (workouts st).

(** [ws[0]?.id || ''] *)
Definition first_id (ws : list Workout.t) : string :=
  match ws with
  | w :: _ => JS.or_else (Workout.id w) EmptyString
  | [] => EmptyString
  end.

Definition saveWorkouts (workoutsToSave : list Workout.t)
    (store : gmap string string) : gmap string string :=
  AsyncStorage.setItem STORAGE_KEY
    (JS.stringify (JS.JArr (map Codec.Workout_toJSON workoutsToSave))) store.

Definition saveSelectedWorkout (workoutId : string)
    (store : gmap string string) : gmap string string :=
  AsyncStorage.setItem SELECTED_WORKOUT_KEY workoutId store.

Section Mounted.

Variables loaded1 loaded2 : Z.

(** The effect that runs on mount.  [None]: the stored text is one the
    model of [JSON.parse] does not follow, or an array that is not of type
    [Workout[]]; the model then states nothing about the load. *)
Definition loadWorkouts (st : State) (store : gmap string string)
  : option (State * gmap string string) :=
  let storedWorkouts := AsyncStorage.getItem STORAGE_KEY store in
  let storedSelectedId := AsyncStorage.getItem SELECTED_WORKOUT_KEY store in
  let defaults := DEFAULT_WORKOUTS loaded1 loaded2 in
  match present storedWorkouts with
  | Some text =>
      match parse_and_restore Codec.restore_Workout text with
      | Got parsedWorkouts =>
          let selected :=
            match present storedSelectedId with
            | Some i =>
                match find_workout i parsedWorkouts with
                | Some _ => i
                | None => first_id parsedWorkouts
                end
            | None => first_id parsedWorkouts
            end in
          Some (setIsLoading false
                  (setSelectedWorkoutId selected (setWorkouts parsedWorkouts st)),
                store)
      | Thrown =>
          Some (setIsLoading false
                  (setSelectedWorkoutId (first_id defaults) (setWorkouts defaults st)),
                store)
      | Untyped => None
      end
  | None =>
      Some (setIsLoading false
              (setSelectedWorkoutId (first_id defaults) (setWorkouts defaults st)),
            saveWorkouts defaults store)
  end.

End Mounted.

(** [[newSession, ...sessions]] iterates the parsed value: an array gives
    its items, a string its characters, anything else is not iterable. *)
Definition spread (j : JS.json) : option (list JS.json) :=
  match j with
  | JS.JArr items => Some items
  | JS.JStr s =>
      Some (map (fun c => JS.JStr (String c EmptyString)) (list_ascii_of_string s))
  | _ => None
  end.

(** The [newSession] object literal; [now] is the reading of [Date.now()],
    [completed] the one of [new Date()]. *)
Definition newSession (now completed : Z) (workout : Workout.t) : WorkoutSession.t :=
  WorkoutSession.mk
    (JS.Number_toString now)
    (Workout.id workout)
    (Workout.name workout)
    (Workout.exercises workout)
    (JS.DateValue completed)
    (fold_left (fun total ex => JS.add total (Exercise.sets ex))
       (Workout.exercises workout) 0)
    (fold_left (fun total ex => JS.add total (JS.mul (Exercise.sets ex) (Exercise.weight ex)))
       (Workout.exercises workout) 0).

(** [None]: the stored history is a text the model of [JSON.parse] does
    not follow. *)
Definition saveWorkoutSession (now completed : Z) (workout : Workout.t)
    (store : gmap string string) : option (gmap string string * Alert) :=
  let failed := (store, alert "Error" "Failed to save workout progress") in
  let existingSessions := AsyncStorage.getItem PROGRESS_KEY store in
  let parsed :=
    match present existingSessions with
    | Some text => JS.parse text
    | None => JS.Returns (JS.JArr [])
    end in
  match parsed with
  | JS.Returns sessions =>
      match spread sessions with
      | Some items =>
          let updatedSessions :=
            Codec.WorkoutSession_toJSON (newSession now completed workout) :: items in
          Some (AsyncStorage.setItem PROGRESS_KEY (JS.stringify (JS.JArr updatedSessions))
                  store,
                alert "Workout Complete!"
                  ("Great job finishing " +:+ Workout.name workout +:+ "!"))
      | None => Some failed
      end
  | JS.Throws => Some failed
  | JS.Unmodelled => None
  end.

Definition createNewWorkout (now created : Z) (st : State)
    (store : gmap string string) : State * gmap string string * option Alert :=
  if negb (JS.truthy (JS.trim (newWorkoutName st))) then
    (st, store, Some (alert "Error" "Please enter a workout name"))
  else
    let newWorkout :=
      Workout.mk (JS.Number_toString now) (JS.trim (newWorkoutName st)) []
        (JS.DateValue created) in
    let updatedWorkouts := workouts st ++ [newWorkout] in
    (setShowCreateModal false
       (setNewWorkoutName EmptyString
          (setSelectedWorkoutId (Workout.id newWorkout)
             (setWorkouts updatedWorkouts st))),
     saveSelectedWorkout (Workout.id newWorkout) (saveWorkouts updatedWorkouts store),
     None).

(** What a call of [Alert.alert] leaves on the screen: a notice, or a
    question whose destructive button runs [onPress]. *)
Inductive Dialog (R : Type) : Type :=
  | Notice (a : Alert)
  | Question (a : Alert) (onPress : gmap string string → R).
Arguments Notice {R} a.
Arguments Question {R} a onPress.

(** The [onPress] handler of the Delete button.  The dialog is modal: the
    state it closes over is the state at the time it runs. *)
Definition deleteWorkout_onPress (st : State) (workoutId : string)
    (store : gmap string string) : State * gmap string string :=
  let updatedWorkouts :=
    filter (fun w => Workout.id w ≠ workoutId) (workouts st) in
  let st1 := setWorkouts updatedWorkouts st in
  let newSelectedId :=
    if decide (selectedWorkoutId st = workoutId) then first_id updatedWorkouts
    else selectedWorkoutId st in
  let st2 :=
    if decide (selectedWorkoutId st = workoutId)
    then setSelectedWorkoutId newSelectedId st1 else st1 in
  let store1 := saveWorkouts updatedWorkouts store in
  (st2,
   if decide (newSelectedId ≠ selectedWorkoutId st)
   then saveSelectedWorkout newSelectedId store1 else store1).

Definition deleteWorkout (st : State) (workoutId : string)
  : Dialog (State * gmap string string) :=
  if (length (workouts st) <=? 1)%nat then
    Notice (alert "Error" "You must have at least one workout")
  else
    Question (alert "Delete Workout" "Are you sure you want to delete this workout?")
      (deleteWorkout_onPress st workoutId).

Definition updateWorkoutExercises (exercises : list Exercise.t) (st : State)
    (store : gmap string string) : State * gmap string string :=
  let updatedWorkouts :=
    map (fun workout =>
           if decide (Workout.id workout = selectedWorkoutId st)
           then Workout.mk (Workout.id workout) (Workout.name workout) exercises
                  (Workout.createdAt workout)
           else workout)
      (workouts st) in
  (setWorkouts updatedWorkouts st, saveWorkouts updatedWorkouts store).

Definition selectWorkout (workoutId : string) (st : State)
    (store : gmap string string) : State * gmap string string :=
  (setSelectedWorkoutId workoutId st, saveSelectedWorkout workoutId store).

End WorkoutManager.

(** ** The exercise list (the exercise editor) *)

Module ExerciseList.

Record State : Type := mkState {
  exercises : list Exercise.t;
  newlyAddedId : option string;
}.

(** [useState(initialExercises)], [useState(null)] *)
Definition initial (initialExercises : list Exercise.t) : State :=
  mkState initialExercises None.

(** Each handler answers the state it sets and the sequence it passes to
    [onUpdateExercises]. *)
Definition addNewExercise (now : Z) (st : State) : State * list Exercise.t :=
  let newExercise := Exercise.mk (JS.Number_toString now) "New Exercise" 3 10 0 in
  let updatedExercises := exercises st ++ [newExercise] in
  (mkState updatedExercises (Some (Exercise.id newExercise)), updatedExercises).

Definition updateExercise (updatedExercise : Exercise.t) (st : State)
  : State * list Exercise.t :=
  let updatedExercises :=
    map (fun exercise =>
           if decide (Exercise.id exercise = Exercise.id updatedExercise)
           then updatedExercise else exercise)
      (exercises st) in
  (mkState updatedExercises (newlyAddedId st), updatedExercises).

Definition deleteExercise (i : string) (st : State) : State * list Exercise.t :=
  let updatedExercises :=
    filter (fun exercise => Exercise.id exercise ≠ i) (exercises st) in
  (mkState updatedExercises (newlyAddedId st), updatedExercises).

(** The [isEditing] property [renderExerciseItem] hands to the item:
    [newlyAddedId === item.id]. *)
Definition isEditing (st : State) (item : Exercise.t) : bool :=
  match newlyAddedId st with
  | Some i => bool_decide (i = Exercise.id item)
  | None => false
  end.

(** The effect that follows the [exercises] property:
    [setExercises(initialExercises)]. *)
Definition syncExercises (initialExercises : list Exercise.t) (st : State) : State :=
  mkState initialExercises (newlyAddedId st).

(** The [onUpdate] handler [renderExerciseItem] hands to the item: the
    exercise is updated and, when the item is the one just added, the mark
    is cleared. *)
Definition renderExerciseItem_onUpdate (item updatedExercise : Exercise.t)
    (st : State) : State * list Exercise.t :=
  let '(st', sent) := updateExercise updatedExercise st in
  (if decide (newlyAddedId st = Some (Exercise.id item))
   then mkState (exercises st') None else st',
   sent).

End ExerciseList.

(** ** The exercise item *)

Module ExerciseItem.

Record State : Type := mkState {
  isEditing : bool;
  editedExercise : Exercise.t;
}.

(** [useState(initialIsEditing || false)], [useState(exercise)]; the
    property [isEditing] is optional. *)
Definition initial (exercise : Exercise.t) (initialIsEditing : option bool) : State :=
  mkState (default false initialIsEditing) exercise.

(** The effect that follows the property [isEditing]. *)
Definition syncIsEditing (initialIsEditing : option bool) (st : State) : State :=
  match initialIsEditing with
  | Some b => mkState b (editedExercise st)
  | None => st
  end.

Definition setIsEditing (b : bool) (st : State) : State :=
  mkState b (editedExercise st).

(** [handleSave] answers the state it sets and the exercise it passes to
    [onUpdate]. *)
Definition handleSave (st : State) : State * Exercise.t :=
  (mkState false (editedExercise st), editedExercise st).

Definition handleCancel (exercise : Exercise.t) (st : State) : State :=
  mkState false exercise.

(** A field of an exercise with a value of its type. *)
Inductive FieldValue : Type :=
  | id (value : string)
  | name (value : string)
  | sets (value : Z)
  | reps (value : Z)
  | weight (value : Z).

(** [{...prev, [field]: value}] *)
Definition setField (fv : FieldValue) (prev : Exercise.t) : Exercise.t :=
  match fv with
  | id v => Exercise.mk v (Exercise.name prev) (Exercise.sets prev)
              (Exercise.reps prev) (Exercise.weight prev)
  | name v => Exercise.mk (Exercise.id prev) v (Exercise.sets prev)
                (Exercise.reps prev) (Exercise.weight prev)
  | sets v => Exercise.mk (Exercise.id prev) (Exercise.name prev) v
                (Exercise.reps prev) (Exercise.weight prev)
  | reps v => Exercise.mk (Exercise.id prev) (Exercise.name prev)
                (Exercise.sets prev) v (Exercise.weight prev)
  | weight v => Exercise.mk (Exercise.id prev) (Exercise.name prev)
                  (Exercise.sets prev) (Exercise.reps prev) v
  end.

Definition updateField (fv : FieldValue) (st : State) : State :=
  mkState (isEditing st) (setField fv (editedExercise st)).

(** The [onChangeText] handlers of the name, sets, reps and weight inputs.
    [None]: the text is read as a number the model does not carry. *)
Definition onChangeName (text : string) (st : State) : State :=
  updateField (name text) st.

Definition onChangeSets (text : string) (st : State) : option State :=
  v ← JS.parseInt_or_zero text; Some (updateField (sets v) st).

Definition onChangeReps (text : string) (st : State) : option State :=
  v ← JS.parseInt_or_zero text; Some (updateField (reps v) st).

Definition onChangeWeight (text : string) (st : State) : option State :=
  v ← JS.parseFloat_or_zero text; Some (updateField (weight v) st).

(** What the user does to an item in edit mode before leaving it. *)
Inductive Edit : Type :=
  | TypeName (text : string)
  | TypeSets (text : string)
  | TypeReps (text : string)
  | TypeWeight (text : string).

Definition edit (e : Edit) (st : State) : option State :=
  match e with
  | TypeName text => Some (onChangeName text st)
  | TypeSets text => onChangeSets text st
  | TypeReps text => onChangeReps text st
  | TypeWeight text => onChangeWeight text st
  end.

Fixpoint edits (es : list Edit) (st : State) : option State :=
  match es with
  | [] => Some st
  | e :: rest => st' ← edit e st; edits rest st'
  end.

End ExerciseItem.

(** ** The progress list (the progress viewer, [progress-list.tsx]) *)

Module ProgressList.

Definition PROGRESS_KEY : string := "@PumpIt:workoutSessions".

Record State : Type := mkState {
  sessions : list WorkoutSession.t;
  isLoading : bool;
}.

Definition initial : State := mkState [] true.

(** Runs on mount and then every two seconds.  [None]: the stored text is
    one the model of [JSON.parse] does not follow, or an array that is not
    of type [WorkoutSession[]]. *)
Definition loadSessions (st : State) (store : gmap string string) : option State :=
  match present (AsyncStorage.getItem PROGRESS_KEY store) with
  | Some text =>
      match parse_and_restore Codec.restore_WorkoutSession text with
      | Got parsedSessions => Some (mkState parsedSessions false)
      | Thrown => Some (mkState (sessions st) false)
      | Untyped => None
      end
  | None => Some (mkState (sessions st) false)
  end.

Definition deleteSession_onPress (st : State) (sessionId : string)
    (store : gmap string string) : State * gmap string string * option Alert :=
  let updatedSessions :=
    filter (fun session => WorkoutSession.id session ≠ sessionId) (sessions st) in
  (mkState updatedSessions (isLoading st),
   AsyncStorage.setItem PROGRESS_KEY
     (JS.stringify (JS.JArr (map Codec.WorkoutSession_toJSON updatedSessions))) store,
   None).

Definition deleteSession (st : State) (sessionId : string)
  : WorkoutManager.Dialog (State * gmap string string * option Alert) :=
  WorkoutManager.Question
    (alert "Delete Workout"
       "Are you sure you want to remove this workout from your history?")
    (deleteSession_onPress st sessionId).

End ProgressList.

(** ** The vocabulary of the specification *)

Module Spec.

(** The sum of the [sets] fields, and of [sets × weight]. *)
Fixpoint sum_sets (exercises : list Exercise.t) : Z :=
  match exercises with
  | [] => 0
  | ex :: rest => Exercise.sets ex + sum_sets rest
  end.

Fixpoint sum_volume (exercises : list Exercise.t) : Z :=
  match exercises with
  | [] => 0
  | ex :: rest => Exercise.sets ex * Exercise.weight ex + sum_volume rest
  end.

(** The sums are exact: every product [sets × weight] and every running
    sum, taken in the order of the exercises from the totals [total] and
    [volume], lies within [±2^53], where the arithmetic of the numbers is
    the arithmetic of the integers. *)
Definition safe (z : Z) : Prop := - JS.maxSafeInteger ≤ z ≤ JS.maxSafeInteger.

Fixpoint exact_from (total volume : Z) (exercises : list Exercise.t) : Prop :=
  match exercises with
  | [] => True
  | ex :: rest =>
      safe (Exercise.sets ex * Exercise.weight ex) ∧
      safe (total + Exercise.sets ex) ∧
      safe (volume + Exercise.sets ex * Exercise.weight ex) ∧
      exact_from (total + Exercise.sets ex)
        (volume + Exercise.sets ex * Exercise.weight ex) rest
  end.

Definition exact_totals (exercises : list Exercise.t) : Prop :=
  exact_from 0 0 exercises.

(** A blank name: empty, or made of white space only. *)
Fixpoint blank (name : string) : Prop :=
  match name with
  | EmptyString => True
  | String c rest => JS.is_white_space c = true ∧ blank rest
  end.

(** A timestamp: a date with a time value, within the range of [Date]. *)
Definition timestamp (d : JS.Date) : Prop :=
  match d with
  | JS.DateValue t => - JS.maxTime ≤ t ≤ JS.maxTime
  | JS.InvalidDate => False
  end.

(** The time value of a date (of a timestamp). *)
Definition time_of (d : JS.Date) : Z :=
  match d with JS.DateValue t => t | JS.InvalidDate => 0 end.

(** The completion times of a list of sessions. *)
Definition completion_times (l : list WorkoutSession.t) : list Z :=
  map (λ x, time_of (WorkoutSession.completedAt x)) l.

(** Completion times from the newest to the oldest. *)
Definition newest_first (history : list WorkoutSession.t) : Prop :=
  ∀ i j a b, (i < j)%nat → history !! i = Some a → history !! j = Some b →
    time_of (WorkoutSession.completedAt b) ≤ time_of (WorkoutSession.completedAt a).

(** Clock readings that never go back. *)
Definition monotone (readings : list Z) : Prop :=
  ∀ i j a b, (i < j)%nat → readings !! i = Some a → readings !! j = Some b → a ≤ b.

End Spec.

(** ** The user's actions on the workout manager *)

Module Session.
Import WorkoutManager.

(** One interaction with the workout screen.  Mounting the screen starts
    from the initial state of the component and carries the readings of
    the clock the defaults took; a creation carries the two clock readings
    it takes; a long press on a workout tab is followed by the answer
    given to the confirmation dialog, when one is shown. *)
Inductive Action : Type :=
  | Mount (loaded1 loaded2 : Z)
  | TypeName (name : string)
  | OpenCreateModal
  | CancelCreate
  | Create (now created : Z)
  | LongPress (workoutId : string) (confirmed : bool)
  | Select (workoutId : string)
  | UpdateExercises (exercises : list Exercise.t).

Definition step (a : Action) (st : State) (store : gmap string string)
  : option (State * gmap string string) :=
  match a with
  | Mount loaded1 loaded2 => loadWorkouts loaded1 loaded2 initial store
  | TypeName name => Some (setNewWorkoutName name st, store)
  | OpenCreateModal => Some (setShowCreateModal true st, store)
  | CancelCreate =>
      Some (setNewWorkoutName EmptyString (setShowCreateModal false st), store)
  | Create now created =>
      let '(st', store', _) := createNewWorkout now created st store in
      Some (st', store')
  | LongPress workoutId confirmed =>
      match deleteWorkout st workoutId with
      | Notice _ => Some (st, store)
      | Question _ onPress => Some (if confirmed then onPress store else (st, store))
      end
  | Select workoutId => Some (selectWorkout workoutId st store)
  | UpdateExercises exercises => Some (updateWorkoutExercises exercises st store)
  end.

Fixpoint run (actions : list Action) (st : State) (store : gmap string string)
  : option (State * gmap string string) :=
  match actions with
  | [] => Some (st, store)
  | a :: rest =>
      match step a st store with
      | Some (st', store') => run rest st' store'
      | None => None
      end
  end.

(** The state and the store agree on a collection that is not empty, whose
    ids are pairwise distinct and whose [createdAt] are timestamps. *)
Definition consistent (st : State) (store : gmap string string) : Prop :=
  store !! STORAGE_KEY
  = Some (JS.stringify (JS.JArr (map Codec.Workout_toJSON (workouts st)))) ∧
  workouts st ≠ [] ∧
  NoDup (map Workout.id (workouts st)) ∧
  Forall (λ w, Spec.timestamp (Workout.createdAt w)) (workouts st).

(** A creation takes a reading whose text is not yet the id of a workout. *)
Definition fresh (a : Action) (st : State) : Prop :=
  match a with
  | Create now created =>
      (JS.Number_toString now ∉ map Workout.id (workouts st)) ∧
      (- JS.maxTime ≤ created ≤ JS.maxTime)
  | _ => True
  end.

Fixpoint all_fresh (actions : list Action) (st : State)
    (store : gmap string string) : Prop :=
  match actions with
  | [] => True
  | a :: rest =>
      fresh a st ∧
      match step a st store with
      | Some (st', store') => all_fresh rest st' store'
      | None => True
      end
  end.

(** Workouts completed one after the other: each call carries its two
    clock readings and the workout that is done. *)
Fixpoint complete_all (calls : list (Z * Z * Workout.t))
    (store : gmap string string) : option (gmap string string) :=
  match calls with
  | [] => Some store
  | (now, completed, workout) :: rest =>
      '(store', _) ← saveWorkoutSession now completed workout store;
      complete_all rest store'
  end.

Definition sessions_of (calls : list (Z * Z * Workout.t)) : list WorkoutSession.t :=
  map (λ '(now, completed, workout), newSession now completed workout) calls.

(** The readings of [new Date()] of the calls, in the order of the calls. *)
Definition completions (calls : list (Z * Z * Workout.t)) : list Z :=
  map (λ '(_, completed, _), completed) calls.

(** The store holds the history [history]: the text [JSON.stringify]
    writes for it or, for the empty history, no text. *)
Definition holds_history (store : gmap string string)
    (history : list WorkoutSession.t) : Prop :=
  store !! PROGRESS_KEY
  = Some (JS.stringify (JS.JArr (map Codec.WorkoutSession_toJSON history)))
  ∨ (present (store !! PROGRESS_KEY) = None ∧ history = []).

(** A session in which two workouts are created while the clock reads the
    same millisecond, and the workouts are then deleted one id after the
    other. *)
Definition same_reading_run : list Action :=
  [ Mount 1699999990000 1699999990000;
    OpenCreateModal; TypeName "Legs"; Create 1700000000000 1700000000000;
    OpenCreateModal; TypeName "Arms"; Create 1700000000000 1700000000000;
    LongPress "1" true;
    LongPress "2" true;
    LongPress "1700000000000" true ].

(** A tap on a workout tab selects a workout of the collection: the tabs
    are rendered from it. *)
Definition offered (a : Action) (st : State) : Prop :=
  match a with
  | Select workoutId => workoutId ∈ map Workout.id (workouts st)
  | _ => True
  end.

Fixpoint all_offered (actions : list Action) (st : State)
    (store : gmap string string) : Prop :=
  match actions with
  | [] => True
  | a :: rest =>
      offered a st ∧
      match step a st store with
      | Some (st', store') => all_offered rest st' store'
      | None => True
      end
  end.

(** The selection [loadWorkouts] makes for a collection [ws] it has read
    from the store. *)
Definition restored_selection (ws : list Workout.t) (store : gmap string string)
  : string :=
  match present (AsyncStorage.getItem SELECTED_WORKOUT_KEY store) with
  | Some i =>
      match find_workout i ws with
      | Some _ => i
      | None => first_id ws
      end
  | None => first_id ws
  end.

(** Mounting the screen on [store] shows the collection and the selection
    of [st], and writes nothing. *)
Definition restores (st : State) (store : gmap string string) : Prop :=
  ∀ (loaded1 loaded2 : Z) (st0 : State),
    loadWorkouts loaded1 loaded2 st0 store
    = Some (mkState (workouts st) (selectedWorkoutId st) (showCreateModal st0)
              (newWorkoutName st0) false,
            store).

(** The state and the store agree, no id is the empty text, the selection
    names a workout of the collection, and the store restores the state. *)
Definition sound (st : State) (store : gmap string string) : Prop :=
  consistent st store ∧
  (EmptyString ∉ map Workout.id (workouts st)) ∧
  (selectedWorkoutId st ∈ map Workout.id (workouts st)) ∧
  restores st store.

End Session.

(** ** The wiring of the workout screen

    The workout manager renders the exercise list on the exercises of the
    selected workout, with [updateWorkoutExercises] as [onUpdateExercises];
    the exercise list renders one item per exercise. *)

Module Screen.

(** The Add Exercise button. *)
Definition addExercise (now : Z) (list : ExerciseList.State)
    (st : WorkoutManager.State) (store : gmap string string)
  : ExerciseList.State * (WorkoutManager.State * gmap string string) :=
  let '(list', sent) := ExerciseList.addNewExercise now list in
  (list', WorkoutManager.updateWorkoutExercises sent st store).

(** The Save button of the item rendered for [item]. *)
Definition saveItem (item : Exercise.t) (it : ExerciseItem.State)
    (list : ExerciseList.State) (st : WorkoutManager.State)
    (store : gmap string string)
  : ExerciseItem.State * ExerciseList.State
    * (WorkoutManager.State * gmap string string) :=
  let '(it', updated) := ExerciseItem.handleSave it in
  let '(list', sent) := ExerciseList.renderExerciseItem_onUpdate item updated list in
  (it', list', WorkoutManager.updateWorkoutExercises sent st store).

(** The Delete button of the item rendered for [item]. *)
Definition deleteItem (item : Exercise.t) (list : ExerciseList.State)
    (st : WorkoutManager.State) (store : gmap string string)
  : ExerciseList.State * (WorkoutManager.State * gmap string string) :=
  let '(list', sent) := ExerciseList.deleteExercise (Exercise.id item) list in
  (list', WorkoutManager.updateWorkoutExercises sent st store).

(** The Workout Done button: the manager renders the list when a workout
    is selected, and the list renders the button when it shows an
    exercise.  [workoutDone_shown]: the workout the button completes, when
    there is a button. *)
Definition workoutDone_shown (list : ExerciseList.State) (st : WorkoutManager.State)
  : option Workout.t :=
  match WorkoutManager.selectedWorkout st with
  | Some workout =>
      if (0 <? length (ExerciseList.exercises list))%nat then Some workout else None
  | None => None
  end.

(** Pressing it.  [None]: there is no button, or the stored history is
    not followed by the model. *)
Definition workoutDone (now completed : Z) (list : ExerciseList.State)
    (st : WorkoutManager.State) (store : gmap string string)
  : option (gmap string string * Alert) :=
  workout ← workoutDone_shown list st;
  WorkoutManager.saveWorkoutSession now completed workout store.

(** The list the manager renders: on the exercises of the selected
    workout. *)
Definition rendered (list : ExerciseList.State) (st : WorkoutManager.State) : Prop :=
  ∃ workout, WorkoutManager.selectedWorkout st = Some workout ∧
             ExerciseList.exercises list = Workout.exercises workout.

End Screen.

(** * Facts about the runtime *)

Module JSFacts.
Import JS.

Local Open Scope N_scope.

Lemma append_cons (x : ascii) (a b : string) :
  String x a +:+ b = String x (a +:+ b).
Proof. reflexivity. Qed.

Lemma append_nil_l (b : string) : EmptyString +:+ b = b.
Proof. reflexivity. Qed.

Lemma append_assoc (a b c : string) : (a +:+ b) +:+ c = a +:+ (b +:+ c).
Proof.
  induction a as [|x a IH]; [reflexivity|].
  rewrite !append_cons. now rewrite IH.
Qed.

Lemma append_nil_r (a : string) : a +:+ EmptyString = a.
Proof.
  induction a as [|x a IH]; [reflexivity|].
  rewrite append_cons. now rewrite IH.
Qed.

Lemma length_append (a b : string) :
  String.length (a +:+ b) = (String.length a + String.length b)%nat.
Proof.
  induction a as [|x a IH]; [reflexivity|].
  rewrite append_cons. simpl. now rewrite IH.
Qed.

Lemma code_chr (n : N) : n < 256 → code (chr n) = n.
Proof. intros H. unfold code, chr. now apply N_ascii_embedding. Qed.

Lemma chr_code (c : ascii) : chr (code c) = c.
Proof. apply ascii_N_embedding. Qed.

Lemma code_lt (c : ascii) : code c < 256.
Proof. apply N_ascii_bounded. Qed.

Lemma digit_value_char (d : N) : d < 10 → digit_value (digit_char d) = Some d.
Proof.
  intros H. unfold digit_value, digit_char. rewrite code_chr by lia.
  destruct (N.leb_spec 48 (48 + d)); [|lia].
  destruct (N.leb_spec (48 + d) 57); [|lia].
  simpl. f_equal. lia.
Qed.

Lemma pow10_S (w : nat) : 10 ^ N.of_nat (S w) = 10 * 10 ^ N.of_nat w.
Proof. rewrite Nat2N.inj_succ, N.pow_succ_r'. reflexivity. Qed.

Lemma read_fixed_add (a b : nat) : ∀ (acc : N) (s : string),
  read_fixed (a + b) acc s =
  match read_fixed a acc s with
  | Some (acc', s') => read_fixed b acc' s'
  | None => None
  end.
Proof.
  induction a as [|a IH]; intros acc s; [reflexivity|].
  simpl. destruct s as [|c s]; [reflexivity|].
  destruct (digit_value c); [apply IH | reflexivity].
Qed.

(** Reading back a zero-padded field. *)
Lemma read_fixed_fixed (w : nat) : ∀ (n acc : N) (rest : string),
  n < 10 ^ N.of_nat w →
  read_fixed w acc (fixed w n +:+ rest) = Some (acc * 10 ^ N.of_nat w + n, rest).
Proof.
  induction w as [|w IH]; intros n acc rest Hn.
  - simpl in *. rewrite append_nil_l. f_equal. f_equal. lia.
  - rewrite pow10_S in *.
    replace (S w) with (w + 1)%nat by lia.
    rewrite read_fixed_add. simpl fixed.
    replace (w + 1)%nat with (S w) by lia. simpl fixed.
    rewrite append_assoc, append_cons, append_nil_l.
    rewrite IH by (apply N.Div0.div_lt_upper_bound; lia).
    simpl. rewrite digit_value_char by (apply N.mod_lt; lia).
    f_equal. f_equal.
    pose proof (N.div_mod n 10). lia.
Qed.

Lemma read_digits_stop (acc : N) (rest : string) :
  match rest with String c _ => is_digit c = false | EmptyString => True end →
  read_digits acc rest = (acc, rest).
Proof.
  destruct rest as [|c rest]; [reflexivity|].
  unfold is_digit. simpl. destruct (digit_value c); [discriminate | reflexivity].
Qed.

(** The digits of a positive number start with a digit that is not zero,
    and reading on from that digit gives the number back. *)
Lemma digits_read (fuel : nat) : ∀ n : N,
  0 < n → n < 10 ^ N.of_nat fuel →
  ∃ d0 s1, digits fuel n = String (digit_char d0) s1 ∧ 0 < d0 ∧ d0 < 10 ∧
    ∀ rest, read_digits d0 (s1 +:+ rest) = read_digits n rest.
Proof.
  induction fuel as [|fuel IH]; intros n Hpos Hn.
  - simpl in Hn. lia.
  - simpl digits. destruct (N.ltb_spec n 10) as [Hlt|Hge].
    + exists n, EmptyString. repeat split; auto.
    + rewrite pow10_S in Hn.
      destruct (IH (n / 10)) as (d0 & s1 & Hd & Hd0 & Hd10 & Hread).
      { apply N.div_str_pos. lia. }
      { apply N.Div0.div_lt_upper_bound; lia. }
      exists d0, (s1 +:+ String (digit_char (n mod 10)) EmptyString).
      repeat split; auto.
      * rewrite Hd. reflexivity.
      * intros rest. rewrite append_assoc, append_cons, append_nil_l.
        rewrite Hread. simpl.
        rewrite digit_value_char by (apply N.mod_lt; lia).
        f_equal. pose proof (N.div_mod n 10). lia.
Qed.

Lemma N_to_string_fuel (n : N) : n < 10 ^ N.of_nat (S (N.to_nat (N.log2 n))).
Proof.
  destruct (N.eq_dec n 0) as [->|Hn]; [reflexivity|].
  rewrite Nat2N.inj_succ, N2Nat.id.
  apply N.lt_le_trans with (2 ^ N.succ (N.log2 n)).
  - apply N.log2_spec. lia.
  - apply N.pow_le_mono_l. lia.
Qed.

Lemma N_to_string_read (n : N) :
  0 < n →
  ∃ d0 s1, N_to_string n = String (digit_char d0) s1 ∧ 0 < d0 ∧ d0 < 10 ∧
    ∀ rest, read_digits d0 (s1 +:+ rest) = read_digits n rest.
Proof. intros H. apply digits_read; [assumption | apply N_to_string_fuel]. Qed.

Lemma digit_char_cases (d : N) : d < 10 →
  In (digit_char d) ["0"; "1"; "2"; "3"; "4"; "5"; "6"; "7"; "8"; "9"]%char.
Proof.
  intros H.
  assert (d = 0 ∨ d = 1 ∨ d = 2 ∨ d = 3 ∨ d = 4 ∨ d = 5 ∨ d = 6 ∨ d = 7 ∨ d = 8 ∨ d = 9)
    as Hc by lia.
  repeat (destruct Hc as [->|Hc]; [simpl; tauto|]). subst. simpl. tauto.
Qed.

(** Reading back a printed integer. *)
Lemma read_int_N_to_string (n : N) (rest : string) :
  no_digit_ahead rest →
  read_int (N_to_string n +:+ rest) = Some (n, rest).
Proof.
  intros Hrest. destruct (N.eq_dec n 0) as [->|Hn].
  - change (N_to_string 0) with "0"%string. rewrite append_cons, append_nil_l.
    unfold read_int. simpl. destruct rest as [|c rest]; [reflexivity|].
    simpl in Hrest. rewrite Hrest. reflexivity.
  - destruct (N_to_string_read n) as (d0 & s1 & Hs & Hd0 & Hd10 & Hread); [lia|].
    rewrite Hs, append_cons. unfold read_int.
    rewrite digit_value_char by assumption.
    destruct (N.eqb_spec d0 0); [lia|].
    rewrite Hread. rewrite read_digits_stop by assumption. reflexivity.
Qed.

Lemma N_to_string_head (n : N) :
  ∃ d s1, N_to_string n = String (digit_char d) s1 ∧ d < 10.
Proof.
  destruct (N.eq_dec n 0) as [->|Hn].
  - exists 0, EmptyString. split; [reflexivity | lia].
  - destruct (N_to_string_read n) as (d0 & s1 & Hs & _ & Hd & _); [lia|].
    exists d0, s1. auto.
Qed.

(** *** Strings of a JSON text *)

Lemma read_escape_char (c : ascii) (tail : string) :
  read_string_body (escape_char c +:+ tail) = prepend c (read_string_body tail).
Proof. destruct c as [[] [] [] [] [] [] [] []]; reflexivity. Qed.

Lemma read_string_body_escape (s rest : string) :
  read_string_body (escape s +:+ String quote rest) = Returns (s, rest).
Proof.
  induction s as [|c s IH]; [reflexivity|].
  simpl escape. rewrite append_assoc, read_escape_char, IH. reflexivity.
Qed.

Lemma read_key_quote_string (k rest : string) :
  read_key (quote_string k +:+ String ":" rest) = Returns (k, rest).
Proof.
  unfold read_key, quote_string. rewrite append_cons, append_assoc.
  simpl expect. rewrite append_cons, append_nil_l.
  cbn [or_throw mbind Outcome_bind]. rewrite read_string_body_escape. reflexivity.
Qed.

(** *** Documents *)

Lemma stringify_JArr_cons (x : json) (l : list json) :
  stringify (JArr (x :: l)) = "[" +:+ stringify x +:+ stringify_items l.
Proof. reflexivity. Qed.

Lemma stringify_JObj_cons (k : string) (v : json) (ms : list (string * json)) :
  stringify (JObj ((k, v) :: ms)) =
  "{" +:+ quote_string k +:+ ":" +:+ stringify v +:+ stringify_members ms.
Proof. reflexivity. Qed.

Lemma json_size_JArr (l : list json) : json_size (JArr l) = S (items_size l).
Proof. reflexivity. Qed.

Lemma json_size_JObj (ms : list (string * json)) :
  json_size (JObj ms) = S (members_size ms).
Proof. reflexivity. Qed.

Lemma parse_value_digit (f : nat) (c : ascii) (s : string) :
  is_digit c = true →
  parse_value (S f) (String c s) =
  '(n, r) ← read_number (String c s); Returns (JNum (Z.of_N n), r).
Proof.
  intros H.
  destruct c as [[] [] [] [] [] [] [] []];
    try (vm_compute in H; discriminate H); reflexivity.
Qed.

Lemma is_digit_digit_char (d : N) : d < 10 → is_digit (digit_char d) = true.
Proof. intros H. unfold is_digit. now rewrite digit_value_char. Qed.

Lemma digit_not_space (c : ascii) : is_digit c = true → is_json_space c = false.
Proof.
  intros H.
  destruct c as [[] [] [] [] [] [] [] []];
    try (vm_compute in H; discriminate H); reflexivity.
Qed.

(** What [stringify] writes starts with a character that is neither white
    space nor a closing bracket. *)
Lemma stringify_head (j : json) :
  ∃ c s, stringify j = String c s ∧ c ≠ "]"%char ∧ is_json_space c = false.
Proof.
  destruct j as [|[]|n|s|[|x l]|[|[k v] ms]];
    try (eexists _, _; split; [reflexivity | split; [discriminate | reflexivity]]).
  simpl. unfold Number_toString. destruct (n <? 0)%Z.
  - eexists _, _; split; [reflexivity | split; [discriminate | reflexivity]].
  - destruct (N_to_string_head (Z.to_N n)) as (d & s1 & -> & Hd).
    eexists _, _; split; [reflexivity|]. split.
    + pose proof (digit_char_cases d Hd) as Hc. simpl in Hc.
      intros E. rewrite E in Hc.
      repeat (destruct Hc as [Hc|Hc]; [discriminate Hc|]). exact Hc.
    + now apply digit_not_space, is_digit_digit_char.
Qed.

Lemma skip_ws_stringify (j : json) (rest : string) :
  skip_ws (stringify j +:+ rest) = stringify j +:+ rest.
Proof.
  destruct (stringify_head j) as (c & s & -> & _ & Hc).
  rewrite append_cons. simpl. now rewrite Hc.
Qed.

Lemma number_ends_items (l : list json) (rest : string) :
  number_ends (stringify_items l +:+ rest).
Proof. destruct l; split; reflexivity. Qed.

Lemma number_ends_members (ms : list (string * json)) (rest : string) :
  number_ends (stringify_members ms +:+ rest).
Proof. destruct ms as [|[k v] ms]; split; reflexivity. Qed.

(** Reading back a printed integer. *)
Lemma read_number_N_to_string (n : N) (rest : string) :
  number_ends rest →
  read_number (N_to_string n +:+ rest) = Returns (n, rest).
Proof.
  intros Hrest. unfold read_number.
  rewrite read_int_N_to_string
    by (destruct rest; [exact I | exact (proj1 Hrest)]).
  cbn [or_throw mbind Outcome_bind].
  destruct rest as [|c rest]; [reflexivity|]. now rewrite (proj2 Hrest).
Qed.

Lemma parse_value_JNum (f : nat) (n : Z) (rest : string) :
  number_ends rest →
  parse_value (S f) (Number_toString n +:+ rest) = Returns (JNum n, rest).
Proof.
  intros Hrest. unfold Number_toString. destruct (Z.ltb_spec n 0) as [Hneg|Hpos].
  - rewrite append_cons.
    change (parse_value (S f) (String (chr 45) ?s))
      with ('(m, r) ← read_number s; Returns (JNum (- Z.of_N m), r)).
    rewrite read_number_N_to_string by assumption.
    cbn [mbind Outcome_bind]. rewrite N2Z.inj_abs_N. do 3 f_equal. lia.
  - destruct (N_to_string_head (Z.to_N n)) as (d & s1 & Hs & Hd).
    pose proof (read_number_N_to_string (Z.to_N n) rest Hrest) as Hread.
    rewrite Hs in *. rewrite append_cons in *.
    rewrite parse_value_digit by now apply is_digit_digit_char.
    rewrite Hread. cbn [mbind Outcome_bind]. do 3 f_equal. apply Z2N.id. lia.
Qed.

(** Brings a concatenation to the form [c1 :: c2 :: ... (a +:+ (b +:+ ...))]. *)
Ltac norm_app :=
  repeat (rewrite append_assoc || rewrite append_cons || rewrite append_nil_l).

(** Parsing what [stringify] wrote gives the document back, whatever
    follows it; the three parsers are handled together, by induction on
    the fuel. *)
Lemma parse_stringify_fuel (fuel : nat) :
  (∀ j rest, (json_size j ≤ fuel)%nat → number_ends rest →
     parse_value fuel (stringify j +:+ rest) = Returns (j, rest)) ∧
  (∀ l rest, (S (items_size l) ≤ fuel)%nat →
     parse_items fuel (stringify_items l +:+ rest) = Returns (l, rest)) ∧
  (∀ ms rest, (S (members_size ms) ≤ fuel)%nat →
     parse_members fuel (stringify_members ms +:+ rest) = Returns (ms, rest)).
Proof.
  induction fuel as [|f (IHv & IHi & IHm)].
  - split; [|split].
    + intros j rest H. destruct j; simpl in H; lia.
    + intros l rest H. lia.
    + intros ms rest H. lia.
  - split; [|split].
    + intros j rest Hsize Hrest.
      destruct j as [|[]|n|s|[|x l]|[|[k v] ms]]; try reflexivity.
      * now apply parse_value_JNum.
      * change (stringify (JStr s)) with (quote_string s).
        unfold quote_string. norm_app.
        change (parse_value (S f) (String quote ?t))
          with ('(str, r) ← read_string_body t; Returns (JStr str, r)).
        now rewrite read_string_body_escape.
      * rewrite stringify_JArr_cons, json_size_JArr in *. simpl in Hsize.
        norm_app.
        destruct (stringify_head x) as (c & sx & Hx & Hc & Hspace).
        change (parse_value (S f) (String "[" ?t))
          with (match expect "]" (skip_ws t) with
                | Some r => Returns (JArr [], r)
                | None =>
                    '(x, r) ← parse_value f t;
                    '(l, r') ← parse_items f r;
                    Returns (JArr (x :: l), r')
                end).
        rewrite skip_ws_stringify.
        replace (expect "]" (stringify x +:+ stringify_items l +:+ rest)) with (@None string).
        2:{ rewrite Hx, append_cons. unfold expect.
            destruct (Ascii.eqb_spec "]" c); congruence. }
        rewrite IHv by (lia || apply number_ends_items).
        cbn [mbind Outcome_bind]. rewrite IHi by lia. reflexivity.
      * rewrite stringify_JObj_cons, json_size_JObj in *. simpl in Hsize.
        norm_app.
        change (parse_value (S f) (String "{" ?t))
          with (match expect "}" (skip_ws t) with
                | Some r => Returns (JObj [], r)
                | None =>
                    '(k, r0) ← read_key (skip_ws t);
                    '(v, r) ← parse_value f r0;
                    '(l, r') ← parse_members f r;
                    Returns (JObj ((k, v) :: l), r')
                end).
        change (skip_ws (quote_string k +:+ ?t)) with (quote_string k +:+ t).
        change (expect "}" (quote_string k +:+ ?t)) with (@None string).
        cbv iota.
        rewrite read_key_quote_string.
        cbn [mbind Outcome_bind].
        rewrite IHv by (lia || apply number_ends_members).
        cbn [mbind Outcome_bind]. rewrite IHm by lia. reflexivity.
    + intros l rest Hsize. destruct l as [|y l]; [reflexivity|].
      simpl in Hsize. simpl stringify_items.
      norm_app.
      change (parse_items (S f) (String "," ?t))
        with ('(x, r) ← parse_value f t; '(l, r') ← parse_items f r; Returns (x :: l, r')).
      rewrite IHv by (lia || apply number_ends_items).
      cbn [mbind Outcome_bind]. rewrite IHi by lia. reflexivity.
    + intros ms rest Hsize. destruct ms as [|[k v] ms]; [reflexivity|].
      simpl in Hsize. simpl stringify_members.
      norm_app.
      change (parse_members (S f) (String "," ?t))
        with ('(k, r0) ← read_key (skip_ws t);
              '(v, r) ← parse_value f r0;
              '(l, r') ← parse_members f r;
              Returns ((k, v) :: l, r')).
      change (skip_ws (quote_string k +:+ ?t)) with (quote_string k +:+ t).
      rewrite read_key_quote_string.
      cbn [mbind Outcome_bind].
      rewrite IHv by (lia || apply number_ends_members).
      cbn [mbind Outcome_bind]. rewrite IHm by lia. reflexivity.
Qed.

Lemma Number_toString_length (n : Z) : (1 ≤ String.length (Number_toString n))%nat.
Proof.
  unfold Number_toString. destruct (n <? 0)%Z; [simpl; lia|].
  destruct (N_to_string_head (Z.to_N n)) as (d & s1 & -> & _). simpl. lia.
Qed.

Lemma json_size_length_bounded (n : nat) :
  (∀ j, (json_size j ≤ n)%nat → (json_size j ≤ String.length (stringify j))%nat) ∧
  (∀ l, (items_size l ≤ n)%nat →
     (S (items_size l) ≤ String.length (stringify_items l))%nat) ∧
  (∀ ms, (members_size ms ≤ n)%nat →
     (S (members_size ms) ≤ String.length (stringify_members ms))%nat).
Proof.
  induction n as [|n (IHv & IHi & IHm)].
  - split; [|split].
    + intros j H. destruct j; simpl in H; lia.
    + intros [|y l] H; simpl in *; lia.
    + intros [|[k v] ms] H; simpl in *; lia.
  - split; [|split].
    + intros j H.
      destruct j as [|[]|z|s|[|x l]|[|[k v] ms]]; try (simpl; lia).
      * apply Number_toString_length.
      * rewrite stringify_JArr_cons, json_size_JArr in *. simpl in H.
        rewrite !length_append. simpl.
        pose proof (IHv x). pose proof (IHi l). lia.
      * rewrite stringify_JObj_cons, json_size_JObj in *. simpl in H.
        rewrite !length_append. simpl.
        pose proof (IHv v). pose proof (IHm ms). lia.
    + intros [|y l] H; [simpl; lia|]. simpl in H. simpl stringify_items.
      rewrite !length_append. simpl.
      pose proof (IHv y). pose proof (IHi l). lia.
    + intros [|[k v] ms] H; [simpl; lia|]. simpl in H. simpl stringify_members.
      rewrite !length_append. simpl.
      pose proof (IHv v). pose proof (IHm ms). lia.
Qed.

Lemma json_size_length (j : json) : (json_size j ≤ String.length (stringify j))%nat.
Proof. apply (json_size_length_bounded (json_size j)). lia. Qed.

(** [JSON.parse(JSON.stringify(j))] is [j], for a plain document. *)
Lemma parse_stringify (j : json) :
  plain j = true → parse (stringify j) = Returns j.
Proof.
  intros Hplain. unfold parse.
  destruct (parse_stringify_fuel (S (String.length (stringify j)))) as (Hv & _ & _).
  specialize (Hv j EmptyString).
  rewrite append_nil_r in Hv. rewrite Hv; [|pose proof (json_size_length j); lia | exact I].
  cbn [mbind Outcome_bind skip_ws]. now rewrite Hplain.
Qed.

(** *** Trimming *)

Lemma trimStart_blank (s : string) : Spec.blank s → trimStart s = EmptyString.
Proof.
  induction s as [|c s IH]; [reflexivity|].
  intros [Hc Hs]. simpl. rewrite Hc. now apply IH.
Qed.

Lemma trimStart_not_blank (s : string) :
  ¬ Spec.blank s →
  ∃ c s', trimStart s = String c s' ∧ is_white_space c = false.
Proof.
  induction s as [|c s IH]; intros Hb; [destruct Hb; exact I|].
  simpl. destruct (is_white_space c) eqn:Hc.
  - apply IH. intros Hs. apply Hb. now split.
  - now exists c, s.
Qed.

Lemma trimEnd_keeps_head (c : ascii) (s : string) :
  is_white_space c = false → truthy (trimEnd (String c s)) = true.
Proof. intros Hc. simpl. rewrite Hc. destruct (trimEnd s); reflexivity. Qed.

(** The test [!name.trim()] holds exactly for the blank names. *)
Lemma trim_blank (s : string) : Spec.blank s → truthy (trim s) = false.
Proof. intros H. unfold trim. now rewrite trimStart_blank. Qed.

Lemma trim_not_blank (s : string) : ¬ Spec.blank s → truthy (trim s) = true.
Proof.
  intros H. unfold trim.
  destruct (trimStart_not_blank s H) as (c & s' & -> & Hc).
  now apply trimEnd_keeps_head.
Qed.

Example trim_example :
  trim (String (chr 9) " Leg day  ") = "Leg day"%string
  ∧ trim (String (chr 160) "  ") = EmptyString.
Proof. split; reflexivity. Qed.

Example Number_toString_example :
  Number_toString 1700000000000 = "1700000000000"%string
  ∧ Number_toString 0 = "0"%string ∧ Number_toString (-42) = "-42"%string.
Proof. repeat split. Qed.

Example parse_example :
  parse "[1,-20,[],{},null,true]"
  = Returns (JArr [JNum 1; JNum (-20); JArr []; JObj []; JNull; JBool true])
  ∧ parse " [ 1 , [ ] ] " = Returns (JArr [JNum 1; JArr []])
  ∧ parse "[01]" = Throws ∧ parse "[1,]" = Throws ∧ parse EmptyString = Throws
  ∧ parse "{oops" = Throws ∧ parse "[22.5]" = Unmodelled ∧ parse "1e3" = Unmodelled.
Proof. repeat split. Qed.

Lemma fixed_head (w : nat) : ∀ n : N,
  ∃ d s, fixed (S w) n = String (digit_char d) s ∧ d < 10.
Proof.
  induction w as [|w IH]; intros n.
  - exists (n mod 10), EmptyString. split; [reflexivity | apply N.mod_lt; lia].
  - destruct (IH (n / 10)) as (d & s & Hs & Hd).
    exists d, (s +:+ String (digit_char (n mod 10)) EmptyString).
    split; [|assumption].
    change (fixed (S (S w)) n)
      with (fixed (S w) (n / 10) +:+ String (digit_char (n mod 10)) EmptyString).
    now rewrite Hs.
Qed.

Lemma expect_same (c : ascii) (s : string) : expect c (String c s) = Some s.
Proof. unfold expect. now rewrite Ascii.eqb_refl. Qed.

Lemma read_field_fixed (w : nat) (n : N) (rest : string) :
  n < 10 ^ N.of_nat w →
  read_field w (fixed w n +:+ rest) = Some (Z.of_N n, rest).
Proof.
  intros H. unfold read_field. rewrite read_fixed_fixed by assumption.
  replace (0 * 10 ^ N.of_nat w + n) with n by lia. reflexivity.
Qed.

End JSFacts.

(** * Facts about dates *)

Module DateFacts.
Import JS JSFacts.

Local Open Scope Z_scope.

(** Month and day of a day of the year that starts on the first of March. *)
Lemma month_day_spec (doy : Z) : 0 ≤ doy ≤ 365 →
  let mp := (5 * doy + 2) / 153 in
  let d := doy - (153 * mp + 2) / 5 + 1 in
  let m := if mp <? 10 then mp + 3 else mp - 9 in
  1 ≤ m ≤ 12 ∧ 1 ≤ d ∧
  (if 2 <? m then m - 3 else m + 9) = mp ∧
  (m = 2 → d ≤ 29 ∧ (d = 29 → doy = 365)) ∧
  d ≤ (if m =? 2 then 29
       else if (m =? 4) || (m =? 6) || (m =? 9) || (m =? 11) then 30 else 31).
Proof.
  intros H. cbv zeta.
  assert (0 ≤ (5 * doy + 2) / 153 ≤ 11) as Hmp by (Z.div_mod_to_equations; lia).
  set (mp := (5 * doy + 2) / 153) in *.
  assert (mp = 0 ∨ mp = 1 ∨ mp = 2 ∨ mp = 3 ∨ mp = 4 ∨ mp = 5 ∨ mp = 6 ∨ mp = 7
          ∨ mp = 8 ∨ mp = 9 ∨ mp = 10 ∨ mp = 11) as Hc by lia.
  assert (153 * mp ≤ 5 * doy + 2 < 153 * mp + 153) as Hb
    by (subst mp; Z.div_mod_to_equations; lia).
  clearbody mp.
  repeat (destruct Hc as [->|Hc]; [simpl; Z.div_mod_to_equations; lia|]);
    subst mp; simpl; Z.div_mod_to_equations; lia.
Qed.

Lemma is_leap_true (y : Z) :
  y mod 4 = 0 → (y mod 100 ≠ 0 ∨ y mod 400 = 0) → is_leap y = true.
Proof.
  intros H4 H. unfold is_leap. rewrite H4. simpl.
  destruct (Z.eqb_spec (y mod 100) 0), (Z.eqb_spec (y mod 400) 0); simpl; tauto.
Qed.

(** The calendar date of a day number is legal and names that day. *)
Lemma civil_from_days_spec (z : Z) :
  let '(y, m, d) := civil_from_days z in
  days_from_civil y m d = z ∧ 1 ≤ m ≤ 12 ∧ 1 ≤ d ≤ days_in_month y m ∧
  (z + 719468) / 146097 * 400 ≤ y ≤ (z + 719468) / 146097 * 400 + 400.
Proof.
  unfold civil_from_days, civil_of_doe.
  set (era := (z + 719468) / 146097).
  set (doe := (z + 719468) mod 146097).
  assert (0 ≤ doe < 146097) as Hdoe by (apply Z.mod_pos_bound; lia).
  assert (z + 719468 = 146097 * era + doe) as Hz by (apply Z.div_mod; lia).
  set (yoe := (doe - doe / 1460 + doe / 36524 - doe / 146096) / 365).
  set (doy := doe - (365 * yoe + yoe / 4 - yoe / 100)).
  assert (0 ≤ yoe ≤ 399 ∧ 0 ≤ doy ≤ 365) as [Hyoe Hdoy].
  { subst doy yoe. Z.div_mod_to_equations. lia. }
  assert (doy = 365 →
          (yoe + 1) mod 4 = 0 ∧ ((yoe + 1) mod 100 ≠ 0 ∨ (yoe + 1) mod 400 = 0)) as Hleap.
  { subst doy yoe. Z.div_mod_to_equations; lia. }
  pose proof (month_day_spec doy Hdoy) as Hmd. cbv zeta in Hmd.
  set (mp := (5 * doy + 2) / 153) in *.
  set (d := doy - (153 * mp + 2) / 5 + 1) in *.
  set (m := if mp <? 10 then mp + 3 else mp - 9) in *.
  destruct Hmd as (Hm & Hd1 & Hmp & Hfeb & Hlen).
  assert (doe = yoe * 365 + yoe / 4 - yoe / 100 + doy) as Hdoe' by (subst doy; lia).
  clearbody doy yoe doe era.
  unfold days_from_civil. rewrite Hmp.
  assert ((if m <=? 2 then (if m <=? 2 then yoe + 1 else yoe) + era * 400 - 1
           else (if m <=? 2 then yoe + 1 else yoe) + era * 400) = yoe + 400 * era) as ->.
  { destruct (m <=? 2); lia. }
  assert ((yoe + 400 * era) / 400 = era) as -> by (Z.div_mod_to_equations; lia).
  assert ((yoe + 400 * era) mod 400 = yoe) as -> by (Z.div_mod_to_equations; lia).
  split; [subst d; lia|]. split; [lia|].
  split; [split; [lia|] | destruct (m <=? 2); lia].
  unfold days_in_month.
  destruct (Z.eqb_spec m 2) as [E|E]; [|exact Hlen].
  destruct (Hfeb E) as [H29 Hd29].
  replace (m <=? 2) with true by (symmetry; apply Z.leb_le; lia).
  destruct (is_leap (yoe + 1 + era * 400)) eqn:El; [lia|].
  assert (d ≠ 29); [|lia].
  intros E29. destruct (Hleap (Hd29 E29)) as [H4 H100].
  rewrite is_leap_true in El; [discriminate| |].
  - Z.div_mod_to_equations; lia.
  - Z.div_mod_to_equations; lia.
Qed.

Lemma read_year_year_string (y : Z) (rest : string) :
  -1000000 < y < 1000000 →
  read_year (year_string y +:+ rest) = Some (y, rest).
Proof.
  intros Hy. unfold year_string.
  destruct (Z.leb_spec 0 y) as [H0|H0]; cbn [andb].
  - destruct (Z.leb_spec y 9999) as [H9|H9].
    + destruct (fixed_head 3 (Z.to_N y)) as (c & s & Hs & Hc).
      pose proof (read_field_fixed 4 (Z.to_N y) rest) as Hread.
      rewrite Hs in *. rewrite append_cons in *. unfold read_year.
      pose proof (digit_char_cases c Hc) as Hcase. simpl in Hcase.
      replace (Ascii.eqb (digit_char c) plus_sign) with false.
      2:{ repeat (destruct Hcase as [<-|Hcase]; [reflexivity|]). destruct Hcase. }
      replace (Ascii.eqb (digit_char c) minus_sign) with false.
      2:{ repeat (destruct Hcase as [<-|Hcase]; [reflexivity|]). destruct Hcase. }
      rewrite Hread by (simpl; lia). do 3 f_equal. lia.
    + destruct (Z.ltb_spec y 0); [lia|]. rewrite append_cons.
      change (read_year (String plus_sign ?s)) with (read_field 6 s).
      rewrite read_field_fixed by (simpl; lia).
      do 3 f_equal. lia.
  - destruct (Z.ltb_spec y 0); [|lia]. rewrite append_cons.
    change (read_year (String minus_sign ?s))
      with ('(y, s'') ← read_field 6 s; if y =? 0 then None else Some (- y, s'')).
    rewrite read_field_fixed by (simpl; lia).
    cbn [mbind option_bind].
    destruct (Z.eqb_spec (Z.of_N (Z.abs_N y)) 0); [lia|].
    do 3 f_equal. lia.
Qed.

Lemma read_date_time_toISOString (t : Z) :
  - maxTime ≤ t ≤ maxTime →
  let ms := t mod msPerDay in
  let '(y, m, d) := civil_from_days (t / msPerDay) in
  read_date_time (toISOString t) =
  Some (y, m, d, ms / 3600000, ms / 60000 mod 60, ms / 1000 mod 60, ms mod 1000).
Proof.
  intros Ht. cbv zeta. unfold toISOString.
  pose proof (civil_from_days_spec (t / msPerDay)) as Hc.
  destruct (civil_from_days (t / msPerDay)) as [[y m] d].
  destruct Hc as (_ & Hm & Hd & Hy).
  assert (d ≤ 31) as Hd31.
  { destruct Hd as [_ Hd]. unfold days_in_month in Hd.
    destruct (m =? 2); [destruct (is_leap y); lia|].
    destruct ((m =? 4) || (m =? 6) || (m =? 9) || (m =? 11)); lia. }
  assert (-1000000 < y < 1000000) as Hy'.
  { unfold maxTime, msPerDay in *. Z.div_mod_to_equations. lia. }
  assert (0 ≤ t mod msPerDay < msPerDay) as Hms
    by (apply Z.mod_pos_bound; reflexivity).
  set (ms := t mod msPerDay) in *. unfold msPerDay in Hms.
  unfold read_date_time. norm_app.
  rewrite read_year_year_string by assumption. cbn [mbind option_bind].
  rewrite expect_same. cbn [mbind option_bind].
  rewrite read_field_fixed by (simpl; lia). cbn [mbind option_bind].
  rewrite expect_same. cbn [mbind option_bind].
  rewrite read_field_fixed by (simpl; lia). cbn [mbind option_bind].
  rewrite expect_same. cbn [mbind option_bind].
  rewrite read_field_fixed by (simpl; Z.div_mod_to_equations; lia).
  cbn [mbind option_bind].
  rewrite expect_same. cbn [mbind option_bind].
  rewrite read_field_fixed by (simpl; Z.div_mod_to_equations; lia).
  cbn [mbind option_bind].
  rewrite expect_same. cbn [mbind option_bind].
  rewrite read_field_fixed by (simpl; Z.div_mod_to_equations; lia).
  cbn [mbind option_bind].
  rewrite expect_same. cbn [mbind option_bind].
  rewrite read_field_fixed by (simpl; Z.div_mod_to_equations; lia).
  cbn [mbind option_bind].
  rewrite expect_same. cbn [mbind option_bind].
  rewrite !Z2N.id by (Z.div_mod_to_equations; lia).
  reflexivity.
Qed.

(** [new Date(d.toISOString())] has the time value of [d]. *)
Lemma Date_parse_toISOString (t : Z) :
  - maxTime ≤ t ≤ maxTime → Date_parse (toISOString t) = Some (DateValue t).
Proof.
  intros Ht. unfold Date_parse.
  pose proof (read_date_time_toISOString t Ht) as Hr. cbv zeta in Hr.
  pose proof (civil_from_days_spec (t / msPerDay)) as Hc.
  destruct (civil_from_days (t / msPerDay)) as [[y m] d].
  rewrite Hr. destruct Hc as (Hday & Hm & Hd & _).
  assert (0 ≤ t mod msPerDay < msPerDay) as Hms
    by (apply Z.mod_pos_bound; reflexivity).
  pose proof (Z.div_mod t msPerDay ltac:(discriminate)) as Hdm.
  set (ms := t mod msPerDay) in *. unfold msPerDay in Hms.
  replace (legal_fields y m d (ms / 3600000) (ms / 60000 mod 60)
             (ms / 1000 mod 60) (ms mod 1000)) with true.
  2:{ symmetry. unfold legal_fields.
      rewrite !andb_true_iff, !Z.leb_le.
      repeat split; try lia; Z.div_mod_to_equations; lia. }
  rewrite Hday.
  replace (t / msPerDay * msPerDay + ms / 3600000 * 3600000
           + ms / 60000 mod 60 * 60000 + ms / 1000 mod 60 * 1000 + ms mod 1000)
    with t.
  2:{ rewrite Hdm at 1. unfold msPerDay in *. Z.div_mod_to_equations. lia. }
  unfold TimeClip.
  destruct (Z.leb_spec (- maxTime) t); [|lia].
  destruct (Z.leb_spec t maxTime); [|lia]. reflexivity.
Qed.

Example toISOString_examples :
  toISOString 0 = "1970-01-01T00:00:00.000Z"%string
  ∧ toISOString 1700000000000 = "2023-11-14T22:13:20.000Z"%string
  ∧ toISOString 951782400000 = "2000-02-29T00:00:00.000Z"%string
  ∧ toISOString (-1) = "1969-12-31T23:59:59.999Z"%string
  ∧ toISOString maxTime = "+275760-09-13T00:00:00.000Z"%string
  ∧ toISOString (- maxTime) = "-271821-04-20T00:00:00.000Z"%string.
Proof. repeat split; vm_compute; reflexivity. Qed.

Example Date_parse_examples :
  Date_parse "2023-11-14T22:13:20.000Z" = Some (DateValue 1700000000000)
  ∧ Date_parse "2023-02-29T00:00:00.000Z" = None
  ∧ Date_parse "+275760-09-13T00:00:00.001Z" = None
  ∧ Date_parse "yesterday" = None.
Proof. repeat split; vm_compute; reflexivity. Qed.

End DateFacts.

(** * Facts about the stored records *)

Module CodecFacts.
Import JS JSFacts DateFacts Codec.

Lemma as_Exercise_toJSON (e : Exercise.t) : as_Exercise (Exercise.toJSON e) = Some e.
Proof. destruct e. reflexivity. Qed.

Lemma mapM_as_Exercise (l : list Exercise.t) :
  mapM as_Exercise (map Exercise.toJSON l) = Some l.
Proof.
  induction l as [|e l IH]; [reflexivity|].
  cbn [map mapM]. rewrite as_Exercise_toJSON. cbn [mbind option_bind].
  rewrite IH. reflexivity.
Qed.

Lemma new_Date_toJSON (d : Date) :
  Spec.timestamp d → new_Date (Some (Date_toJSON d)) = Some d.
Proof.
  intros Hd. destruct d as [t|]; [|destruct Hd]. simpl.
  now rewrite Date_parse_toISOString.
Qed.

Lemma restore_Workout_toJSON (w : Workout.t) :
  Spec.timestamp (Workout.createdAt w) →
  restore_Workout (Workout_toJSON w) = Some w.
Proof.
  intros Hd. destruct w as [i n exs d]. simpl in Hd.
  unfold Workout_toJSON, restore_Workout.
  cbn [Workout.id Workout.name Workout.exercises Workout.createdAt].
  change (has_names _ _) with true. cbv iota.
  rewrite mapM_as_Exercise. cbn [mbind option_bind].
  rewrite new_Date_toJSON by assumption. reflexivity.
Qed.

Lemma restore_WorkoutSession_toJSON (x : WorkoutSession.t) :
  Spec.timestamp (WorkoutSession.completedAt x) →
  restore_WorkoutSession (WorkoutSession_toJSON x) = Some x.
Proof.
  intros Hd. destruct x as [i wi wn exs d ts tv]. simpl in Hd.
  unfold WorkoutSession_toJSON, restore_WorkoutSession.
  cbn [WorkoutSession.id WorkoutSession.workoutId WorkoutSession.workoutName
       WorkoutSession.exercises WorkoutSession.completedAt
       WorkoutSession.totalSets WorkoutSession.totalVolume].
  change (has_names _ _) with true. cbv iota.
  rewrite mapM_as_Exercise. cbn [mbind option_bind].
  rewrite new_Date_toJSON by assumption. reflexivity.
Qed.

Lemma mapM_restore {A : Type} (restore : json → option A) (toJSON : A → json)
    (P : A → Prop) (l : list A) :
  (∀ a, P a → restore (toJSON a) = Some a) →
  Forall P l → mapM restore (map toJSON l) = Some l.
Proof.
  intros Hr Hl. induction Hl as [|a l Ha Hl IH]; [reflexivity|].
  cbn [map mapM]. rewrite (Hr a Ha). cbn [mbind option_bind].
  rewrite IH. reflexivity.
Qed.

Lemma no_null_items {A : Type} (toJSON : A → json) (l : list A) :
  (∀ a, is_null (toJSON a) = false) → existsb is_null (map toJSON l) = false.
Proof.
  intros H. induction l as [|a l IH]; [reflexivity|].
  simpl. now rewrite H, IH.
Qed.

(** *** The documents the application writes are plain *)

Lemma plain_items {A : Type} (toJSON : A → json) (l : list A) :
  (∀ a, plain (toJSON a) = true) → plain (JArr (map toJSON l)) = true.
Proof.
  intros H. induction l as [|a l IH]; [reflexivity|].
  cbn [plain map forallb] in *. now rewrite H, IH.
Qed.

Lemma plain_Exercise (e : Exercise.t) : plain (Exercise.toJSON e) = true.
Proof. reflexivity. Qed.

Lemma plain_Date (d : Date) : plain (Date_toJSON d) = true.
Proof. destruct d; reflexivity. Qed.

Lemma plain_Workout (w : Workout.t) : plain (Workout_toJSON w) = true.
Proof.
  unfold Workout_toJSON. cbn [plain map fst forallb].
  change (plain_names _) with true.
  pose proof (plain_items Exercise.toJSON (Workout.exercises w) plain_Exercise) as H.
  cbn [plain] in H. now rewrite H, plain_Date.
Qed.

Lemma plain_WorkoutSession (x : WorkoutSession.t) : plain (WorkoutSession_toJSON x) = true.
Proof.
  unfold WorkoutSession_toJSON. cbn [plain map fst forallb].
  change (plain_names _) with true.
  pose proof (plain_items Exercise.toJSON (WorkoutSession.exercises x) plain_Exercise) as H.
  cbn [plain] in H. now rewrite H, plain_Date.
Qed.

(** What [stringify] wrote for an array of records is read back as the
    records. *)
Lemma parse_and_restore_stringify {A : Type} (restore : json → option A)
    (toJSON : A → json) (P : A → Prop) (l : list A) :
  (∀ a, P a → restore (toJSON a) = Some a) →
  (∀ a, is_null (toJSON a) = false) →
  (∀ a, plain (toJSON a) = true) →
  Forall P l →
  parse_and_restore restore (stringify (JArr (map toJSON l))) = Got l.
Proof.
  intros Hr Hn Hp Hl. unfold parse_and_restore.
  rewrite parse_stringify by now apply plain_items.
  rewrite no_null_items by assumption.
  now rewrite (mapM_restore restore toJSON P).
Qed.

Lemma truthy_stringify (j : json) : truthy (stringify j) = true.
Proof.
  destruct (stringify_head j) as (c & s & -> & _). reflexivity.
Qed.

Lemma present_stringify (j : json) :
  present (Some (stringify j)) = Some (stringify j).
Proof. unfold present. now rewrite truthy_stringify. Qed.

End CodecFacts.

(** * Facts about the workout manager *)

Module ManagerFacts.
Import JS JSFacts Codec CodecFacts WorkoutManager.

(** Within [±2^53] the sums and products of integers are exact. *)
Lemma round64_safe (z : Z) : Spec.safe z → round64 z = z.
Proof.
  intros [Hl Hu]. unfold round64.
  destruct (Z.leb_spec (Z.abs z) maxSafeInteger); [reflexivity | lia].
Qed.

Lemma add_safe (a b : Z) : Spec.safe (a + b) → add a b = a + b.
Proof. apply round64_safe. Qed.

Lemma mul_safe (a b : Z) : Spec.safe (a * b) → mul a b = a * b.
Proof. apply round64_safe. Qed.

Lemma fold_left_sets (l : list Exercise.t) :
  ∀ a v : Z, Spec.exact_from a v l →
  fold_left (fun total ex => add total (Exercise.sets ex)) l a = a + Spec.sum_sets l.
Proof.
  induction l as [|ex l IH]; intros a v H; simpl; [lia|].
  destruct H as (_ & Ha & _ & H).
  rewrite add_safe by assumption. rewrite (IH _ _ H). lia.
Qed.

Lemma fold_left_volume (l : list Exercise.t) :
  ∀ a v : Z, Spec.exact_from a v l →
  fold_left (fun total ex => add total (mul (Exercise.sets ex) (Exercise.weight ex))) l v
  = v + Spec.sum_volume l.
Proof.
  induction l as [|ex l IH]; intros a v H; simpl; [lia|].
  destruct H as (Hm & _ & Hv & H).
  rewrite mul_safe by assumption. rewrite add_safe by assumption.
  rewrite (IH _ _ H). lia.
Qed.

(** Sets and weights that are not negative, with totals up to [2^53]. *)
Lemma exact_from_nonnegative (l : list Exercise.t) :
  ∀ a v : Z, 0 ≤ a → 0 ≤ v →
  Forall (λ ex, 0 ≤ Exercise.sets ex ∧ 0 ≤ Exercise.weight ex) l →
  a + Spec.sum_sets l ≤ maxSafeInteger → v + Spec.sum_volume l ≤ maxSafeInteger →
  Spec.exact_from a v l.
Proof.
  induction l as [|ex l IH]; intros a v Ha Hv Hl Hs Hvol; [exact I|].
  inversion Hl as [|? ? [Hsets Hweight] Hl']; subst. simpl in Hs, Hvol |- *.
  assert (0 ≤ Spec.sum_sets l ∧ 0 ≤ Spec.sum_volume l) as [Hs0 Hv0].
  { clear -Hl'. induction Hl' as [|e l [H1 H2] _ [IH1 IH2]]; simpl; [lia|]. nia. }
  assert (0 ≤ Exercise.sets ex * Exercise.weight ex) by nia.
  unfold Spec.safe. repeat split; try lia.
  apply IH; try assumption; lia.
Qed.

Lemma keys_distinct :
  STORAGE_KEY ≠ PROGRESS_KEY ∧ SELECTED_WORKOUT_KEY ≠ PROGRESS_KEY ∧
  STORAGE_KEY ≠ SELECTED_WORKOUT_KEY.
Proof. repeat split; discriminate. Qed.

Lemma saveWorkouts_other (ws : list Workout.t) (store : gmap string string) (k : string) :
  k ≠ STORAGE_KEY → saveWorkouts ws store !! k = store !! k.
Proof. intros H. unfold saveWorkouts, AsyncStorage.setItem. now rewrite lookup_insert_ne. Qed.

Lemma saveSelectedWorkout_other (i : string) (store : gmap string string) (k : string) :
  k ≠ SELECTED_WORKOUT_KEY → saveSelectedWorkout i store !! k = store !! k.
Proof.
  intros H. unfold saveSelectedWorkout, AsyncStorage.setItem. now rewrite lookup_insert_ne.
Qed.



Lemma or_else_empty (i : string) : or_else i EmptyString = i.
Proof. destruct i; reflexivity. Qed.

Lemma first_id_cons (w : Workout.t) (ws : list Workout.t) :
  first_id (w :: ws) = Workout.id w.
Proof. apply or_else_empty. Qed.

(** The guard of [deleteWorkout]: the last workout is not deleted. *)
Lemma deleteWorkout_refused (st : State) (workoutId : string) :
  (length (workouts st) ≤ 1)%nat →
  deleteWorkout st workoutId = Notice (alert "Error" "You must have at least one workout").
Proof.
  intros H. unfold deleteWorkout.
  destruct (Nat.leb_spec (length (workouts st)) 1); [reflexivity | lia].
Qed.

Lemma deleteWorkout_asked (st : State) (workoutId : string) :
  (1 < length (workouts st))%nat →
  deleteWorkout st workoutId =
  Question (alert "Delete Workout" "Are you sure you want to delete this workout?")
    (deleteWorkout_onPress st workoutId).
Proof.
  intros H. unfold deleteWorkout.
  destruct (Nat.leb_spec (length (workouts st)) 1); [lia | reflexivity].
Qed.

(** When the ids are pairwise distinct a deletion removes at most one
    workout, so that one of two or more is left. *)
Lemma filter_distinct_length (i : string) (ws : list Workout.t) :
  NoDup (map Workout.id ws) →
  (length ws ≤ S (length (filter (λ w, Workout.id w ≠ i) ws)))%nat.
Proof.
  induction ws as [|w ws IH]; intros Hnd; [simpl; lia|].
  inversion Hnd as [|? ? Hin Hnd']; subst.
  rewrite filter_cons. destruct (decide (Workout.id w ≠ i)) as [Hne|He].
  - simpl. specialize (IH Hnd'). lia.
  - apply dec_stable in He. subst i.
    assert (filter (λ w0, Workout.id w0 ≠ Workout.id w) ws = ws) as ->; [|simpl; lia].
    clear IH Hnd Hnd'. induction ws as [|v ws IH]; [reflexivity|].
    rewrite filter_cons. destruct (decide (Workout.id v ≠ Workout.id w)) as [_|He].
    + f_equal. apply IH. intros Hin'. apply Hin. simpl.
      now apply list_elem_of_further.
    + exfalso. apply dec_stable in He. apply Hin. simpl. rewrite He.
      apply list_elem_of_here.
Qed.

Lemma deleteWorkout_onPress_keeps_one (st : State) (workoutId : string)
    (store : gmap string string) :
  NoDup (map Workout.id (workouts st)) →
  (1 < length (workouts st))%nat →
  workouts (deleteWorkout_onPress st workoutId store).1 ≠ [].
Proof.
  intros Hnd Hlen. unfold deleteWorkout_onPress. cbn [fst].
  pose proof (filter_distinct_length workoutId (workouts st) Hnd) as Hf.
  destruct (decide (selectedWorkoutId st = workoutId)); simpl;
    intros E; rewrite E in Hf; simpl in Hf; lia.
Qed.

(** *** Completing workouts *)

Lemma saveWorkoutSession_first (now completed : Z) (workout : Workout.t)
    (store : gmap string string) :
  present (store !! PROGRESS_KEY) = None →
  saveWorkoutSession now completed workout store =
  Some (<[PROGRESS_KEY :=
           stringify (JArr [WorkoutSession_toJSON (newSession now completed workout)])]>
          store,
        alert "Workout Complete!" ("Great job finishing " +:+ Workout.name workout +:+ "!")).
Proof.
  intros H. unfold saveWorkoutSession, AsyncStorage.getItem, AsyncStorage.setItem.
  now rewrite H.
Qed.

Lemma saveWorkoutSession_next (now completed : Z) (workout : Workout.t)
    (store : gmap string string) (text : string) (older : list json) :
  present (store !! PROGRESS_KEY) = Some text →
  parse text = Returns (JArr older) →
  saveWorkoutSession now completed workout store =
  Some (<[PROGRESS_KEY :=
           stringify
             (JArr (WorkoutSession_toJSON (newSession now completed workout) :: older))]>
          store,
        alert "Workout Complete!" ("Great job finishing " +:+ Workout.name workout +:+ "!")).
Proof.
  intros H Hp. unfold saveWorkoutSession, AsyncStorage.getItem, AsyncStorage.setItem.
  now rewrite H, Hp.
Qed.

Lemma plain_cons (j : json) (older : list json) :
  plain j = true → plain (JArr older) = true → plain (JArr (j :: older)) = true.
Proof. intros Hj Ho. cbn [plain forallb] in *. now rewrite Hj, Ho. Qed.

Lemma complete_all_onto (calls : list (Z * Z * Workout.t)) :
  ∀ (store : gmap string string) (older : list json),
  plain (JArr older) = true →
  store !! PROGRESS_KEY = Some (stringify (JArr older)) →
  ∃ store', Session.complete_all calls store = Some store' ∧
    store' !! PROGRESS_KEY =
    Some (stringify (JArr (map WorkoutSession_toJSON (reverse (Session.sessions_of calls))
                           ++ older))).
Proof.
  induction calls as [|[[now completed] workout] calls IH]; intros store older Hp Hs.
  - now exists store.
  - cbn [Session.complete_all Session.sessions_of map].
    rewrite (saveWorkoutSession_next _ _ _ _ (stringify (JArr older)) older);
      [|rewrite Hs; apply present_stringify | now apply parse_stringify].
    cbn [mbind option_bind].
    edestruct IH as (store' & Hrun & Hget);
      [apply plain_cons; [apply plain_WorkoutSession | exact Hp]
      |apply lookup_insert_eq|].
    exists store'. split; [exact Hrun|]. rewrite Hget.
    rewrite reverse_cons, map_app, <- app_assoc. reflexivity.
Qed.

Lemma complete_all_from_nothing (calls : list (Z * Z * Workout.t))
    (store : gmap string string) :
  present (store !! PROGRESS_KEY) = None → calls ≠ [] →
  ∃ store', Session.complete_all calls store = Some store' ∧
    store' !! PROGRESS_KEY =
    Some (stringify
            (JArr (map WorkoutSession_toJSON (reverse (Session.sessions_of calls))))).
Proof.
  intros Hs Hne. destruct calls as [|[[now completed] workout] calls]; [done|].
  cbn [Session.complete_all Session.sessions_of map].
  rewrite saveWorkoutSession_first by assumption. cbn [mbind option_bind].
  destruct (complete_all_onto calls
              (<[PROGRESS_KEY :=
                   stringify
                     (JArr [WorkoutSession_toJSON (newSession now completed workout)])]>
                 store)
              [WorkoutSession_toJSON (newSession now completed workout)])
    as (store' & Hrun & Hget);
    [apply plain_cons; [apply plain_WorkoutSession | reflexivity]
    |apply lookup_insert_eq|].
  exists store'. split; [exact Hrun|]. rewrite Hget.
  rewrite reverse_cons, map_app. reflexivity.
Qed.

Lemma completion_times_sessions_of (calls : list (Z * Z * Workout.t)) :
  Spec.completion_times (Session.sessions_of calls) = Session.completions calls.
Proof.
  induction calls as [|[[now completed] workout] calls IH]; [reflexivity|].
  simpl. f_equal. exact IH.
Qed.

Lemma sessions_of_timestamps (calls : list (Z * Z * Workout.t)) :
  Forall (λ t, - maxTime ≤ t ≤ maxTime) (Session.completions calls) →
  Forall (λ x, Spec.timestamp (WorkoutSession.completedAt x)) (Session.sessions_of calls).
Proof.
  induction calls as [|[[now completed] workout] calls IH]; intros H.
  - constructor.
  - inversion H; subst. constructor; [assumption | now apply IH].
Qed.

(** Sessions listed in the order of their completion, read backwards, run
    from the newest to the oldest. *)
Lemma newest_first_reverse (l : list WorkoutSession.t) :
  Spec.monotone (Spec.completion_times l) → Spec.newest_first (reverse l).
Proof.
  intros Hmono i j a b Hij Ha Hb.
  apply reverse_lookup_Some in Ha as [Ha Hi], Hb as [Hb Hj].
  eapply (Hmono (length l - S j)%nat (length l - S i)%nat); [lia | |].
  - unfold Spec.completion_times. change (@map) with (@fmap list _).
    now rewrite list_lookup_fmap, Hb.
  - unfold Spec.completion_times. change (@map) with (@fmap list _).
    now rewrite list_lookup_fmap, Ha.
Qed.

Lemma holds_history_complete_all (calls : list (Z * Z * Workout.t))
    (store : gmap string string) (old : list WorkoutSession.t) :
  Session.holds_history store old →
  ∃ store', Session.complete_all calls store = Some store' ∧
    Session.holds_history store' (reverse (Session.sessions_of calls) ++ old).
Proof.
  intros [Hs|[Hs ->]].
  - destruct (complete_all_onto calls store (map WorkoutSession_toJSON old))
      as (store' & Hrun & Hget);
      [apply plain_items, plain_WorkoutSession | exact Hs |].
    exists store'. split; [exact Hrun|]. left. now rewrite map_app.
  - rewrite app_nil_r. destruct calls as [|c calls].
    + exists store. split; [reflexivity|]. right. split; [exact Hs | reflexivity].
    + destruct (complete_all_from_nothing (c :: calls) store Hs) as (store' & Hrun & Hget);
        [discriminate|].
      exists store'. split; [exact Hrun|]. now left.
Qed.

Lemma loadSessions_holds_history (store : gmap string string)
    (history : list WorkoutSession.t) :
  Session.holds_history store history →
  Forall (λ x, Spec.timestamp (WorkoutSession.completedAt x)) history →
  ProgressList.loadSessions ProgressList.initial store
  = Some (ProgressList.mkState history false).
Proof.
  intros [Hs|[Hs ->]] Hvalid; unfold ProgressList.loadSessions, AsyncStorage.getItem;
    change ProgressList.PROGRESS_KEY with PROGRESS_KEY.
  - rewrite Hs, present_stringify.
    now rewrite (parse_and_restore_stringify _ _
                   (λ x, Spec.timestamp (WorkoutSession.completedAt x)))
      by (assumption || apply restore_WorkoutSession_toJSON
          || apply plain_WorkoutSession || reflexivity).
  - now rewrite Hs.
Qed.

(** *** Deleting and updating *)

Lemma filter_distinct_removes_one (i : string) (ws : list Workout.t) :
  NoDup (map Workout.id ws) → i ∈ map Workout.id ws →
  S (length (filter (λ w, Workout.id w ≠ i) ws)) = length ws.
Proof.
  intros Hnd Hin.
  pose proof (filter_distinct_length i ws Hnd) as Hle.
  change (@map) with (@fmap list _) in Hin.
  apply list_elem_of_fmap in Hin as (w & -> & Hw).
  pose proof (length_filter_lt (λ v, Workout.id v ≠ Workout.id w) ws w Hw) as Hlt.
  assert (length (filter (λ v, Workout.id v ≠ Workout.id w) ws) < length ws)%nat
    by (apply Hlt; intros H; now apply H).
  lia.
Qed.

Lemma filter_all {A : Type} (P : A → Prop) `{∀ x, Decision (P x)} (l : list A) :
  (∀ x, x ∈ l → P x) → filter P l = l.
Proof.
  induction l as [|x l IH]; intros Hall; [reflexivity|].
  rewrite filter_cons. destruct (decide (P x)) as [_|Hx].
  - f_equal. apply IH. intros y Hy. apply Hall. now apply list_elem_of_further.
  - contradiction Hx. apply Hall. apply list_elem_of_here.
Qed.

Lemma find_map_stable {A : Type} (p : A → bool) (f : A → A) (l : list A) :
  (∀ x, p (f x) = p x) → find p (map f l) = f <$> find p l.
Proof.
  intros H. induction l as [|x l IH]; [reflexivity|].
  simpl. rewrite H. destruct (p x); [reflexivity | exact IH].
Qed.

(** *** The collection over a session *)

Lemma NoDup_ids_filter (i : string) (ws : list Workout.t) :
  NoDup (map Workout.id ws) →
  NoDup (map Workout.id (filter (λ w, Workout.id w ≠ i) ws)).
Proof.
  intros H. change (@map) with (@fmap list _) in *.
  eapply sublist_NoDup; [exact H|]. apply fmap_sublist, sublist_filter.
Qed.

Lemma consistent_saved (st : State) (store : gmap string string)
    (ws : list Workout.t) :
  ws ≠ [] → NoDup (map Workout.id ws) →
  Forall (λ w, Spec.timestamp (Workout.createdAt w)) ws →
  Session.consistent (setWorkouts ws st) (saveWorkouts ws store).
Proof.
  intros Hne Hnd Hts. repeat split; try assumption.
  unfold saveWorkouts, AsyncStorage.setItem. apply lookup_insert_eq.
Qed.

Lemma consistent_selected (st : State) (store : gmap string string) (i : string) :
  Session.consistent st store →
  Session.consistent (setSelectedWorkoutId i st) (saveSelectedWorkout i store).
Proof.
  intros (Hs & Hrest). split; [|exact Hrest].
  destruct keys_distinct as (_ & _ & Hk).
  rewrite saveSelectedWorkout_other by assumption. exact Hs.
Qed.

(** Every action keeps a collection that is not empty, as long as the
    creations take readings that are new. *)
Lemma step_keeps_consistent (a : Session.Action) (st : State)
    (store : gmap string string) :
  Session.consistent st store → Session.fresh a st →
  ∃ st' store', Session.step a st store = Some (st', store') ∧
                Session.consistent st' store'.
Proof.
  intros Hc Hfresh. pose proof Hc as (Hs & Hne & Hnd & Hts).
  destruct a as [l1 l2|name| | |now created|i confirmed|i|exs]; simpl.
  - unfold loadWorkouts, AsyncStorage.getItem.
    rewrite Hs, present_stringify.
    rewrite (parse_and_restore_stringify _ _
               (λ w, Spec.timestamp (Workout.createdAt w)))
      by (assumption || apply restore_Workout_toJSON
          || apply plain_Workout || reflexivity).
    eexists _, _. split; [reflexivity|]. exact Hc.
  - eexists _, _. split; [reflexivity|]. exact Hc.
  - eexists _, _. split; [reflexivity|]. exact Hc.
  - eexists _, _. split; [reflexivity|]. exact Hc.
  - unfold createNewWorkout. destruct (negb _).
    + eexists _, _. split; [reflexivity|]. exact Hc.
    + eexists _, _. split; [reflexivity|].
      destruct Hfresh as [Hnew Hcreated].
      apply (consistent_selected
               (setWorkouts _ st) (saveWorkouts _ store)).
      apply consistent_saved.
      * intros E. now apply app_eq_nil in E as [_ E].
      * rewrite map_app. apply NoDup_app. split; [assumption|]. split.
        -- intros x Hx Hin. simpl in Hin. apply elem_of_cons in Hin as [->|Hin];
             [contradiction | now apply elem_of_nil in Hin].
        -- apply NoDup_singleton.
      * apply Forall_app. split; [assumption|]. now repeat constructor.
  - unfold deleteWorkout. destruct (Nat.leb_spec (length (workouts st)) 1) as [|Hlen].
    + eexists _, _. split; [reflexivity|]. exact Hc.
    + destruct confirmed; [|eexists _, _; split; [reflexivity | exact Hc]].
      eexists _, _. split; [f_equal; apply surjective_pairing|].
      pose proof (deleteWorkout_onPress_keeps_one st i store Hnd Hlen) as Hkeep.
      unfold deleteWorkout_onPress in *. cbn [fst snd] in *.
      set (ws := filter (λ w, Workout.id w ≠ i) (workouts st)) in *.
      assert (ws ≠ []) as Hws
        by (destruct (decide (selectedWorkoutId st = i)); exact Hkeep).
      assert (Session.consistent (setWorkouts ws st) (saveWorkouts ws store)) as Hc'.
      { apply consistent_saved; [exact Hws | now apply NoDup_ids_filter |].
        subst ws. apply Forall_forall. intros w Hw.
        apply list_elem_of_filter in Hw as [_ Hw].
        rewrite Forall_forall in Hts. now apply Hts. }
      destruct (decide (selectedWorkoutId st = i)).
      * destruct (decide (first_id ws ≠ selectedWorkoutId st)).
        -- now apply consistent_selected.
        -- destruct Hc' as (? & ? & ? & ?). repeat split; assumption.
      * destruct (decide (selectedWorkoutId st ≠ selectedWorkoutId st)) as [E|_];
          [contradiction E; reflexivity | exact Hc'].
  - eexists _, _. split; [reflexivity|]. now apply consistent_selected.
  - eexists _, _. split; [reflexivity|]. unfold updateWorkoutExercises.
    apply consistent_saved.
    + intros E. apply Hne. now apply map_eq_nil in E.
    + rewrite map_map. erewrite map_ext; [exact Hnd|].
      intros w. now destruct (decide _).
    + apply Forall_forall. intros w Hw.
      change (@map) with (@fmap list _) in Hw.
      apply list_elem_of_fmap in Hw as (v & -> & Hv).
      rewrite Forall_forall in Hts.
      destruct (decide _); cbn [Workout.createdAt]; now apply (Hts v).
Qed.

(** The first mount, on a store without a collection, seeds one. *)
Lemma first_mount_consistent (loaded1 loaded2 : Z) (st : State)
    (store : gmap string string) :
  store !! STORAGE_KEY = None →
  - maxTime ≤ loaded1 ≤ maxTime → - maxTime ≤ loaded2 ≤ maxTime →
  ∃ st' store', Session.step (Session.Mount loaded1 loaded2) st store = Some (st', store') ∧
                Session.consistent st' store'.
Proof.
  intros Habsent H1 H2. simpl. unfold loadWorkouts, AsyncStorage.getItem.
  rewrite Habsent. cbn [present].
  eexists _, _. split; [reflexivity|].
  destruct (consistent_saved initial store (DEFAULT_WORKOUTS loaded1 loaded2))
    as (Hs & Hne & Hnd & Hts).
  - discriminate.
  - apply (bool_decide_unpack _). reflexivity.
  - constructor; [exact H1|]. constructor; [exact H2|]. constructor.
  - repeat split; assumption.
Qed.

Lemma run_keeps_consistent (actions : list Session.Action) :
  ∀ (st : State) (store : gmap string string),
  Session.consistent st store → Session.all_fresh actions st store →
  ∃ st' store', Session.run actions st store = Some (st', store') ∧
                Session.consistent st' store'.
Proof.
  induction actions as [|a actions IH]; intros st store Hc Hf.
  - now exists st, store.
  - destruct Hf as [Ha Hrest].
    destruct (step_keeps_consistent a st store Hc Ha) as (st1 & store1 & Hstep & Hc1).
    simpl. rewrite Hstep in *. now apply IH.
Qed.

End ManagerFacts.

(** * Facts about the exercise list *)

Module ExerciseFacts.
Import JS ExerciseList.

(** [add] appends one exercise with the default field values, hands the
    new sequence to [onUpdateExercises] and marks the new id; the id is
    the decimal text of the clock reading. *)
Lemma addNewExercise_appends (now : Z) (st : State) :
  let '(st', sent) := addNewExercise now st in
  let added := Exercise.mk (Number_toString now) "New Exercise" 3 10 0 in
  exercises st' = exercises st ++ [added] ∧
  length (exercises st') = S (length (exercises st)) ∧
  sent = exercises st' ∧
  newlyAddedId st' = Some (Exercise.id added) ∧
  isEditing st' added = true ∧
  (∀ e, e ∈ exercises st → Exercise.id e ≠ Exercise.id added → isEditing st' e = false).
Proof.
  unfold addNewExercise. cbn [exercises newlyAddedId]. repeat split.
  - rewrite length_app. simpl. lia.
  - unfold isEditing. cbn [newlyAddedId]. now apply bool_decide_eq_true.
  - intros e _ Hne. unfold isEditing. cbn [newlyAddedId Exercise.id] in *.
    apply bool_decide_eq_false. congruence.
Qed.

(** The id is new to the sequence exactly when no exercise of the sequence
    was given the text of the same reading. *)
Lemma addNewExercise_fresh (now : Z) (st : State) :
  Number_toString now ∉ map Exercise.id (exercises st) →
  NoDup (map Exercise.id (exercises st)) →
  NoDup (map Exercise.id (exercises (addNewExercise now st).1)).
Proof.
  intros Hfresh Hnd. unfold addNewExercise. cbn [fst exercises].
  rewrite map_app. apply NoDup_app. split; [assumption|]. split.
  - intros i Hi Hin. simpl in Hin. apply elem_of_cons in Hin as [->|Hin].
    + contradiction.
    + now apply elem_of_nil in Hin.
  - simpl. apply NoDup_singleton.
Qed.

End ExerciseFacts.

(** * Facts about the number inputs *)

Module InputFacts.
Import JS JSFacts.

Lemma digit_char_not_white (d : N) : (d < 10)%N → is_white_space (digit_char d) = false.
Proof.
  intros H. unfold is_white_space, digit_char. rewrite code_chr by lia.
  destruct (N.leb_spec 9 (48 + d)), (N.leb_spec (48 + d) 13),
    (N.eqb_spec (48 + d) 32), (N.eqb_spec (48 + d) 160); try reflexivity; lia.
Qed.

Lemma digit_char_not_sign (d : N) (rest : string) : (d < 10)%N →
  strip_sign (String (digit_char d) rest) = (false, String (digit_char d) rest).
Proof.
  intros H. unfold strip_sign.
  destruct (Ascii.eqb_spec (digit_char d) minus_sign) as [E|_].
  { apply (f_equal code) in E. unfold digit_char in E. rewrite code_chr in E by lia.
    change (code minus_sign) with 45%N in E. lia. }
  destruct (Ascii.eqb_spec (digit_char d) plus_sign) as [E|_]; [|reflexivity].
  apply (f_equal code) in E. unfold digit_char in E. rewrite code_chr in E by lia.
  change (code plus_sign) with 43%N in E. lia.
Qed.

Lemma digit_char_not_zero (d : N) : (0 < d < 10)%N → Ascii.eqb (digit_char d) "0" = false.
Proof.
  intros H. destruct (Ascii.eqb_spec (digit_char d) "0") as [E|_]; [|reflexivity].
  apply (f_equal code) in E. unfold digit_char in E. rewrite code_chr in E by lia.
  change (code "0") with 48%N in E. lia.
Qed.

(** The digits read in front of a printed number that is followed by no digit. *)
Lemma magnitude_N_to_string (m : N) (tail : string) :
  no_digit_ahead tail →
  (m = 0%N → match tail with String c _ => is_x c = false | EmptyString => True end) →
  match N_to_string m +:+ tail with
  | String z (String x s') =>
      if Ascii.eqb z "0" && is_x x then leading_hex s'
      else leading_decimal (N_to_string m +:+ tail)
  | _ => leading_decimal (N_to_string m +:+ tail)
  end = Some m.
Proof.
  intros Htail Hx.
  assert (leading_decimal (N_to_string m +:+ tail) = Some m) as Hdec.
  { unfold leading_decimal. destruct (N.eq_dec m 0%N) as [->|Hm].
    - change (N_to_string 0) with "0"%string. rewrite append_cons, append_nil_l.
      change (digit_value "0") with (Some 0%N). cbv iota.
      now rewrite (read_digits_stop 0%N tail).
    - destruct (N_to_string_read m) as (d0 & s1 & Hs & Hd0 & Hd10 & Hread); [lia|].
      rewrite Hs, append_cons, digit_value_char, Hread by assumption.
      now rewrite read_digits_stop. }
  destruct (N.eq_dec m 0%N) as [->|Hm].
  - specialize (Hx eq_refl). change (N_to_string 0) with "0"%string in *.
    rewrite append_cons, append_nil_l in *.
    destruct tail as [|x s']; [exact Hdec|]. rewrite Hx, andb_false_r. exact Hdec.
  - destruct (N_to_string_read m) as (d0 & s1 & Hs & Hd0 & Hd10 & _); [lia|].
    rewrite Hs, append_cons in *.
    destruct (s1 +:+ tail) as [|x s']; [exact Hdec|].
    rewrite digit_char_not_zero by lia. exact Hdec.
Qed.

Lemma parseInt_Number_toString (n : Z) (tail : string) :
  - Z.of_N maxSafe ≤ n ≤ Z.of_N maxSafe →
  no_digit_ahead tail →
  (n = 0 → match tail with String c _ => is_x c = false | EmptyString => True end) →
  parseInt (Number_toString n +:+ tail) = Integer n.
Proof.
  intros Hn Htail Hx. unfold parseInt, Number_toString.
  destruct (Z.ltb_spec n 0) as [Hneg|Hpos].
  - rewrite append_cons. cbn [trimStart].
    change (is_white_space (chr 45)) with false. cbv iota.
    change (strip_sign (String (chr 45) ?s)) with (true, s). cbv beta iota zeta.
    rewrite magnitude_N_to_string by (assumption || lia).
    destruct (N.leb_spec (Z.abs_N n) maxSafe); [f_equal; lia | lia].
  - destruct (N_to_string_head (Z.to_N n)) as (d & s1 & Hs & Hd).
    pose proof (magnitude_N_to_string (Z.to_N n) tail Htail) as Hm.
    rewrite Hs in *. rewrite append_cons in *. cbn [trimStart].
    rewrite digit_char_not_white, digit_char_not_sign by assumption.
    cbv beta iota zeta. rewrite Hm by (intros E; apply Hx; lia).
    destruct (N.leb_spec (Z.to_N n) maxSafe); [f_equal; lia | lia].
Qed.

Lemma parseInt_no_digit (text : string) :
  no_digit_ahead (strip_sign (trimStart text)).2 → parseInt text = NotANumber.
Proof.
  unfold parseInt. destruct (strip_sign (trimStart text)) as [negative s].
  cbn [snd]. intros Hs.
  assert (leading_decimal s = None) as Hdec.
  { destruct s as [|c s]; [reflexivity|]. simpl in Hs. unfold is_digit in Hs.
    unfold leading_decimal. destruct (digit_value c); [discriminate | reflexivity]. }
  destruct s as [|z [|x s']]; try now rewrite Hdec.
  destruct (Ascii.eqb_spec z "0") as [->|_]; [discriminate Hs|].
  cbn [andb]. now rewrite Hdec.
Qed.

(** *** The weight input *)

Lemma digit_char_not_Infinity (d : N) (s : string) : (d < 10)%N →
  starts_with "Infinity" (String (digit_char d) s) = false.
Proof.
  intros H. pose proof (digit_char_cases d H) as Hc. simpl in Hc.
  repeat (destruct Hc as [<-|Hc]; [reflexivity|]). destruct Hc.
Qed.

Lemma read_digits_N_to_string (m : N) (tail : string) :
  no_digit_ahead tail →
  ∃ d s1, N_to_string m = String (digit_char d) s1 ∧ (d < 10)%N ∧
          read_digits d (s1 +:+ tail) = (m, tail).
Proof.
  intros Htail. destruct (N.eq_dec m 0%N) as [->|Hm].
  - exists 0%N, EmptyString. split; [reflexivity|]. split; [lia|].
    rewrite append_nil_l. now apply read_digits_stop.
  - destruct (N_to_string_read m) as (d0 & s1 & Hs & _ & Hd & Hread); [lia|].
    exists d0, s1. split; [exact Hs|]. split; [exact Hd|].
    rewrite Hread. now apply read_digits_stop.
Qed.

(** [parseFloat] reads the decimal text of an integer up to 2^53 as that
    integer, whatever follows it that is no digit, point or exponent
    mark. *)
Lemma parseFloat_Number_toString (n : Z) (tail : string) :
  - Z.of_N maxSafe ≤ n ≤ Z.of_N maxSafe →
  number_ends tail →
  parseFloat (Number_toString n +:+ tail) = Integer n.
Proof.
  intros Hn Htail.
  assert (no_digit_ahead tail) as Hnd
    by (destruct tail; [exact I | exact (proj1 Htail)]).
  unfold parseFloat, Number_toString.
  destruct (Z.ltb_spec n 0) as [Hneg|Hpos].
  - rewrite append_cons. cbn [trimStart].
    change (is_white_space (chr 45)) with false. cbv iota.
    change (strip_sign (String (chr 45) ?s)) with (true, s). cbv beta iota zeta.
    destruct (read_digits_N_to_string (Z.abs_N n) tail Hnd) as (d & s1 & Hs & Hd & Hread).
    rewrite Hs, append_cons, digit_char_not_Infinity, digit_value_char, Hread by assumption.
    cbv beta iota zeta.
    assert ((Z.abs_N n <=? maxSafe)%N = true) as -> by (apply N.leb_le; lia).
    replace (- Z.of_N (Z.abs_N n)) with n by lia.
    destruct tail as [|c' tail]; [reflexivity|]. now rewrite (proj2 Htail).
  - destruct (read_digits_N_to_string (Z.to_N n) tail Hnd) as (d & s1 & Hs & Hd & Hread).
    rewrite Hs, append_cons. cbn [trimStart].
    rewrite digit_char_not_white, digit_char_not_sign by assumption.
    cbv beta iota zeta.
    rewrite digit_char_not_Infinity, digit_value_char, Hread by assumption.
    cbv beta iota zeta.
    assert ((Z.to_N n <=? maxSafe)%N = true) as -> by (apply N.leb_le; lia).
    replace (Z.of_N (Z.to_N n)) with n by lia.
    destruct tail as [|c' tail]; [reflexivity|]. now rewrite (proj2 Htail).
Qed.

Lemma parseFloat_or_zero_Number_toString (n : Z) :
  - Z.of_N maxSafe ≤ n ≤ Z.of_N maxSafe →
  parseFloat_or_zero (Number_toString n) = Some n.
Proof.
  intros Hn. unfold parseFloat_or_zero.
  rewrite <- (append_nil_r (Number_toString n)).
  now rewrite parseFloat_Number_toString.
Qed.

End InputFacts.

(** * Facts about sequences of records with an id *)

Module KeyedFacts.

Section Keyed.

Context {A : Type} (key : A → string).

Lemma replace_keeps_keys (u : A) (l : list A) :
  map key (map (λ x, if decide (key x = key u) then u else x) l) = map key l.
Proof.
  rewrite map_map. apply map_ext. intros x. now destruct (decide _).
Qed.

Lemma replace_absent (u : A) (l : list A) :
  key u ∉ map key l →
  map (λ x, if decide (key x = key u) then u else x) l = l.
Proof.
  induction l as [|x l IH]; intros Hn; [reflexivity|].
  simpl in *. apply not_elem_of_cons in Hn as [Hx Hl].
  destruct (decide (key x = key u)); [congruence|]. f_equal. now apply IH.
Qed.

Lemma replace_at (u e : A) (l : list A) (i : nat) :
  NoDup (map key l) → l !! i = Some e → key e = key u →
  map (λ x, if decide (key x = key u) then u else x) l = <[i := u]> l.
Proof.
  revert i. induction l as [|x l IH]; intros i Hnd Hi He; [discriminate|].
  simpl in Hnd. apply NoDup_cons in Hnd as [Hx Hnd].
  destruct i as [|i]; simpl in *.
  - injection Hi as ->. destruct (decide (key e = key u)); [|contradiction].
    f_equal. apply replace_absent. now rewrite <- He.
  - destruct (decide (key x = key u)) as [E|_].
    + exfalso. apply Hx. rewrite E, <- He.
      change (@map) with (@fmap list _). apply list_elem_of_fmap.
      exists e. split; [reflexivity|]. now apply list_elem_of_lookup_2 in Hi.
    + f_equal. now apply IH.
Qed.

Lemma filter_absent (k : string) (l : list A) :
  k ∉ map key l → filter (λ x, key x ≠ k) l = l.
Proof.
  induction l as [|x l IH]; intros Hn; [reflexivity|].
  simpl in Hn. apply not_elem_of_cons in Hn as [Hx Hl].
  rewrite filter_cons. destruct (decide (key x ≠ k)) as [_|E].
  - f_equal. now apply IH.
  - contradiction E. congruence.
Qed.

Lemma filter_at (e : A) (l : list A) (i : nat) :
  NoDup (map key l) → l !! i = Some e →
  filter (λ x, key x ≠ key e) l = delete i l.
Proof.
  revert i. induction l as [|x l IH]; intros i Hnd Hi; [discriminate|].
  simpl in Hnd. apply NoDup_cons in Hnd as [Hx Hnd].
  rewrite filter_cons. destruct i as [|i]; simpl in *.
  - injection Hi as ->. destruct (decide (key e ≠ key e)) as [E|_]; [contradiction|].
    now apply filter_absent.
  - destruct (decide (key x ≠ key e)) as [_|E].
    + f_equal. now apply IH.
    + exfalso. apply dec_stable in E. apply Hx. rewrite E.
      change (@map) with (@fmap list _). apply list_elem_of_fmap.
      exists e. split; [reflexivity|]. now apply list_elem_of_lookup_2 in Hi.
Qed.

Lemma filter_appended (n : A) (l : list A) :
  key n ∉ map key l → filter (λ x, key x ≠ key n) (l ++ [n]) = l.
Proof.
  intros Hn. rewrite filter_app, filter_absent by assumption.
  rewrite filter_cons. destruct (decide (key n ≠ key n)) as [E|_]; [contradiction|].
  rewrite filter_nil. apply app_nil_r.
Qed.

Lemma filter_none_left (k : string) (l : list A) :
  k ∉ map key (filter (λ x, key x ≠ k) l).
Proof.
  change (@map) with (@fmap list _). intros H.
  apply list_elem_of_fmap in H as (x & -> & Hx).
  apply list_elem_of_filter in Hx as [Hx _]. now apply Hx.
Qed.

End Keyed.

End KeyedFacts.

(** * The workout screen over a session *)

Module SessionFacts.
Import JS JSFacts Codec CodecFacts WorkoutManager ManagerFacts Session.

Lemma loadWorkouts_Got (loaded1 loaded2 : Z) (st0 : State) (store : gmap string string)
    (text : string) (ws : list Workout.t) :
  present (store !! STORAGE_KEY) = Some text →
  parse_and_restore restore_Workout text = Got ws →
  loadWorkouts loaded1 loaded2 st0 store
  = Some (mkState ws (restored_selection ws store) (showCreateModal st0)
            (newWorkoutName st0) false, store).
Proof.
  intros Ht Hp. unfold loadWorkouts, restored_selection, AsyncStorage.getItem.
  rewrite Ht, Hp. reflexivity.
Qed.

Lemma loadWorkouts_consistent (loaded1 loaded2 : Z) (st st0 : State)
    (store : gmap string string) :
  consistent st store →
  loadWorkouts loaded1 loaded2 st0 store
  = Some (mkState (workouts st) (restored_selection (workouts st) store)
            (showCreateModal st0) (newWorkoutName st0) false, store).
Proof.
  intros (Hs & _ & _ & Hts).
  apply (loadWorkouts_Got _ _ _ _
           (stringify (JArr (map Workout_toJSON (workouts st))))).
  - rewrite Hs. apply present_stringify.
  - apply (parse_and_restore_stringify _ _
             (λ w, Spec.timestamp (Workout.createdAt w)));
      [apply restore_Workout_toJSON | reflexivity | apply plain_Workout | assumption].
Qed.

Lemma restores_iff (st : State) (store : gmap string string) :
  consistent st store →
  restores st store ↔ restored_selection (workouts st) store = selectedWorkoutId st.
Proof.
  intros Hc. unfold restores. split.
  - intros H. specialize (H 0 0 st).
    rewrite (loadWorkouts_consistent _ _ st) in H by assumption. congruence.
  - intros H l1 l2 st0.
    rewrite (loadWorkouts_consistent _ _ st) by assumption. now rewrite H.
Qed.

Lemma find_workout_listed (i : string) (ws : list Workout.t) :
  i ∈ map Workout.id ws → ∃ w, find_workout i ws = Some w ∧ Workout.id w = i.
Proof.
  induction ws as [|w ws IH]; intros Hin; simpl in Hin.
  - now apply elem_of_nil in Hin.
  - unfold find_workout. simpl.
    destruct (bool_decide_reflect (Workout.id w = i)) as [E|E].
    + now exists w.
    + apply elem_of_cons in Hin as [->|Hin]; [contradiction E; reflexivity|].
      now apply IH.
Qed.

Lemma find_workout_unlisted (i : string) (ws : list Workout.t) :
  i ∉ map Workout.id ws → find_workout i ws = None.
Proof.
  intros Hn. unfold find_workout.
  destruct (find _ ws) as [w|] eqn:E; [|reflexivity].
  apply find_some in E as [Hin Hid]. apply bool_decide_eq_true in Hid.
  contradiction Hn. change (@map) with (@fmap list _). apply list_elem_of_fmap.
  exists w. split; [now symmetry | now apply list_elem_of_In].
Qed.

Lemma find_workout_id (i : string) (ws : list Workout.t) (w : Workout.t) :
  find_workout i ws = Some w → Workout.id w = i ∧ w ∈ ws.
Proof.
  intros E. apply find_some in E as [Hin Hid]. apply bool_decide_eq_true in Hid.
  split; [assumption | now apply list_elem_of_In].
Qed.

Lemma first_id_listed (ws : list Workout.t) :
  ws ≠ [] → first_id ws ∈ map Workout.id ws.
Proof.
  destruct ws as [|w ws]; [done|]. intros _. rewrite first_id_cons. simpl.
  apply list_elem_of_here.
Qed.

Lemma restored_selection_listed (ws : list Workout.t) (store : gmap string string) :
  ws ≠ [] → restored_selection ws store ∈ map Workout.id ws.
Proof.
  intros Hne. unfold restored_selection.
  destruct (present _) as [i|]; [|now apply first_id_listed].
  destruct (find_workout i ws) as [w|] eqn:E; [|now apply first_id_listed].
  apply find_workout_id in E as [<- Hw].
  change (@map) with (@fmap list _). apply list_elem_of_fmap. now exists w.
Qed.

Lemma restored_selection_saved (ws ws' : list Workout.t) (store : gmap string string) :
  restored_selection ws (saveWorkouts ws' store) = restored_selection ws store.
Proof.
  unfold restored_selection, AsyncStorage.getItem.
  rewrite saveWorkouts_other; [reflexivity|].
  intros E. now apply keys_distinct.
Qed.

Lemma restored_selection_selected (ws : list Workout.t) (store : gmap string string)
    (i : string) :
  i ≠ EmptyString → i ∈ map Workout.id ws →
  restored_selection ws (saveSelectedWorkout i store) = i.
Proof.
  intros Hi Hin. unfold restored_selection, AsyncStorage.getItem, saveSelectedWorkout,
    AsyncStorage.setItem.
  rewrite lookup_insert_eq. unfold present.
  destruct i as [|c i]; [contradiction|]. cbn [truthy].
  destruct (find_workout_listed _ _ Hin) as (w & -> & _). reflexivity.
Qed.

Lemma restored_selection_ids (ws ws' : list Workout.t) (store : gmap string string) :
  map Workout.id ws' = map Workout.id ws →
  restored_selection ws' store = restored_selection ws store.
Proof.
  intros Hids. unfold restored_selection.
  assert (first_id ws' = first_id ws) as ->.
  { destruct ws as [|w ws], ws' as [|w' ws']; try discriminate; [reflexivity|].
    rewrite !first_id_cons. now injection Hids. }
  destruct (present _) as [i|]; [|reflexivity].
  destruct (decide (i ∈ map Workout.id ws)) as [Hin|Hn].
  - destruct (find_workout_listed _ _ Hin) as (w & -> & _).
    rewrite <- Hids in Hin.
    destruct (find_workout_listed _ _ Hin) as (w' & -> & _). reflexivity.
  - rewrite (find_workout_unlisted i ws) by assumption.
    rewrite <- Hids in Hn. now rewrite (find_workout_unlisted i ws').
Qed.

Lemma filter_ids (d : string) (ws : list Workout.t) (i : string) :
  i ∈ map Workout.id (filter (λ w, Workout.id w ≠ d) ws)
  ↔ i ∈ map Workout.id ws ∧ i ≠ d.
Proof.
  change (@map) with (@fmap list _). rewrite !list_elem_of_fmap. split.
  - intros (w & -> & Hw). apply list_elem_of_filter in Hw as [Hd Hw].
    split; [now exists w | assumption].
  - intros [(w & -> & Hw) Hd]. exists w. split; [reflexivity|].
    now apply list_elem_of_filter.
Qed.

Lemma first_id_filter (d : string) (ws : list Workout.t) :
  first_id ws ≠ d → first_id (filter (λ w, Workout.id w ≠ d) ws) = first_id ws.
Proof.
  destruct ws as [|w ws]; [reflexivity|]. rewrite first_id_cons. intros Hd.
  rewrite filter_cons. destruct (decide (Workout.id w ≠ d)); [|contradiction].
  now rewrite first_id_cons.
Qed.

(** A deletion of another workout leaves the restored selection alone. *)
Lemma restored_selection_filter (d : string) (ws : list Workout.t)
    (store : gmap string string) :
  restored_selection ws store ≠ d →
  restored_selection (filter (λ w, Workout.id w ≠ d) ws) store
  = restored_selection ws store.
Proof.
  unfold restored_selection.
  destruct (present _) as [i|]; [|apply first_id_filter].
  destruct (decide (i ∈ map Workout.id ws)) as [Hin|Hn].
  - destruct (find_workout_listed _ _ Hin) as (w & -> & _). intros Hd.
    assert (i ∈ map Workout.id (filter (λ w, Workout.id w ≠ d) ws)) as Hin'
      by now apply filter_ids.
    destruct (find_workout_listed _ _ Hin') as (w' & -> & _). reflexivity.
  - rewrite (find_workout_unlisted i ws) by assumption. intros Hd.
    rewrite find_workout_unlisted; [now apply first_id_filter|].
    intros Hin. apply filter_ids in Hin as [Hin _]. contradiction.
Qed.

Lemma Number_toString_truthy (n : Z) : Number_toString n ≠ EmptyString.
Proof.
  unfold Number_toString. destruct (n <? 0); [discriminate|].
  destruct (N_to_string_head (Z.to_N n)) as (d & s1 & -> & _). discriminate.
Qed.

Lemma sound_intro (st : State) (store : gmap string string) :
  consistent st store →
  EmptyString ∉ map Workout.id (workouts st) →
  restored_selection (workouts st) store = selectedWorkoutId st →
  sound st store.
Proof.
  intros Hc He Hr. split; [assumption|]. split; [assumption|]. split.
  - rewrite <- Hr. apply restored_selection_listed. apply Hc.
  - now apply restores_iff.
Qed.

Lemma step_keeps_sound (a : Action) (st : State) (store : gmap string string) :
  sound st store → fresh a st → offered a st →
  ∃ st' store', step a st store = Some (st', store') ∧ sound st' store'.
Proof.
  intros (Hc & He & Hsel & Hr) Hfresh Hoff.
  apply restores_iff in Hr; [|assumption].
  destruct (step_keeps_consistent a st store Hc Hfresh) as (st' & store' & Hstep & Hc').
  exists st', store'. split; [assumption|].
  destruct a as [l1 l2|name| | |now created|d confirmed|i|exs]; simpl in Hstep.
  - rewrite (loadWorkouts_consistent _ _ st) in Hstep by assumption.
    injection Hstep as <- <-. now apply sound_intro.
  - injection Hstep as <- <-. now apply sound_intro.
  - injection Hstep as <- <-. now apply sound_intro.
  - injection Hstep as <- <-. now apply sound_intro.
  - unfold createNewWorkout in Hstep. destruct (negb _).
    + injection Hstep as <- <-. now apply sound_intro.
    + injection Hstep as <- <-. apply sound_intro; [assumption| |].
      * cbn [workouts setWorkouts setSelectedWorkoutId setNewWorkoutName
             setShowCreateModal]. rewrite map_app. intros Hin.
        apply elem_of_app in Hin as [Hin|Hin]; [contradiction|].
        simpl in Hin. apply elem_of_cons in Hin as [Hin|Hin];
          [symmetry in Hin; now apply Number_toString_truthy in Hin
          | now apply elem_of_nil in Hin].
      * cbn [workouts selectedWorkoutId setWorkouts setSelectedWorkoutId
             setNewWorkoutName setShowCreateModal Workout.id].
        apply restored_selection_selected; [apply Number_toString_truthy|].
        rewrite map_app. apply elem_of_app. right. simpl. apply list_elem_of_here.
  - unfold deleteWorkout in Hstep.
    destruct (Nat.leb_spec (length (workouts st)) 1) as [|Hlen].
    { injection Hstep as <- <-. now apply sound_intro. }
    destruct confirmed; [|injection Hstep as <- <-; now apply sound_intro].
    unfold deleteWorkout_onPress in Hstep. injection Hstep as <- <-.
    set (ws' := filter (λ w, Workout.id w ≠ d) (workouts st)) in *.
    assert (EmptyString ∉ map Workout.id ws')
      as He' by (intros Hin; apply filter_ids in Hin as [Hin _]; contradiction).
    assert (ws' ≠ []) as Hne.
    { destruct Hc' as (_ & Hne & _). revert Hne.
      now destruct (decide (selectedWorkoutId st = d)). }
    pose proof (first_id_listed ws' Hne) as Hfirst.
    destruct (decide (selectedWorkoutId st = d)) as [Hd|Hd].
    + destruct (decide (first_id ws' ≠ selectedWorkoutId st)) as [Hchg|Hsame].
      * apply sound_intro; [assumption | assumption |].
        cbn [workouts selectedWorkoutId setSelectedWorkoutId setWorkouts].
        apply restored_selection_selected; [|assumption].
        intros E. apply He'. now rewrite <- E.
      * exfalso. apply dec_stable in Hsame. rewrite Hsame, Hd in Hfirst.
        apply filter_ids in Hfirst as [_ Hfirst]. now apply Hfirst.
    + destruct (decide (selectedWorkoutId st ≠ selectedWorkoutId st)) as [E|_];
        [contradiction E; reflexivity|].
      apply sound_intro; [assumption | assumption |].
      cbn [workouts selectedWorkoutId setWorkouts].
      rewrite restored_selection_saved. subst ws'.
      rewrite restored_selection_filter; [assumption | now rewrite Hr].
  - injection Hstep as <- <-. unfold selectWorkout in *. simpl in Hoff.
    apply sound_intro; [assumption | assumption |].
    cbn [workouts selectedWorkoutId setSelectedWorkoutId].
    apply restored_selection_selected; [|assumption].
    intros E. apply He. now rewrite <- E.
  - injection Hstep as <- <-.
    assert (map Workout.id
              (map (λ workout,
                      if decide (Workout.id workout = selectedWorkoutId st)
                      then Workout.mk (Workout.id workout) (Workout.name workout) exs
                             (Workout.createdAt workout)
                      else workout) (workouts st))
            = map Workout.id (workouts st)) as Hids.
    { rewrite map_map. apply map_ext. intros w. now destruct (decide _). }
    apply sound_intro; [assumption | |];
      cbn [workouts selectedWorkoutId setWorkouts].
    + now rewrite Hids.
    + rewrite restored_selection_saved.
      now rewrite (restored_selection_ids (workouts st)).
Qed.

Lemma run_keeps_sound (actions : list Action) :
  ∀ (st : State) (store : gmap string string),
  sound st store → all_fresh actions st store → all_offered actions st store →
  ∃ st' store', run actions st store = Some (st', store') ∧ sound st' store'.
Proof.
  induction actions as [|a actions IH]; intros st store Hs Hf Ho.
  - now exists st, store.
  - destruct Hf as [Ha Hf], Ho as [Hb Ho].
    destruct (step_keeps_sound a st store Hs Ha Hb) as (st1 & store1 & Hstep & Hs1).
    simpl. rewrite Hstep in *. now apply IH.
Qed.

(** The first mount on a store that holds neither a collection nor a
    selection. *)
Lemma first_mount_sound (loaded1 loaded2 : Z) (st : State)
    (store : gmap string string) :
  store !! STORAGE_KEY = None → store !! SELECTED_WORKOUT_KEY = None →
  - maxTime ≤ loaded1 ≤ maxTime → - maxTime ≤ loaded2 ≤ maxTime →
  ∃ st' store', step (Mount loaded1 loaded2) st store = Some (st', store') ∧
                sound st' store'.
Proof.
  intros Habsent Hnosel H1 H2.
  destruct (first_mount_consistent loaded1 loaded2 st store Habsent H1 H2)
    as (st' & store' & Hstep & Hc).
  exists st', store'. split; [assumption|].
  simpl in Hstep. unfold loadWorkouts, AsyncStorage.getItem in Hstep.
  rewrite Habsent in Hstep. cbn [present] in Hstep. injection Hstep as <- <-.
  apply sound_intro; [assumption | |].
  - cbn [workouts setWorkouts setSelectedWorkoutId setIsLoading].
    apply (bool_decide_unpack _). reflexivity.
  - cbn [workouts selectedWorkoutId setWorkouts setSelectedWorkoutId setIsLoading].
    rewrite restored_selection_saved. unfold restored_selection, AsyncStorage.getItem.
    now rewrite Hnosel.
Qed.

Lemma find_workout_appended (i : string) (ws : list Workout.t) (w : Workout.t) :
  i ∉ map Workout.id ws → Workout.id w = i → find_workout i (ws ++ [w]) = Some w.
Proof.
  intros Hn Hw. unfold find_workout. induction ws as [|v ws IH]; simpl.
  - now rewrite bool_decide_eq_true_2.
  - simpl in Hn. apply not_elem_of_cons in Hn as [Hv Hn].
    rewrite bool_decide_eq_false_2 by congruence. now apply IH.
Qed.
(** Hypotheses over a session, one action at a time. *)
Lemma all_fresh_next (a : Action) (rest : list Action) (st : State)
    (store : gmap string string) :
  fresh a st →
  (∀ st' store', step a st store = Some (st', store') → all_fresh rest st' store') →
  all_fresh (a :: rest) st store.
Proof.
  intros Ha Hrest. cbn [all_fresh]. split; [assumption|].
  destruct (step a st store) as [[st' store']|]; [now apply Hrest | exact I].
Qed.

Lemma all_offered_next (a : Action) (rest : list Action) (st : State)
    (store : gmap string string) :
  offered a st →
  (∀ st' store', step a st store = Some (st', store') → all_offered rest st' store') →
  all_offered (a :: rest) st store.
Proof.
  intros Ha Hrest. cbn [all_offered]. split; [assumption|].
  destruct (step a st store) as [[st' store']|]; [now apply Hrest | exact I].
Qed.
End SessionFacts.

(** * Facts about the wiring of the screen *)

Module ScreenFacts.
Import JS Codec WorkoutManager.

Lemma selectedWorkout_updated (exercises : list Exercise.t) (st : State)
    (store : gmap string string) (w : Workout.t) :
  selectedWorkout st = Some w →
  selectedWorkout (updateWorkoutExercises exercises st store).1
  = Some (Workout.mk (Workout.id w) (Workout.name w) exercises (Workout.createdAt w)).
Proof.
  intros Hw. unfold updateWorkoutExercises, selectedWorkout, find_workout in *.
  cbn [fst workouts selectedWorkoutId setWorkouts].
  rewrite ManagerFacts.find_map_stable.
  - rewrite Hw. cbn [fmap option_fmap option_map].
    apply find_some in Hw as [_ Hid]. apply bool_decide_eq_true in Hid.
    destruct (decide (Workout.id w = selectedWorkoutId st)); [reflexivity | contradiction].
  - intros x. destruct (decide (Workout.id x = selectedWorkoutId st)); reflexivity.
Qed.

Lemma updateWorkoutExercises_stored (exercises : list Exercise.t) (st : State)
    (store : gmap string string) :
  (updateWorkoutExercises exercises st store).2 !! STORAGE_KEY
  = Some (stringify (JArr (map Workout_toJSON
            (workouts (updateWorkoutExercises exercises st store).1)))).
Proof.
  unfold updateWorkoutExercises, saveWorkouts, AsyncStorage.setItem.
  cbn [fst snd workouts setWorkouts]. apply lookup_insert_eq.
Qed.

(** What a list operation sends is what the manager then shows and holds. *)
Lemma rendered_updated (list' : ExerciseList.State) (sent : list Exercise.t)
    (st : State) (store : gmap string string) (w : Workout.t) :
  selectedWorkout st = Some w → ExerciseList.exercises list' = sent →
  let '(st', store') := updateWorkoutExercises sent st store in
  Screen.rendered list' st' ∧
  store' !! STORAGE_KEY = Some (stringify (JArr (map Workout_toJSON (workouts st')))) ∧
  (∃ w', selectedWorkout st' = Some w' ∧
         ExerciseList.syncExercises (Workout.exercises w') list' = list').
Proof.
  intros Hw Hsent.
  pose proof (selectedWorkout_updated sent st store w Hw) as Hsel.
  pose proof (updateWorkoutExercises_stored sent st store) as Hstored.
  destruct (updateWorkoutExercises sent st store) as [st' store'].
  cbn [fst snd] in *. split; [|split; [exact Hstored|]].
  - eexists. split; [exact Hsel | exact Hsent].
  - eexists. split; [exact Hsel|]. cbn [Workout.exercises].
    unfold ExerciseList.syncExercises. rewrite <- Hsent. now destruct list'.
Qed.

End ScreenFacts.

(** * Facts about the exercise item *)

Module ItemFacts.
Import JS ExerciseItem.

Lemma edit_keeps_id (e : Edit) (st st' : State) :
  edit e st = Some st' →
  Exercise.id (editedExercise st') = Exercise.id (editedExercise st) ∧
  isEditing st' = isEditing st.
Proof.
  destruct e as [text|text|text|text]; cbn [edit]; unfold onChangeName, onChangeSets,
    onChangeReps, onChangeWeight.
  - intros [= <-]. now split.
  - destruct (parseInt_or_zero text); [|discriminate]. intros [= <-]. now split.
  - destruct (parseInt_or_zero text); [|discriminate]. intros [= <-]. now split.
  - destruct (parseFloat_or_zero text); [|discriminate]. intros [= <-]. now split.
Qed.

Lemma edits_keep_id (es : list Edit) : ∀ st st' : State,
  edits es st = Some st' →
  Exercise.id (editedExercise st') = Exercise.id (editedExercise st) ∧
  isEditing st' = isEditing st.
Proof.
  induction es as [|e es IH]; intros st st' H; cbn [edits] in H.
  - injection H as <-. now split.
  - destruct (edit e st) as [st1|] eqn:E; [|discriminate]. cbn in H.
    destruct (edit_keeps_id e st st1 E) as [H1 H2].
    destruct (IH st1 st' H) as [H3 H4]. split; congruence.
Qed.

End ItemFacts.

(** * Facts about the history *)

Module ProgressFacts.
Import JS JSFacts Codec CodecFacts WorkoutManager ManagerFacts.

Lemma loadSessions_stored (viewer : ProgressList.State) (store : gmap string string)
    (history : list WorkoutSession.t) :
  store !! PROGRESS_KEY
  = Some (stringify (JArr (map WorkoutSession_toJSON history))) →
  Forall (λ x, Spec.timestamp (WorkoutSession.completedAt x)) history →
  ProgressList.loadSessions viewer store = Some (ProgressList.mkState history false).
Proof.
  intros Hs Hvalid. unfold ProgressList.loadSessions, AsyncStorage.getItem.
  change ProgressList.PROGRESS_KEY with PROGRESS_KEY.
  rewrite Hs, present_stringify.
  now rewrite (parse_and_restore_stringify _ _
                 (λ x, Spec.timestamp (WorkoutSession.completedAt x)))
    by (assumption || apply restore_WorkoutSession_toJSON
        || apply plain_WorkoutSession || reflexivity).
Qed.

Lemma Forall_filter_kept {A : Type} (P Q : A → Prop) `{∀ x, Decision (Q x)}
    (l : list A) :
  Forall P l → Forall P (filter Q l).
Proof.
  rewrite !Forall_forall. intros Hl x Hx.
  apply list_elem_of_filter in Hx as [_ Hx]. now apply Hl.
Qed.

(** One completion on a store that holds a history. *)
Lemma saveWorkoutSession_onto (now completed : Z) (workout : Workout.t)
    (store : gmap string string) (old : list WorkoutSession.t) :
  Session.holds_history store old →
  saveWorkoutSession now completed workout store
  = Some (<[PROGRESS_KEY :=
             stringify (JArr (map WorkoutSession_toJSON
                                (newSession now completed workout :: old)))]> store,
          alert "Workout Complete!"
            ("Great job finishing " +:+ Workout.name workout +:+ "!")).
Proof.
  intros [Hs|[Hs ->]].
  - rewrite (saveWorkoutSession_next _ _ _ _
               (stringify (JArr (map WorkoutSession_toJSON old)))
               (map WorkoutSession_toJSON old));
      [reflexivity | rewrite Hs; apply present_stringify
      | apply parse_stringify, plain_items, plain_WorkoutSession].
  - now rewrite saveWorkoutSession_first.
Qed.

Lemma sum_sets_app (l : list Exercise.t) (e : Exercise.t) :
  Spec.sum_sets (l ++ [e]) = Spec.sum_sets l + Exercise.sets e.
Proof. induction l as [|x l IH]; simpl; [lia | rewrite IH; lia]. Qed.

Lemma sum_volume_app (l : list Exercise.t) (e : Exercise.t) :
  Spec.sum_volume (l ++ [e])
  = Spec.sum_volume l + Exercise.sets e * Exercise.weight e.
Proof. induction l as [|x l IH]; simpl; [lia | rewrite IH; lia]. Qed.

End ProgressFacts.

Module FlowFacts.
Import JS Codec WorkoutManager.

Lemma updateWorkoutExercises_history (exercises : list Exercise.t) (st : State)
    (store : gmap string string) (old : list WorkoutSession.t) :
  Session.holds_history store old →
  Session.holds_history (updateWorkoutExercises exercises st store).2 old.
Proof.
  unfold Session.holds_history, updateWorkoutExercises. cbn [snd].
  now rewrite ManagerFacts.saveWorkouts_other by discriminate.
Qed.

Lemma typed_number (n : Z) :
  - 2 ^ 53 ≤ n ≤ 2 ^ 53 → parseInt_or_zero (Number_toString n) = Some n.
Proof.
  intros Hn. unfold parseInt_or_zero.
  rewrite <- (JSFacts.append_nil_r (Number_toString n)).
  rewrite InputFacts.parseInt_Number_toString; [reflexivity | exact Hn | exact I | now intros _].
Qed.

Lemma typed_weight (n : Z) :
  - 2 ^ 53 ≤ n ≤ 2 ^ 53 → parseFloat_or_zero (Number_toString n) = Some n.
Proof. apply InputFacts.parseFloat_or_zero_Number_toString. Qed.

End FlowFacts.

(** * Facts about reloading *)

Module ReloadFacts.
Import JS JSFacts Codec CodecFacts.

(** The workout [loadWorkouts] restores from what [saveWorkouts] wrote for
    [w]. *)
Lemma restore_Workout_written (w : Workout.t) :
  Workout.createdAt w = InvalidDate ∨ Spec.timestamp (Workout.createdAt w) →
  restore_Workout (Workout_toJSON w)
  = Some (match Workout.createdAt w with
          | InvalidDate =>
              Workout.mk (Workout.id w) (Workout.name w) (Workout.exercises w)
                (DateValue 0)
          | DateValue _ => w
          end).
Proof.
  intros [Hd|Hd].
  - destruct w as [i n exs d]. simpl in Hd. subst d.
    unfold Workout_toJSON, restore_Workout.
    cbn [Workout.id Workout.name Workout.exercises Workout.createdAt].
    cbn [Date_toJSON]. change (has_names _ _) with true. cbv iota.
    rewrite mapM_as_Exercise. reflexivity.
  - rewrite restore_Workout_toJSON by assumption.
    destruct (Workout.createdAt w); [reflexivity | destruct Hd].
Qed.

Lemma mapM_restore_map {A : Type} (restore : json → option A) (toJSON : A → json)
    (f : A → A) (P : A → Prop) (l : list A) :
  (∀ a, P a → restore (toJSON a) = Some (f a)) →
  Forall P l → mapM restore (map toJSON l) = Some (map f l).
Proof.
  intros Hr Hl. induction Hl as [|a l Ha Hl IH]; [reflexivity|].
  cbn [map mapM]. rewrite (Hr a Ha). cbn [mbind option_bind].
  rewrite IH. reflexivity.
Qed.

End ReloadFacts.

(** * The claims *)

Import JS Codec WorkoutManager.




(** C2.  The session [Session.same_reading_run], evaluated: the store is
    empty at first, two workouts are created at one clock reading and so
    carry one id, and three confirmed deletions, each asked for while two
    or more workouts are listed, leave no workout at all, in the state and
    in the store; mounting the screen again then loads the empty
    collection. *)
Theorem C2_deletions_empty_the_collection :
  fst <$> Session.run Session.same_reading_run initial ∅
  = Some (mkState [] EmptyString false EmptyString false) ∧
  (Session.run Session.same_reading_run initial ∅ ≫= λ r, r.2 !! STORAGE_KEY)
  = Some "[]" ∧
  (Session.run (Session.same_reading_run ++ [Session.Mount 1700000900000 1700000900000])
     initial ∅ ≫= λ r, Some (workouts r.1))
  = Some [].
Proof. repeat split; vm_compute; reflexivity. Qed.

(** C3.  [create] with a blank name (empty, or white space only) changes
    neither the state nor the store and raises the validation message.
    With any other name it appends exactly one workout, whose exercise
    sequence is empty and whose name is the trimmed text, selects its id,
    and writes the new collection and the new selection to the store,
    leaving every other key as it was. *)
Theorem C3_create (now created : Z) (st : State) (store : gmap string string) :
  (Spec.blank (newWorkoutName st) →
     createNewWorkout now created st store
     = (st, store, Some (alert "Error" "Please enter a workout name"))) ∧
  (¬ Spec.blank (newWorkoutName st) →
     let '(st', store', notice) := createNewWorkout now created st store in
     ∃ w : Workout.t,
       workouts st' = workouts st ++ [w] ∧
       length (workouts st') = S (length (workouts st)) ∧
       Workout.exercises w = [] ∧
       Workout.name w = trim (newWorkoutName st) ∧
       selectedWorkoutId st' = Workout.id w ∧
       store' !! STORAGE_KEY
       = Some (stringify (JArr (map Workout_toJSON (workouts st')))) ∧
       store' !! SELECTED_WORKOUT_KEY = Some (Workout.id w) ∧
       (∀ k, k ≠ STORAGE_KEY → k ≠ SELECTED_WORKOUT_KEY → store' !! k = store !! k) ∧
       notice = None).
Proof.
  split; intros Hname; unfold createNewWorkout.
  - now rewrite JSFacts.trim_blank.
  - rewrite JSFacts.trim_not_blank by assumption. cbn [negb].
    eexists. split; [reflexivity|]. cbn [workouts setWorkouts setSelectedWorkoutId
      setNewWorkoutName setShowCreateModal selectedWorkoutId Workout.id
      Workout.exercises Workout.name].
    destruct ManagerFacts.keys_distinct as (_ & _ & Hk).
    repeat split.
    + rewrite length_app. simpl. lia.
    + rewrite ManagerFacts.saveSelectedWorkout_other by assumption.
      unfold saveWorkouts, AsyncStorage.setItem. now rewrite lookup_insert_eq.
    + unfold saveSelectedWorkout, AsyncStorage.setItem. now rewrite lookup_insert_eq.
    + intros k Hk1 Hk2.
      now rewrite ManagerFacts.saveSelectedWorkout_other, ManagerFacts.saveWorkouts_other.
Qed.

Lemma C3_create_witness :
  createNewWorkout 1700000000000 1700000000001 (setNewWorkoutName " " initial) ∅
  = (setNewWorkoutName " " initial, ∅, Some (alert "Error" "Please enter a workout name")) ∧
  let '(st', store', notice) :=
    createNewWorkout 1700000000000 1700000000001 (setNewWorkoutName " Legs " initial) ∅ in
  ∃ w : Workout.t,
    workouts st' = [] ++ [w] ∧
    length (workouts st') = 1%nat ∧
    Workout.exercises w = [] ∧
    Workout.name w = "Legs" ∧
    selectedWorkoutId st' = Workout.id w ∧
    store' !! STORAGE_KEY
    = Some (stringify (JArr (map Workout_toJSON (workouts st')))) ∧
    store' !! SELECTED_WORKOUT_KEY = Some (Workout.id w) ∧
    (∀ k, k ≠ STORAGE_KEY → k ≠ SELECTED_WORKOUT_KEY →
       store' !! k = (∅ : gmap string string) !! k) ∧
    notice = None.
Proof.
  split.
  - apply (proj1 (C3_create 1700000000000 1700000000001
                    (setNewWorkoutName " " initial) ∅)).
    simpl. split; [reflexivity | exact I].
  - apply (proj2 (C3_create 1700000000000 1700000000001
                    (setNewWorkoutName " Legs " initial) ∅)).
    simpl. intros (_ & H & _). discriminate H.
Defined.

(** C4.  [complete] reads the stored history, taken as empty when the key
    is absent (or holds the empty text), puts the new session in front of
    it and writes the whole array back.  So after any number of calls made
    one after the other, on a store that holds a history (the empty one
    included), the store holds the sessions of the calls, the last call
    first, followed by that history; the progress viewer reads exactly
    that list; and when the completion times, from the oldest stored
    session to the last call, never go back, the list runs from the newest
    completion time to the oldest. *)
Theorem C4_history_newest_first :
  (∀ now completed workout (store : gmap string string),
     let entry := WorkoutSession_toJSON (newSession now completed workout) in
     (present (store !! PROGRESS_KEY) = None →
        fst <$> saveWorkoutSession now completed workout store
        = Some (<[PROGRESS_KEY := stringify (JArr [entry])]> store)) ∧
     (∀ text older,
        present (store !! PROGRESS_KEY) = Some text →
        parse text = Returns (JArr older) →
        fst <$> saveWorkoutSession now completed workout store
        = Some (<[PROGRESS_KEY := stringify (JArr (entry :: older))]> store))) ∧
  (∀ (calls : list (Z * Z * Workout.t)) (old : list WorkoutSession.t)
     (store : gmap string string),
     Session.holds_history store old →
     Forall (λ x, Spec.timestamp (WorkoutSession.completedAt x)) old →
     Forall (λ t, - maxTime ≤ t ≤ maxTime) (Session.completions calls) →
     let history := reverse (Session.sessions_of calls) ++ old in
     ∃ store',
       Session.complete_all calls store = Some store' ∧
       Session.holds_history store' history ∧
       ProgressList.loadSessions ProgressList.initial store'
       = Some (ProgressList.mkState history false) ∧
       (Spec.monotone (Spec.completion_times (reverse old) ++ Session.completions calls) →
          Spec.newest_first history)).
Proof.
  split.
  - intros now completed workout store entry. split.
    + intros H. now rewrite ManagerFacts.saveWorkoutSession_first.
    + intros text older H Hp.
      now rewrite (ManagerFacts.saveWorkoutSession_next _ _ _ _ text older).
  - intros calls old store Hholds Hold Hvalid history.
    destruct (ManagerFacts.holds_history_complete_all calls store old Hholds)
      as (store' & Hrun & Hholds').
    exists store'. split; [exact Hrun|].
    split; [exact Hholds'|]. split.
    + apply ManagerFacts.loadSessions_holds_history; [exact Hholds'|].
      apply Forall_app. split; [|exact Hold].
      apply Forall_reverse. now apply ManagerFacts.sessions_of_timestamps.
    + intros Hmono. subst history.
      rewrite <- (reverse_involutive old), <- reverse_app.
      apply ManagerFacts.newest_first_reverse.
      unfold Spec.completion_times in *. rewrite map_app.
      fold (Spec.completion_times (Session.sessions_of calls)).
      now rewrite ManagerFacts.completion_times_sessions_of.
Qed.

Lemma C4_history_witness :
  let calls :=
    [ (1700000000000, 1700000000001,
       Workout.mk "1" "Push Day" [Exercise.mk "1" "Bench Press" 3 10 60] (DateValue 5));
      (1700000600000, 1700000600002,
       Workout.mk "2" "Pull Day" [Exercise.mk "3" "Pull-ups" 4 8 0] (DateValue 6)) ] in
  let history := reverse (Session.sessions_of calls) ++ [] in
  ∃ store',
    Session.complete_all calls ∅ = Some store' ∧
    Session.holds_history store' history ∧
    ProgressList.loadSessions ProgressList.initial store'
    = Some (ProgressList.mkState history false) ∧
    Spec.newest_first history.
Proof.
  intros calls history.
  assert (Spec.monotone (Spec.completion_times (reverse []) ++ Session.completions calls))
    as Hmono.
  { intros [|[|i]] [|[|j]] a b Hij Ha Hb; cbn in Ha, Hb;
      try lia; try discriminate; simplify_eq; lia. }
  destruct (proj2 C4_history_newest_first calls [] ∅)
    as (store' & Hrun & Hstored & Hread & Hsorted).
  - right. split; reflexivity.
  - constructor.
  - repeat constructor; unfold maxTime; lia.
  - exists store'. split; [exact Hrun|]. split; [exact Hstored|].
    split; [exact Hread|]. apply Hsorted, Hmono.
Defined.




(** C6.  On a store without a workout collection, [load] sets the two
    default workouts, named Push Day and Pull Day, each with its sample
    exercises, selects the id of Push Day, and writes the two workouts to
    the store. *)
Theorem C6_load_seeds_defaults (loaded1 loaded2 : Z) (st : State)
    (store : gmap string string) :
  store !! STORAGE_KEY = None →
  ∃ push pull st' store',
    loadWorkouts loaded1 loaded2 st store = Some (st', store') ∧
    workouts st' = [push; pull] ∧
    Workout.name push = "Push Day" ∧ Workout.name pull = "Pull Day" ∧
    Workout.exercises push ≠ [] ∧ Workout.exercises pull ≠ [] ∧
    [push; pull] = DEFAULT_WORKOUTS loaded1 loaded2 ∧
    selectedWorkoutId st' = Workout.id push ∧
    isLoading st' = false ∧
    store' = <[STORAGE_KEY := stringify (JArr (map Workout_toJSON [push; pull]))]> store.
Proof.
  intros Habsent.
  unfold loadWorkouts, AsyncStorage.getItem. rewrite Habsent. cbn [present].
  do 4 eexists. split; [reflexivity|].
  repeat split; discriminate.
Qed.

Lemma C6_load_seeds_witness :
  ∃ push pull st' store',
    loadWorkouts 1700000000000 1700000000000 initial ∅ = Some (st', store') ∧
    workouts st' = [push; pull] ∧
    Workout.name push = "Push Day" ∧ Workout.name pull = "Pull Day" ∧
    Workout.exercises push ≠ [] ∧ Workout.exercises pull ≠ [] ∧
    [push; pull] = DEFAULT_WORKOUTS 1700000000000 1700000000000 ∧
    selectedWorkoutId st' = Workout.id push ∧
    isLoading st' = false ∧
    store' = <[STORAGE_KEY := stringify (JArr (map Workout_toJSON [push; pull]))]> ∅.
Proof. apply (C6_load_seeds_defaults 1700000000000 1700000000000 initial ∅). reflexivity. Defined.

(** C7.  When more than one workout is listed, [delete(id)] asks for
    confirmation, and on confirmation the collection becomes the workouts
    whose id is not [id], in their order: no workout with that id is left,
    every other workout is kept, and when the ids are pairwise distinct and
    [id] is one of them exactly one workout is gone.  If the selected id was
    [id], the selection becomes the id of the first workout left, or the
    empty id when none is left; otherwise it stays.  The collection is
    written to the store; the selection is written exactly when it
    changed; no other key is written. *)
Theorem C7_confirmed_delete (st : State) (workoutId : string)
    (store : gmap string string) :
  (1 < length (workouts st))%nat →
  deleteWorkout st workoutId =
  Question (alert "Delete Workout" "Are you sure you want to delete this workout?")
    (deleteWorkout_onPress st workoutId) ∧
  let '(st', store') := deleteWorkout_onPress st workoutId store in
  workouts st' = filter (λ w, Workout.id w ≠ workoutId) (workouts st) ∧
  (∀ w, w ∈ workouts st' ↔ w ∈ workouts st ∧ Workout.id w ≠ workoutId) ∧
  (NoDup (map Workout.id (workouts st)) → workoutId ∈ map Workout.id (workouts st) →
     S (length (workouts st')) = length (workouts st)) ∧
  (selectedWorkoutId st = workoutId →
     selectedWorkoutId st'
     = match workouts st' with w :: _ => Workout.id w | [] => EmptyString end) ∧
  (selectedWorkoutId st ≠ workoutId → selectedWorkoutId st' = selectedWorkoutId st) ∧
  showCreateModal st' = showCreateModal st ∧
  newWorkoutName st' = newWorkoutName st ∧
  isLoading st' = isLoading st ∧
  store' !! STORAGE_KEY = Some (stringify (JArr (map Workout_toJSON (workouts st')))) ∧
  (selectedWorkoutId st' ≠ selectedWorkoutId st →
     store' !! SELECTED_WORKOUT_KEY = Some (selectedWorkoutId st')) ∧
  (selectedWorkoutId st' = selectedWorkoutId st →
     store' !! SELECTED_WORKOUT_KEY = store !! SELECTED_WORKOUT_KEY) ∧
  (∀ k, k ≠ STORAGE_KEY → k ≠ SELECTED_WORKOUT_KEY → store' !! k = store !! k).
Proof.
  intros Hlen. split; [now apply ManagerFacts.deleteWorkout_asked|].
  destruct ManagerFacts.keys_distinct as (_ & _ & Hk).
  unfold deleteWorkout_onPress.
  set (updatedWorkouts := filter (λ w, Workout.id w ≠ workoutId) (workouts st)).
  assert (first_id updatedWorkouts
          = match updatedWorkouts with w :: _ => Workout.id w | [] => EmptyString end)
    as Hfirst by (destruct updatedWorkouts; [reflexivity | apply ManagerFacts.first_id_cons]).
  assert (store !! STORAGE_KEY = store !! STORAGE_KEY) as _ by reflexivity.
  assert (saveWorkouts updatedWorkouts store !! STORAGE_KEY
          = Some (stringify (JArr (map Workout_toJSON updatedWorkouts)))) as Hsaved
    by (unfold saveWorkouts, AsyncStorage.setItem; apply lookup_insert_eq).
  assert (∀ w, w ∈ updatedWorkouts ↔ w ∈ workouts st ∧ Workout.id w ≠ workoutId) as Hmem
    by (intros w; subst updatedWorkouts; rewrite list_elem_of_filter; tauto).
  assert (NoDup (map Workout.id (workouts st)) → workoutId ∈ map Workout.id (workouts st) →
          S (length updatedWorkouts) = length (workouts st)) as Hone
    by (intros Hnd Hin; now apply ManagerFacts.filter_distinct_removes_one).
  assert (∀ k, k ≠ STORAGE_KEY → k ≠ SELECTED_WORKOUT_KEY →
          saveSelectedWorkout (first_id updatedWorkouts)
            (saveWorkouts updatedWorkouts store) !! k = store !! k) as Hother1
    by (intros k Hk1 Hk2;
        now rewrite ManagerFacts.saveSelectedWorkout_other, ManagerFacts.saveWorkouts_other).
  assert (saveWorkouts updatedWorkouts store !! SELECTED_WORKOUT_KEY
          = store !! SELECTED_WORKOUT_KEY) as Hkept
    by (apply ManagerFacts.saveWorkouts_other; intros E; now apply Hk).
  destruct (decide (selectedWorkoutId st = workoutId)) as [Hsel|Hsel].
  - destruct (decide (first_id updatedWorkouts ≠ selectedWorkoutId st)) as [Hchg|Hsame];
      cbn [workouts selectedWorkoutId showCreateModal newWorkoutName isLoading
           setWorkouts setSelectedWorkoutId];
      (split; [reflexivity|]); (split; [exact Hmem|]); (split; [exact Hone|]);
      (split; [intros _; exact Hfirst|]); (split; [intros Hne; contradiction|]);
      do 3 (split; [reflexivity|]).
    + rewrite ManagerFacts.saveSelectedWorkout_other by assumption.
      split; [exact Hsaved|]. split; [|split; [|exact Hother1]].
      * intros _. unfold saveSelectedWorkout, AsyncStorage.setItem. apply lookup_insert_eq.
      * intros E. contradiction.
    + split; [exact Hsaved|]. split; [|split].
      * intros E. contradiction.
      * intros _. exact Hkept.
      * intros k Hk1 Hk2. now apply ManagerFacts.saveWorkouts_other.
  - destruct (decide (selectedWorkoutId st ≠ selectedWorkoutId st)) as [Hchg|_];
      [contradiction Hchg; reflexivity|].
    cbn [workouts selectedWorkoutId showCreateModal newWorkoutName isLoading
         setWorkouts setSelectedWorkoutId].
    split; [reflexivity|]. split; [exact Hmem|]. split; [exact Hone|].
    split; [intros E; contradiction|]. split; [reflexivity|].
    do 3 (split; [reflexivity|]).
    split; [exact Hsaved|]. split; [|split].
    + intros E. contradiction E. reflexivity.
    + intros _. exact Hkept.
    + intros k Hk1 Hk2. now apply ManagerFacts.saveWorkouts_other.
Qed.

Lemma C7_confirmed_delete_witness :
  let st := mkState (DEFAULT_WORKOUTS 5 6) "1" false EmptyString false in
  let '(st', store') := deleteWorkout_onPress st "1" ∅ in
  workouts st' = filter (λ w, Workout.id w ≠ "1") (workouts st) ∧
  S (length (workouts st')) = length (workouts st) ∧
  selectedWorkoutId st' = "2" ∧
  store' !! STORAGE_KEY = Some (stringify (JArr (map Workout_toJSON (workouts st')))) ∧
  store' !! SELECTED_WORKOUT_KEY = Some "2".
Proof.
  intros st.
  pose proof (C7_confirmed_delete st "1" ∅) as H.
  destruct (deleteWorkout_onPress st "1" ∅) as [st' store'] eqn:E.
  destruct H as (_ & Hw & _ & Hone & Hsel & _ & _ & _ & _ & Hsaved & Hselsaved & _).
  { simpl. lia. }
  assert (st' = (deleteWorkout_onPress st "1" ∅).1) as Hst by now rewrite E.
  vm_compute in Hst.
  split; [exact Hw|]. split.
  - apply Hone.
    + apply (bool_decide_unpack _). vm_compute. exact I.
    + apply (bool_decide_unpack _). vm_compute. exact I.
  - split; [|split; [exact Hsaved|]].
    + now rewrite Hst.
    + rewrite Hselsaved; [now rewrite Hst | rewrite Hst; discriminate].
Defined.

(** C8.  [add], evaluated twice at one clock reading on an empty sequence:
    each call appends one exercise named New Exercise with 3 sets, 10 reps
    and weight 0, and marks it for editing; the second exercise is given
    the id the first one has, so the ids of the sequence repeat and both
    items are marked. *)
Theorem C8_add_repeats_id :
  let st0 := ExerciseList.initial [] in
  let '(st1, sent1) := ExerciseList.addNewExercise 1700000000000 st0 in
  let '(st2, sent2) := ExerciseList.addNewExercise 1700000000000 st1 in
  let added := Exercise.mk "1700000000000" "New Exercise" 3 10 0 in
  ExerciseList.exercises st1 = [added] ∧ sent1 = [added] ∧
  ExerciseList.isEditing st1 added = true ∧
  ExerciseList.exercises st2 = [added; added] ∧ sent2 = [added; added] ∧
  ExerciseList.newlyAddedId st2 = Some (Exercise.id added) ∧
  Exercise.id added ∈ map Exercise.id (ExerciseList.exercises st1) ∧
  ¬ NoDup (map Exercise.id (ExerciseList.exercises st2)).
Proof.
  cbv zeta. vm_compute ExerciseList.addNewExercise.
  repeat split.
  - apply list_elem_of_here.
  - intros H. apply NoDup_cons in H as [H _]. apply H, list_elem_of_here.
Qed.

(** C9.  For a session id that no session of the history carries, the
    confirmed [delete(sessionId)] of the progress viewer leaves the list in
    memory as it is and raises no alert; it writes that list to the store,
    so that a store which holds the history the viewer shows is left as it
    is. *)
Theorem C9_delete_absent_session (st : ProgressList.State) (sessionId : string)
    (store : gmap string string) :
  (∀ x, x ∈ ProgressList.sessions st → WorkoutSession.id x ≠ sessionId) →
  let shown := stringify (JArr (map WorkoutSession_toJSON (ProgressList.sessions st))) in
  ProgressList.deleteSession st sessionId =
  Question
    (alert "Delete Workout"
       "Are you sure you want to remove this workout from your history?")
    (ProgressList.deleteSession_onPress st sessionId) ∧
  ProgressList.deleteSession_onPress st sessionId store
  = (st, <[ProgressList.PROGRESS_KEY := shown]> store, None) ∧
  (store !! ProgressList.PROGRESS_KEY = Some shown →
     ProgressList.deleteSession_onPress st sessionId store = (st, store, None)).
Proof.
  intros Habsent shown. split; [reflexivity|].
  assert (ProgressList.deleteSession_onPress st sessionId store
          = (st, <[ProgressList.PROGRESS_KEY := shown]> store, None)) as Hrun.
  { unfold ProgressList.deleteSession_onPress.
    rewrite ManagerFacts.filter_all by assumption.
    destruct st. reflexivity. }
  split; [exact Hrun|].
  intros Hstored. rewrite Hrun, insert_id by assumption. reflexivity.
Qed.

Lemma C9_delete_absent_session_witness :
  let history :=
    [ WorkoutSession.mk "1700000600000" "2" "Pull Day" [Exercise.mk "3" "Pull-ups" 4 8 0]
        (DateValue 1700000600002) 4 0;
      WorkoutSession.mk "1700000000000" "1" "Push Day" [Exercise.mk "1" "Bench Press" 3 10 60]
        (DateValue 1700000000001) 3 180 ] in
  let st := ProgressList.mkState history false in
  let store : gmap string string :=
    {[ ProgressList.PROGRESS_KEY := stringify (JArr (map WorkoutSession_toJSON history)) ]} in
  ProgressList.deleteSession_onPress st "42" store = (st, store, None).
Proof.
  intros history st store.
  apply (C9_delete_absent_session st "42" store).
  - intros x Hx. subst st history. cbn [ProgressList.sessions] in Hx.
    repeat (apply elem_of_cons in Hx as [->|Hx]; [discriminate|]).
    now apply elem_of_nil in Hx.
  - subst store. apply lookup_singleton_eq.
Defined.


(** * Further properties of the code *)

(** X1.  [load] on a store whose collection text cannot be used.  The
    empty text is taken as no text at all: the default workouts are set,
    the first one selected, and the defaults written.  A text on which
    [JSON.parse] throws, or the JSON of a value that is not an array, or of
    an array with a [null] item, makes the reading throw: the default
    workouts are set and the first one selected, and the store is left as
    it is, the text included. *)
Theorem X1_load_unusable_collection (loaded1 loaded2 : Z) (st : State)
    (store : gmap string string) (text : string) :
  store !! STORAGE_KEY = Some text →
  let shown :=
    mkState (DEFAULT_WORKOUTS loaded1 loaded2) "1" (showCreateModal st)
      (newWorkoutName st) false in
  (text = EmptyString →
     loadWorkouts loaded1 loaded2 st store
     = Some (shown, saveWorkouts (DEFAULT_WORKOUTS loaded1 loaded2) store)) ∧
  (text ≠ EmptyString →
     parse text = Throws ∨
     (∃ j, parse text = Returns j ∧ ∀ items, j ≠ JArr items) ∨
     (∃ items, parse text = Returns (JArr items) ∧ JNull ∈ items) →
     loadWorkouts loaded1 loaded2 st store = Some (shown, store)).
Proof.
  intros Hs shown. unfold loadWorkouts, AsyncStorage.getItem. rewrite Hs. split.
  - intros ->. reflexivity.
  - intros Hne Hbad. destruct text as [|c text]; [contradiction|]. cbn [present truthy].
    assert (parse_and_restore restore_Workout (String c text) = Thrown) as ->;
      [|reflexivity].
    unfold parse_and_restore.
    destruct Hbad as [-> | [(j & -> & Hj) | (items & -> & Hnull)]]; [reflexivity | |].
    + destruct j; try reflexivity. now contradiction (Hj items).
    + assert (existsb is_null items = true) as ->; [|reflexivity].
      apply existsb_exists. exists JNull. split; [now apply list_elem_of_In | reflexivity].
Qed.

Lemma X1_load_unusable_collection_witness :
  loadWorkouts 5 6 initial {[ STORAGE_KEY := EmptyString ]}
  = Some (mkState (DEFAULT_WORKOUTS 5 6) "1" false EmptyString false,
          saveWorkouts (DEFAULT_WORKOUTS 5 6) {[ STORAGE_KEY := EmptyString ]}) ∧
  loadWorkouts 5 6 initial {[ STORAGE_KEY := "[{]" ]}
  = Some (mkState (DEFAULT_WORKOUTS 5 6) "1" false EmptyString false,
          {[ STORAGE_KEY := "[{]" ]}) ∧
  loadWorkouts 5 6 initial {[ STORAGE_KEY := "{ }" ]}
  = Some (mkState (DEFAULT_WORKOUTS 5 6) "1" false EmptyString false,
          {[ STORAGE_KEY := "{ }" ]}) ∧
  loadWorkouts 5 6 initial {[ STORAGE_KEY := "[7, null]" ]}
  = Some (mkState (DEFAULT_WORKOUTS 5 6) "1" false EmptyString false,
          {[ STORAGE_KEY := "[7, null]" ]}).
Proof.
  split; [|split; [|split]].
  - apply (X1_load_unusable_collection 5 6 initial _ EmptyString);
      [apply lookup_singleton_eq | reflexivity].
  - apply (X1_load_unusable_collection 5 6 initial _ "[{]");
      [apply lookup_singleton_eq | discriminate | left; reflexivity].
  - apply (X1_load_unusable_collection 5 6 initial _ "{ }");
      [apply lookup_singleton_eq | discriminate |].
    right. left. exists (JObj []). split; [reflexivity | discriminate].
  - apply (X1_load_unusable_collection 5 6 initial _ "[7, null]");
      [apply lookup_singleton_eq | discriminate |].
    right. right. exists [JNum 7; JNull]. split; [reflexivity|].
    apply list_elem_of_further, list_elem_of_here.
Defined.



(** X3.  Over any session on the workout screen (mounting again, typing,
    opening and cancelling the modal, creating, long presses confirmed or
    not, taps on the tabs, updates of the exercises), started where the
    state and the store agree and the selection names a workout, in which
    the creations take readings that are not yet ids and the taps are on
    workouts that are listed: every action ends, and afterwards the
    collection is not empty, its ids are pairwise distinct, a workout is
    selected and shown, and mounting the screen again shows the same
    collection with the same selection and writes nothing. *)
Theorem X3_session_keeps_selection (actions : list Session.Action) (st : State)
    (store : gmap string string) :
  Session.sound st store →
  Session.all_fresh actions st store →
  Session.all_offered actions st store →
  ∃ st' store',
    Session.run actions st store = Some (st', store') ∧
    Session.sound st' store' ∧
    workouts st' ≠ [] ∧
    NoDup (map Workout.id (workouts st')) ∧
    (∃ w, selectedWorkout st' = Some w ∧ w ∈ workouts st') ∧
    (∀ loaded1 loaded2 st0,
       loadWorkouts loaded1 loaded2 st0 store'
       = Some (mkState (workouts st') (selectedWorkoutId st') (showCreateModal st0)
                 (newWorkoutName st0) false, store')).
Proof.
  intros Hs Hf Ho.
  destruct (SessionFacts.run_keeps_sound actions st store Hs Hf Ho)
    as (st' & store' & Hrun & Hs').
  exists st', store'. split; [assumption|]. split; [assumption|].
  destruct Hs' as ((_ & Hne & Hnd & _) & _ & Hsel & Hr).
  split; [assumption|]. split; [assumption|]. split; [|exact Hr].
  destruct (SessionFacts.find_workout_listed _ _ Hsel) as (w & Hw & _).
  exists w. split; [exact Hw|]. now apply SessionFacts.find_workout_id in Hw.
Qed.

Lemma X3_session_keeps_selection_witness :
  let st := mkState (DEFAULT_WORKOUTS 5 6) "1" false EmptyString false in
  let store := saveWorkouts (DEFAULT_WORKOUTS 5 6) ∅ in
  let actions :=
    [ Session.Select "2"; Session.TypeName "Legs";
      Session.Create 1700000000000 1700000000001;
      Session.LongPress "1700000000000" true; Session.Mount 7 8 ] in
  ∃ st' store',
    Session.run actions st store = Some (st', store') ∧
    workouts st' ≠ [] ∧
    ∃ w, selectedWorkout st' = Some w ∧ w ∈ workouts st'.
Proof.
  intros st store actions.
  destruct (X3_session_keeps_selection actions st store)
    as (st' & store' & Hrun & _ & Hne & _ & Hw & _).
  - apply SessionFacts.sound_intro.
    + split; [reflexivity|]. split; [discriminate|].
      split; [apply (bool_decide_unpack _); reflexivity|].
      repeat constructor; unfold maxTime; simpl; lia.
    + apply (bool_decide_unpack _). reflexivity.
    + reflexivity.
  - apply SessionFacts.all_fresh_next; [exact I | intros ? ? [= <- <-]].
    apply SessionFacts.all_fresh_next; [exact I | intros ? ? [= <- <-]].
    apply SessionFacts.all_fresh_next;
      [split; [apply (bool_decide_unpack _); vm_compute; exact I | unfold maxTime; lia]
      | intros ? ? _].
    apply SessionFacts.all_fresh_next; [exact I | intros ? ? _].
    apply SessionFacts.all_fresh_next; [exact I | intros ? ? _; exact I].
  - apply SessionFacts.all_offered_next;
      [cbn [Session.offered]; apply (bool_decide_unpack _); vm_compute; exact I
      | intros ? ? _].
    repeat (apply SessionFacts.all_offered_next; [exact I | intros ? ? _]).
    exact I.
  - exists st', store'. split; [exact Hrun|]. split; [exact Hne | exact Hw].
Defined.

(** X4.  On a store that holds neither a collection nor a selection (a new
    installation), the first mount seeds the defaults, and the screen is
    then in step with the store: the selection names a workout, and
    mounting again shows the defaults with the same selection.  The same
    holds after any session that follows, as long as the creations take
    readings that are not yet ids and the taps are on listed workouts. *)
Theorem X4_new_installation (loaded1 loaded2 : Z) (actions : list Session.Action)
    (st : State) (store : gmap string string) :
  store !! STORAGE_KEY = None → store !! SELECTED_WORKOUT_KEY = None →
  - maxTime ≤ loaded1 ≤ maxTime → - maxTime ≤ loaded2 ≤ maxTime →
  Session.all_fresh (Session.Mount loaded1 loaded2 :: actions) st store →
  Session.all_offered (Session.Mount loaded1 loaded2 :: actions) st store →
  ∃ st' store',
    Session.run (Session.Mount loaded1 loaded2 :: actions) st store = Some (st', store') ∧
    Session.sound st' store'.
Proof.
  intros Hw Hsel H1 H2 [_ Hf] [_ Ho].
  destruct (SessionFacts.first_mount_sound loaded1 loaded2 st store Hw Hsel H1 H2)
    as (st1 & store1 & Hstep & Hs1).
  cbn [Session.run]. rewrite Hstep in *.
  destruct (SessionFacts.run_keeps_sound actions st1 store1 Hs1 Hf Ho)
    as (st' & store' & Hrun & Hs').
  now exists st', store'.
Qed.

Lemma X4_new_installation_witness :
  ∃ st' store',
    Session.run
      [ Session.Mount 1699999990000 1699999990000; Session.TypeName "Legs";
        Session.LongPress "2" true ] initial ∅
    = Some (st', store') ∧
    Session.sound st' store'.
Proof.
  apply (X4_new_installation 1699999990000 1699999990000
           [Session.TypeName "Legs"; Session.LongPress "2" true] initial ∅).
  - reflexivity.
  - reflexivity.
  - unfold maxTime. lia.
  - unfold maxTime. lia.
  - repeat (apply SessionFacts.all_fresh_next; [exact I | intros ? ? _]). exact I.
  - repeat (apply SessionFacts.all_offered_next; [exact I | intros ? ? _]). exact I.
Defined.

(** X5.  Two calls of [updateExercises] in a row leave the state and the
    store exactly as the second call alone would: the exercises handed
    over last replace the ones handed over first, and the collection is
    written once more under the same key.  When no workout carries the
    selected id, the exercises handed over are dropped: the collection in
    the state is left as it is. *)
Theorem X5_updateExercises_last_wins (first second : list Exercise.t) (st : State)
    (store : gmap string string) :
  let '(st1, store1) := updateWorkoutExercises first st store in
  updateWorkoutExercises second st1 store1 = updateWorkoutExercises second st store ∧
  (selectedWorkout st = None → st1 = st).
Proof.
  unfold updateWorkoutExercises. split.
  - cbn [workouts selectedWorkoutId setWorkouts].
    assert (map (λ workout,
                   if decide (Workout.id workout = selectedWorkoutId st)
                   then Workout.mk (Workout.id workout) (Workout.name workout) second
                          (Workout.createdAt workout)
                   else workout)
              (map (λ workout,
                      if decide (Workout.id workout = selectedWorkoutId st)
                      then Workout.mk (Workout.id workout) (Workout.name workout) first
                             (Workout.createdAt workout)
                      else workout) (workouts st))
            = map (λ workout,
                     if decide (Workout.id workout = selectedWorkoutId st)
                     then Workout.mk (Workout.id workout) (Workout.name workout) second
                            (Workout.createdAt workout)
                     else workout) (workouts st)) as ->.
    { rewrite map_map. apply map_ext. intros w.
      destruct (decide (Workout.id w = selectedWorkoutId st)) as [E|E];
        cbn [Workout.id Workout.name Workout.createdAt].
      - destruct (decide (Workout.id w = selectedWorkoutId st)); [reflexivity | contradiction].
      - destruct (decide (Workout.id w = selectedWorkoutId st)); [contradiction | reflexivity]. }
    unfold setWorkouts, saveWorkouts, AsyncStorage.setItem. cbn [workouts selectedWorkoutId
      showCreateModal newWorkoutName isLoading].
    now rewrite insert_insert_eq.
  - intros Hnone. unfold selectedWorkout, find_workout in Hnone.
    assert (map (λ workout,
                   if decide (Workout.id workout = selectedWorkoutId st)
                   then Workout.mk (Workout.id workout) (Workout.name workout) first
                          (Workout.createdAt workout)
                   else workout) (workouts st) = workouts st) as ->.
    { rewrite <- (map_id (workouts st)) at 2. apply map_ext_in. intros w Hw.
      destruct (decide (Workout.id w = selectedWorkoutId st)) as [E|_]; [|reflexivity].
      exfalso. eapply find_none in Hnone; [|exact Hw].
      now apply bool_decide_eq_false in Hnone. }
    now destruct st.
Qed.

(** X6.  Creating a workout, with a reading that is not yet an id, and
    then deleting it again (the deletion is offered, the collection was not
    empty) gives back the collection as it was, in the state and in the
    store.  The selection does not go back to the workout that was selected
    before: it is the id of the first workout, in the state and in the
    store. *)
Theorem X6_create_then_delete (now created : Z) (st : State)
    (store : gmap string string) :
  ¬ Spec.blank (newWorkoutName st) →
  workouts st ≠ [] →
  Number_toString now ∉ map Workout.id (workouts st) →
  let '(st1, store1, _) := createNewWorkout now created st store in
  deleteWorkout st1 (Number_toString now)
  = Question (alert "Delete Workout" "Are you sure you want to delete this workout?")
      (deleteWorkout_onPress st1 (Number_toString now)) ∧
  let '(st2, store2) := deleteWorkout_onPress st1 (Number_toString now) store1 in
  workouts st2 = workouts st ∧
  selectedWorkoutId st2 = first_id (workouts st) ∧
  store2 !! STORAGE_KEY = Some (stringify (JArr (map Workout_toJSON (workouts st)))) ∧
  store2 !! SELECTED_WORKOUT_KEY = Some (first_id (workouts st)).
Proof.
  intros Hname Hne Hfresh. unfold createNewWorkout.
  rewrite JSFacts.trim_not_blank by assumption. cbn [negb].
  split.
  - apply ManagerFacts.deleteWorkout_asked.
    cbn [workouts setWorkouts setSelectedWorkoutId setNewWorkoutName setShowCreateModal].
    rewrite length_app. destruct (workouts st); [contradiction | simpl; lia].
  - unfold deleteWorkout_onPress.
    cbn [workouts selectedWorkoutId setWorkouts setSelectedWorkoutId setNewWorkoutName
         setShowCreateModal Workout.id].
    pose proof (KeyedFacts.filter_appended Workout.id
                  (Workout.mk (Number_toString now) (trim (newWorkoutName st)) []
                     (DateValue created)) (workouts st) Hfresh) as Hf.
    cbn [Workout.id] in Hf. rewrite Hf.
    destruct (decide (Number_toString now = Number_toString now)) as [_|E];
      [|contradiction E; reflexivity].
    destruct (decide (first_id (workouts st) ≠ Number_toString now)) as [_|E].
    + cbn [workouts selectedWorkoutId setWorkouts setSelectedWorkoutId].
      split; [reflexivity|]. split; [reflexivity|]. split.
      * rewrite ManagerFacts.saveSelectedWorkout_other by discriminate.
        unfold saveWorkouts at 1, AsyncStorage.setItem. apply lookup_insert_eq.
      * unfold saveSelectedWorkout at 1, AsyncStorage.setItem. apply lookup_insert_eq.
    + exfalso. apply dec_stable in E. apply Hfresh. rewrite <- E.
      now apply SessionFacts.first_id_listed.
Qed.

Lemma X6_create_then_delete_witness :
  let st := mkState (DEFAULT_WORKOUTS 5 6) "2" true "Legs" false in
  let '(st1, store1, _) := createNewWorkout 1700000000000 1700000000001 st ∅ in
  let '(st2, store2) := deleteWorkout_onPress st1 "1700000000000" store1 in
  workouts st2 = DEFAULT_WORKOUTS 5 6 ∧ selectedWorkoutId st2 = "1" ∧
  store2 !! SELECTED_WORKOUT_KEY = Some "1".
Proof.
  intros st.
  pose proof (X6_create_then_delete 1700000000000 1700000000001 st ∅) as H.
  change (Number_toString 1700000000000) with "1700000000000" in H.
  destruct (createNewWorkout 1700000000000 1700000000001 st ∅) as [[st1 store1] notice].
  destruct H as [_ H].
  - simpl. intros (_ & H & _). discriminate H.
  - discriminate.
  - apply (bool_decide_unpack _). vm_compute. exact I.
  - destruct (deleteWorkout_onPress st1 "1700000000000" store1) as [st2 store2].
    destruct H as (Hw & Hsel & _ & Hstored).
    split; [exact Hw|]. split; [exact Hsel | exact Hstored].
Defined.

(** X7.  After a workout is created with a reading that is not yet an id,
    the workout that is selected and shown is the new one, with no
    exercise.  An exercise then added from the screen goes to the new
    workout and to no other: the collection is the former one followed by
    the new workout with that one exercise, and this collection is what the
    store holds. *)
Theorem X7_exercise_goes_to_new_workout (now created added : Z) (st : State)
    (store : gmap string string) :
  ¬ Spec.blank (newWorkoutName st) →
  Number_toString now ∉ map Workout.id (workouts st) →
  let '(st1, store1, _) := createNewWorkout now created st store in
  let new := Workout.mk (Number_toString now) (trim (newWorkoutName st)) []
               (DateValue created) in
  selectedWorkout st1 = Some new ∧
  let '(list1, (st2, store2)) :=
    Screen.addExercise added (ExerciseList.initial (Workout.exercises new)) st1 store1 in
  let exercise := Exercise.mk (Number_toString added) "New Exercise" 3 10 0 in
  ExerciseList.exercises list1 = [exercise] ∧
  workouts st2
  = workouts st ++ [Workout.mk (Number_toString now) (trim (newWorkoutName st))
                      [exercise] (DateValue created)] ∧
  store2 !! STORAGE_KEY = Some (stringify (JArr (map Workout_toJSON (workouts st2)))).
Proof.
  intros Hname Hfresh. unfold createNewWorkout.
  rewrite JSFacts.trim_not_blank by assumption. cbn [negb]. cbv zeta.
  split.
  - unfold selectedWorkout.
    cbn [workouts selectedWorkoutId setWorkouts setSelectedWorkoutId setNewWorkoutName
         setShowCreateModal Workout.id].
    now apply SessionFacts.find_workout_appended.
  - unfold Screen.addExercise, ExerciseList.addNewExercise, ExerciseList.initial,
      updateWorkoutExercises.
    cbn [workouts selectedWorkoutId setWorkouts setSelectedWorkoutId setNewWorkoutName
         setShowCreateModal Workout.id Workout.exercises ExerciseList.exercises app].
    split; [reflexivity|]. split.
    + rewrite map_app. f_equal.
      * rewrite <- (map_id (workouts st)) at 2. apply map_ext_in. intros w Hw.
        destruct (decide (Workout.id w = Number_toString now)) as [E|_]; [|reflexivity].
        exfalso. apply Hfresh. rewrite <- E.
        change (@map) with (@fmap list _). apply list_elem_of_fmap.
        exists w. split; [reflexivity | now apply list_elem_of_In].
      * simpl. destruct (decide (Number_toString now = Number_toString now)) as [_|E];
          [reflexivity | contradiction E; reflexivity].
    + unfold saveWorkouts at 1, AsyncStorage.setItem. apply lookup_insert_eq.
Qed.

Lemma X7_exercise_goes_to_new_workout_witness :
  let st := mkState (DEFAULT_WORKOUTS 5 6) "2" true " Legs " false in
  let '(st1, store1, _) := createNewWorkout 1700000000000 1700000000001 st ∅ in
  let '(list1, (st2, store2)) :=
    Screen.addExercise 1700000000777 (ExerciseList.initial []) st1 store1 in
  workouts st2
  = DEFAULT_WORKOUTS 5 6
    ++ [Workout.mk "1700000000000" "Legs"
          [Exercise.mk "1700000000777" "New Exercise" 3 10 0]
          (DateValue 1700000000001)].
Proof.
  intros st.
  pose proof (X7_exercise_goes_to_new_workout 1700000000000 1700000000001
                1700000000777 st ∅) as H.
  destruct (createNewWorkout 1700000000000 1700000000001 st ∅) as [[st1 store1] notice].
  cbv zeta in H. destruct H as [_ H].
  - simpl. intros (_ & H & _). discriminate H.
  - apply (bool_decide_unpack _). vm_compute. exact I.
  - cbn [Workout.exercises] in H.
    destruct (Screen.addExercise 1700000000777 (ExerciseList.initial []) st1 store1)
      as [list1 [st2 store2]].
    destruct H as (_ & Hw & _). exact Hw.
Defined.

(** X8.  A stored history text that is there but cannot be used, because
    [JSON.parse] throws on it or because it is the JSON of a value that is
    neither an array nor a string, is left alone: [complete] announces the
    failure and writes nothing, and the progress viewer, reading it, keeps
    the list it shows and leaves its loading state. *)
Theorem X8_unreadable_history (now completed : Z) (workout : Workout.t)
    (viewer : ProgressList.State) (store : gmap string string) (text : string) :
  store !! PROGRESS_KEY = Some text →
  text ≠ EmptyString →
  parse text = Throws ∨
  (∃ j, parse text = Returns j ∧ (∀ items, j ≠ JArr items) ∧ (∀ s, j ≠ JStr s)) →
  saveWorkoutSession now completed workout store
  = Some (store, alert "Error" "Failed to save workout progress") ∧
  ProgressList.loadSessions viewer store
  = Some (ProgressList.mkState (ProgressList.sessions viewer) false).
Proof.
  intros Hs Hne Hbad.
  assert (present (store !! PROGRESS_KEY) = Some text) as Hp
    by (rewrite Hs; destruct text; [contradiction | reflexivity]).
  split.
  - unfold saveWorkoutSession, AsyncStorage.getItem. rewrite Hp.
    destruct Hbad as [-> | (j & -> & Harr & Hstr)]; [reflexivity|].
    destruct j; try reflexivity.
    + now contradiction (Hstr s).
    + now contradiction (Harr items).
  - unfold ProgressList.loadSessions, AsyncStorage.getItem.
    change ProgressList.PROGRESS_KEY with PROGRESS_KEY. rewrite Hp.
    unfold parse_and_restore.
    destruct Hbad as [-> | (j & -> & Harr & Hstr)]; [reflexivity|].
    destruct j; try reflexivity. now contradiction (Harr items).
Qed.

Lemma X8_unreadable_history_witness :
  let workout := Workout.mk "1" "Push Day" [Exercise.mk "1" "Bench Press" 3 10 60]
                   (DateValue 5) in
  let broken : gmap string string := {[ PROGRESS_KEY := "{oops" ]} in
  let number : gmap string string := {[ PROGRESS_KEY := " 7 " ]} in
  (saveWorkoutSession 1700000000000 1700000000001 workout broken
   = Some (broken, alert "Error" "Failed to save workout progress") ∧
   ProgressList.loadSessions ProgressList.initial broken
   = Some (ProgressList.mkState [] false)) ∧
  (saveWorkoutSession 1700000000000 1700000000001 workout number
   = Some (number, alert "Error" "Failed to save workout progress") ∧
   ProgressList.loadSessions ProgressList.initial number
   = Some (ProgressList.mkState [] false)).
Proof.
  intros workout broken number. split.
  - apply (X8_unreadable_history 1700000000000 1700000000001 workout
             ProgressList.initial broken "{oops").
    + apply lookup_singleton_eq.
    + discriminate.
    + left. reflexivity.
  - apply (X8_unreadable_history 1700000000000 1700000000001 workout
             ProgressList.initial number " 7 ").
    + apply lookup_singleton_eq.
    + discriminate.
    + right. exists (JNum 7). split; [reflexivity|]. split; discriminate.
Defined.

(** X9.  [updateExercise] keeps the number, the order and the ids of the
    exercises and the mark of the newly added one, and hands the new
    sequence to [onUpdateExercises].  When the ids are pairwise distinct
    the exercise that carries the id of the updated one is replaced, at its
    place, and every other exercise is left as it is; when no exercise
    carries that id nothing changes. *)
Theorem X9_updateExercise_replaces_by_id (updated : Exercise.t)
    (st : ExerciseList.State) :
  let '(st', sent) := ExerciseList.updateExercise updated st in
  sent = ExerciseList.exercises st' ∧
  ExerciseList.newlyAddedId st' = ExerciseList.newlyAddedId st ∧
  map Exercise.id (ExerciseList.exercises st') = map Exercise.id (ExerciseList.exercises st) ∧
  (Exercise.id updated ∉ map Exercise.id (ExerciseList.exercises st) →
     ExerciseList.exercises st' = ExerciseList.exercises st) ∧
  (∀ k e, NoDup (map Exercise.id (ExerciseList.exercises st)) →
     ExerciseList.exercises st !! k = Some e → Exercise.id e = Exercise.id updated →
     ExerciseList.exercises st' = <[k := updated]> (ExerciseList.exercises st)).
Proof.
  unfold ExerciseList.updateExercise. cbn [ExerciseList.exercises ExerciseList.newlyAddedId].
  split; [reflexivity|]. split; [reflexivity|]. split; [|split].
  - apply (KeyedFacts.replace_keeps_keys Exercise.id).
  - apply (KeyedFacts.replace_absent Exercise.id).
  - intros k e. apply (KeyedFacts.replace_at Exercise.id).
Qed.

(** X10.  [deleteExercise] keeps, in their order, exactly the exercises
    whose id is not the given one, keeps the mark of the newly added one
    (also when that one is deleted), and hands the new sequence to
    [onUpdateExercises].  When the ids are pairwise distinct one exercise
    is removed, at its place; when no exercise carries the id nothing
    changes. *)
Theorem X10_deleteExercise_removes_by_id (i : string) (st : ExerciseList.State) :
  let '(st', sent) := ExerciseList.deleteExercise i st in
  sent = ExerciseList.exercises st' ∧
  ExerciseList.newlyAddedId st' = ExerciseList.newlyAddedId st ∧
  (i ∉ map Exercise.id (ExerciseList.exercises st')) ∧
  ExerciseList.exercises st' `sublist_of` ExerciseList.exercises st ∧
  (∀ e, e ∈ ExerciseList.exercises st'
        ↔ e ∈ ExerciseList.exercises st ∧ Exercise.id e ≠ i) ∧
  (i ∉ map Exercise.id (ExerciseList.exercises st) →
     ExerciseList.exercises st' = ExerciseList.exercises st) ∧
  (∀ k e, NoDup (map Exercise.id (ExerciseList.exercises st)) →
     ExerciseList.exercises st !! k = Some e → Exercise.id e = i →
     ExerciseList.exercises st' = delete k (ExerciseList.exercises st)).
Proof.
  unfold ExerciseList.deleteExercise. cbn [ExerciseList.exercises ExerciseList.newlyAddedId].
  split; [reflexivity|]. split; [reflexivity|]. split; [|split; [|split; [|split]]].
  - apply (KeyedFacts.filter_none_left Exercise.id).
  - apply sublist_filter.
  - intros e. rewrite list_elem_of_filter. tauto.
  - apply (KeyedFacts.filter_absent Exercise.id).
  - intros k e Hnd Hk <-. now apply (KeyedFacts.filter_at Exercise.id).
Qed.

(** X11.  Adding an exercise, with a reading that is not yet an id, and
    deleting it again gives back the sequence as it was, and that sequence
    is what is handed to [onUpdateExercises]; the mark still names the
    deleted exercise. *)
Theorem X11_add_then_delete (now : Z) (st : ExerciseList.State) :
  Number_toString now ∉ map Exercise.id (ExerciseList.exercises st) →
  let '(st1, _) := ExerciseList.addNewExercise now st in
  let '(st2, sent) := ExerciseList.deleteExercise (Number_toString now) st1 in
  ExerciseList.exercises st2 = ExerciseList.exercises st ∧
  sent = ExerciseList.exercises st ∧
  ExerciseList.newlyAddedId st2 = Some (Number_toString now).
Proof.
  intros Hfresh. unfold ExerciseList.addNewExercise, ExerciseList.deleteExercise.
  cbn [ExerciseList.exercises ExerciseList.newlyAddedId Exercise.id].
  pose proof (KeyedFacts.filter_appended Exercise.id
                (Exercise.mk (Number_toString now) "New Exercise" 3 10 0)
                (ExerciseList.exercises st) Hfresh) as Hf.
  cbn [Exercise.id] in Hf. rewrite Hf. repeat split.
Qed.

Lemma X11_add_then_delete_witness :
  let st := ExerciseList.initial [Exercise.mk "1" "Bench Press" 3 10 60] in
  let '(st1, _) := ExerciseList.addNewExercise 1700000000000 st in
  let '(st2, sent) := ExerciseList.deleteExercise "1700000000000" st1 in
  ExerciseList.exercises st2 = [Exercise.mk "1" "Bench Press" 3 10 60] ∧
  sent = [Exercise.mk "1" "Bench Press" 3 10 60] ∧
  ExerciseList.newlyAddedId st2 = Some "1700000000000".
Proof.
  intros st.
  apply (X11_add_then_delete 1700000000000 st).
  apply (bool_decide_unpack _). vm_compute. exact I.
Defined.

(** X12.  [add] with a reading that is not yet an id, on a sequence whose
    ids are pairwise distinct: the ids stay pairwise distinct, and of the
    exercises listed exactly the new one is marked for editing. *)
Theorem X12_add_marks_only_the_new_one (now : Z) (st : ExerciseList.State) :
  NoDup (map Exercise.id (ExerciseList.exercises st)) →
  Number_toString now ∉ map Exercise.id (ExerciseList.exercises st) →
  let '(st', sent) := ExerciseList.addNewExercise now st in
  let added := Exercise.mk (Number_toString now) "New Exercise" 3 10 0 in
  NoDup (map Exercise.id (ExerciseList.exercises st')) ∧
  added ∈ ExerciseList.exercises st' ∧
  (∀ e, e ∈ ExerciseList.exercises st' →
        ExerciseList.isEditing st' e = true ↔ e = added).
Proof.
  intros Hnd Hfresh.
  pose proof (ExerciseFacts.addNewExercise_fresh now st Hfresh Hnd) as Hnd'.
  unfold ExerciseList.addNewExercise in *. cbn [fst ExerciseList.exercises] in *.
  split; [exact Hnd'|]. split.
  - apply elem_of_app. right. apply list_elem_of_here.
  - intros e He. unfold ExerciseList.isEditing.
    cbn [ExerciseList.newlyAddedId Exercise.id]. rewrite bool_decide_eq_true. split.
    + intros Hid. apply elem_of_app in He as [He|He].
      * exfalso. apply Hfresh. rewrite Hid.
        change (@map) with (@fmap list _). apply list_elem_of_fmap. now exists e.
      * now apply list_elem_of_singleton in He.
    + now intros ->.
Qed.

Lemma X12_add_marks_only_the_new_one_witness :
  let st := ExerciseList.initial [Exercise.mk "1" "Bench Press" 3 10 60] in
  let '(st', sent) := ExerciseList.addNewExercise 1700000000000 st in
  NoDup (map Exercise.id (ExerciseList.exercises st')) ∧
  ExerciseList.isEditing st' (Exercise.mk "1" "Bench Press" 3 10 60) = false.
Proof.
  intros st.
  pose proof (X12_add_marks_only_the_new_one 1700000000000 st) as H.
  destruct (ExerciseList.addNewExercise 1700000000000 st) as [st' sent] eqn:E.
  destruct H as (Hnd & _ & _).
  - apply (bool_decide_unpack _). vm_compute. exact I.
  - apply (bool_decide_unpack _). vm_compute. exact I.
  - split; [exact Hnd|]. injection E as <- _. reflexivity.
Defined.

(** X13.  The [onUpdate] handler of an item updates the exercise as
    [updateExercise] does.  When the item is the one marked as newly added,
    the mark is cleared, and no item is marked any more; when it is not,
    the mark stays. *)
Theorem X13_saving_the_new_item_clears_the_mark (item updated : Exercise.t)
    (st : ExerciseList.State) :
  let '(st', sent) := ExerciseList.renderExerciseItem_onUpdate item updated st in
  sent = ExerciseList.exercises st' ∧
  ExerciseList.exercises st' = ExerciseList.exercises (ExerciseList.updateExercise updated st).1 ∧
  (ExerciseList.isEditing st item = true →
     ExerciseList.newlyAddedId st' = None ∧ ∀ e, ExerciseList.isEditing st' e = false) ∧
  (ExerciseList.isEditing st item = false →
     ExerciseList.newlyAddedId st' = ExerciseList.newlyAddedId st).
Proof.
  unfold ExerciseList.renderExerciseItem_onUpdate, ExerciseList.updateExercise,
    ExerciseList.isEditing.
  destruct (decide (ExerciseList.newlyAddedId st = Some (Exercise.id item))) as [E|E];
    cbn [fst ExerciseList.exercises ExerciseList.newlyAddedId];
    (split; [reflexivity|]); (split; [reflexivity|]).
  - split; [intros _; now split|]. rewrite E. intros H.
    apply bool_decide_eq_false in H. now contradiction H.
  - split; [|reflexivity]. destruct (ExerciseList.newlyAddedId st) as [i|]; [|discriminate].
    intros H. apply bool_decide_eq_true in H. subst i. now contradiction E.
Qed.

(** X14.  While a workout is selected, each operation of the exercise list
    (adding an exercise, saving an item, deleting an item) leaves the list,
    the manager and the store in step: the exercises the list holds are the
    exercises of the selected workout in the manager's state, the store
    holds the manager's collection, and the effect that copies the
    exercises of the selected workout into the list changes nothing. *)
Theorem X14_list_manager_store_in_step (now : Z) (item : Exercise.t)
    (it : ExerciseItem.State) (list : ExerciseList.State) (st : State)
    (store : gmap string string) (w : Workout.t) :
  selectedWorkout st = Some w →
  let in_step (list' : ExerciseList.State) (st' : State) (store' : gmap string string) :=
    Screen.rendered list' st' ∧
    store' !! STORAGE_KEY = Some (stringify (JArr (map Workout_toJSON (workouts st')))) ∧
    (∃ w', selectedWorkout st' = Some w' ∧
           ExerciseList.syncExercises (Workout.exercises w') list' = list') in
  (let '(list', (st', store')) := Screen.addExercise now list st store in
   in_step list' st' store') ∧
  (let '(_, list', (st', store')) := Screen.saveItem item it list st store in
   in_step list' st' store') ∧
  (let '(list', (st', store')) := Screen.deleteItem item list st store in
   in_step list' st' store').
Proof.
  intros Hw in_step. subst in_step. cbv beta. split; [|split].
  - unfold Screen.addExercise, ExerciseList.addNewExercise.
    now apply (ScreenFacts.rendered_updated _ _ st store w).
  - unfold Screen.saveItem, ExerciseItem.handleSave,
      ExerciseList.renderExerciseItem_onUpdate, ExerciseList.updateExercise.
    apply (ScreenFacts.rendered_updated _ _ st store w); [assumption|].
    now destruct (decide _).
  - unfold Screen.deleteItem, ExerciseList.deleteExercise.
    now apply (ScreenFacts.rendered_updated _ _ st store w).
Qed.

Lemma X14_list_manager_store_in_step_witness :
  let st := mkState (DEFAULT_WORKOUTS 5 6) "2" false EmptyString false in
  let list := ExerciseList.initial [Exercise.mk "3" "Pull-ups" 4 8 0;
                                    Exercise.mk "4" "Rows" 3 10 40] in
  let '(list', (st', store')) := Screen.deleteItem (Exercise.mk "3" "Pull-ups" 4 8 0) list st ∅ in
  Screen.rendered list' st' ∧
  store' !! STORAGE_KEY = Some (stringify (JArr (map Workout_toJSON (workouts st')))).
Proof.
  intros st list.
  pose proof (X14_list_manager_store_in_step 0 (Exercise.mk "3" "Pull-ups" 4 8 0)
                (ExerciseItem.initial (Exercise.mk "3" "Pull-ups" 4 8 0) None)
                list st ∅ _ eq_refl) as (_ & _ & H).
  destruct (Screen.deleteItem _ list st ∅) as [list' [st' store']].
  destruct H as (H1 & H2 & _). split; assumption.
Defined.

(** X15.  The sets and reps inputs read back what they show.  The text an
    integer of at most 2^53 in absolute value is shown as
    ([toString]), followed by any text that does not go on with a digit
    (and, after a lone 0, not with the letter x), is read by
    [parseInt(text) || 0] as that integer, and the input handlers store
    it in the edited exercise. *)
Theorem X15_number_inputs_read_back (n : Z) (tail : string)
    (st : ExerciseItem.State) :
  - 2 ^ 53 ≤ n ≤ 2 ^ 53 →
  no_digit_ahead tail →
  (n = 0 → match tail with String c _ => is_x c = false | EmptyString => True end) →
  parseInt (Number_toString n +:+ tail) = Integer n ∧
  ExerciseItem.onChangeSets (Number_toString n +:+ tail) st
  = Some (ExerciseItem.updateField (ExerciseItem.sets n) st) ∧
  ExerciseItem.onChangeReps (Number_toString n +:+ tail) st
  = Some (ExerciseItem.updateField (ExerciseItem.reps n) st).
Proof.
  intros Hn Htail Hx.
  assert (parseInt (Number_toString n +:+ tail) = Integer n) as Hp
    by (apply InputFacts.parseInt_Number_toString; [exact Hn | assumption | assumption]).
  unfold ExerciseItem.onChangeSets, ExerciseItem.onChangeReps, parseInt_or_zero.
  rewrite Hp. repeat split.
Qed.

Lemma X15_number_inputs_read_back_witness :
  let st := ExerciseItem.initial (Exercise.mk "1" "Bench Press" 3 10 60) (Some true) in
  ExerciseItem.onChangeSets "12 sets" st
  = Some (ExerciseItem.mkState true (Exercise.mk "1" "Bench Press" 12 10 60)) ∧
  ExerciseItem.onChangeReps "-4" st
  = Some (ExerciseItem.mkState true (Exercise.mk "1" "Bench Press" 3 (-4) 60)).
Proof.
  intros st. split.
  - apply (X15_number_inputs_read_back 12 " sets" st); [lia | reflexivity | discriminate].
  - apply (X15_number_inputs_read_back (-4) EmptyString st); [lia | exact I | discriminate].
Defined.

(** X16.  A text that, after leading white space and one sign, does not go
    on with a digit (the empty text, white space, letters) is not a number
    for [parseInt], and the sets and reps inputs store 0 for it. *)
Theorem X16_number_inputs_default_to_zero (text : string)
    (st : ExerciseItem.State) :
  no_digit_ahead (strip_sign (trimStart text)).2 →
  parseInt text = NotANumber ∧
  ExerciseItem.onChangeSets text st
  = Some (ExerciseItem.updateField (ExerciseItem.sets 0) st) ∧
  ExerciseItem.onChangeReps text st
  = Some (ExerciseItem.updateField (ExerciseItem.reps 0) st).
Proof.
  intros H. apply InputFacts.parseInt_no_digit in H.
  unfold ExerciseItem.onChangeSets, ExerciseItem.onChangeReps, parseInt_or_zero.
  rewrite H. repeat split.
Qed.

Lemma X16_number_inputs_default_to_zero_witness :
  let st := ExerciseItem.initial (Exercise.mk "1" "Bench Press" 3 10 60) (Some true) in
  ExerciseItem.onChangeSets EmptyString st
  = Some (ExerciseItem.mkState true (Exercise.mk "1" "Bench Press" 0 10 60)) ∧
  ExerciseItem.onChangeReps " -many" st
  = Some (ExerciseItem.mkState true (Exercise.mk "1" "Bench Press" 3 0 60)).
Proof.
  intros st. split.
  - apply (X16_number_inputs_default_to_zero EmptyString st). exact I.
  - apply (X16_number_inputs_default_to_zero " -many" st). reflexivity.
Defined.

(** X17.  No edit made in an item changes the id of the exercise it
    edits.  So when the ids of the list are pairwise distinct and the item
    shows the exercise at some place of the list, Save, after any edits,
    puts the edited exercise at that place and leaves every other exercise
    and all the ids as they are; the item leaves its edit mode. *)
Theorem X17_save_replaces_the_item (es : list ExerciseItem.Edit) (item : Exercise.t)
    (k : nat) (mark : option bool) (it : ExerciseItem.State)
    (list : ExerciseList.State) (st : State) (store : gmap string string) :
  NoDup (map Exercise.id (ExerciseList.exercises list)) →
  ExerciseList.exercises list !! k = Some item →
  ExerciseItem.edits es (ExerciseItem.initial item mark) = Some it →
  let '(it', list', _) := Screen.saveItem item it list st store in
  Exercise.id (ExerciseItem.editedExercise it) = Exercise.id item ∧
  ExerciseItem.isEditing it' = false ∧
  ExerciseItem.editedExercise it' = ExerciseItem.editedExercise it ∧
  ExerciseList.exercises list'
  = <[k := ExerciseItem.editedExercise it]> (ExerciseList.exercises list) ∧
  map Exercise.id (ExerciseList.exercises list')
  = map Exercise.id (ExerciseList.exercises list).
Proof.
  intros Hnd Hk Hedits.
  destruct (ItemFacts.edits_keep_id es _ it Hedits) as [Hid _].
  cbn [ExerciseItem.initial ExerciseItem.editedExercise] in Hid.
  unfold Screen.saveItem, ExerciseItem.handleSave,
    ExerciseList.renderExerciseItem_onUpdate, ExerciseList.updateExercise.
  cbn [ExerciseItem.isEditing ExerciseItem.editedExercise].
  assert (ExerciseList.exercises
            (if decide (ExerciseList.newlyAddedId list = Some (Exercise.id item))
             then ExerciseList.mkState
                    (ExerciseList.exercises
                       (ExerciseList.mkState
                          (map (λ exercise,
                                  if decide (Exercise.id exercise
                                             = Exercise.id (ExerciseItem.editedExercise it))
                                  then ExerciseItem.editedExercise it else exercise)
                             (ExerciseList.exercises list))
                          (ExerciseList.newlyAddedId list))) None
             else ExerciseList.mkState
                    (map (λ exercise,
                            if decide (Exercise.id exercise
                                       = Exercise.id (ExerciseItem.editedExercise it))
                            then ExerciseItem.editedExercise it else exercise)
                       (ExerciseList.exercises list))
                    (ExerciseList.newlyAddedId list))
          = map (λ exercise,
                   if decide (Exercise.id exercise
                              = Exercise.id (ExerciseItem.editedExercise it))
                   then ExerciseItem.editedExercise it else exercise)
              (ExerciseList.exercises list)) as ->
    by now destruct (decide _).
  split; [exact Hid|]. split; [reflexivity|]. split; [reflexivity|]. split.
  - apply (KeyedFacts.replace_at Exercise.id _ item); [assumption | assumption |].
    now rewrite Hid.
  - apply (KeyedFacts.replace_keeps_keys Exercise.id).
Qed.

Lemma X17_save_replaces_the_item_witness :
  let item := Exercise.mk "4" "Rows" 3 10 40 in
  let list := ExerciseList.initial [Exercise.mk "3" "Pull-ups" 4 8 0; item] in
  let st := mkState (DEFAULT_WORKOUTS 5 6) "2" false EmptyString false in
  let it := ExerciseItem.mkState false (Exercise.mk "4" "Barbell Rows" 5 10 45) in
  let '(it', list', _) := Screen.saveItem item it list st ∅ in
  ExerciseList.exercises list'
  = [Exercise.mk "3" "Pull-ups" 4 8 0; Exercise.mk "4" "Barbell Rows" 5 10 45].
Proof.
  intros item list st it.
  pose proof (X17_save_replaces_the_item
                [ExerciseItem.TypeName "Barbell Rows"; ExerciseItem.TypeSets "5";
                 ExerciseItem.TypeWeight "45"]
                item 1 None it list st ∅) as H.
  destruct (Screen.saveItem item it list st ∅) as [[it' list'] r].
  destruct H as (_ & _ & _ & H & _).
  - apply (bool_decide_unpack _). vm_compute. exact I.
  - reflexivity.
  - reflexivity.
  - exact H.
Defined.

(** X18.  A confirmed [delete(sessionId)] in the progress viewer, on a list
    whose completion times are timestamps, raises no alert, leaves no
    session with that id in the list, keeps every other session in its
    order, and writes the list under the history key only; the next poll
    reads that same list back, so a deleted session does not come back. *)
Theorem X18_deleted_session_stays_deleted (viewer : ProgressList.State)
    (sessionId : string) (store : gmap string string) :
  Forall (λ x, Spec.timestamp (WorkoutSession.completedAt x))
    (ProgressList.sessions viewer) →
  let '(viewer', store', notice) :=
    ProgressList.deleteSession_onPress viewer sessionId store in
  notice = None ∧
  (sessionId ∉ map WorkoutSession.id (ProgressList.sessions viewer')) ∧
  ProgressList.sessions viewer' `sublist_of` ProgressList.sessions viewer ∧
  (∀ x, x ∈ ProgressList.sessions viewer'
        ↔ x ∈ ProgressList.sessions viewer ∧ WorkoutSession.id x ≠ sessionId) ∧
  ProgressList.loadSessions viewer' store'
  = Some (ProgressList.mkState (ProgressList.sessions viewer') false) ∧
  (∀ k, k ≠ ProgressList.PROGRESS_KEY → store' !! k = store !! k).
Proof.
  intros Hvalid. unfold ProgressList.deleteSession_onPress.
  cbn [ProgressList.sessions].
  split; [reflexivity|]. split; [|split; [|split; [|split]]].
  - apply (KeyedFacts.filter_none_left WorkoutSession.id).
  - apply sublist_filter.
  - intros x. rewrite list_elem_of_filter. tauto.
  - apply ProgressFacts.loadSessions_stored.
    + unfold AsyncStorage.setItem. apply lookup_insert_eq.
    + now apply ProgressFacts.Forall_filter_kept.
  - intros k Hk. unfold AsyncStorage.setItem. now rewrite lookup_insert_ne.
Qed.

Lemma X18_deleted_session_stays_deleted_witness :
  let history :=
    [ WorkoutSession.mk "1700000600000" "2" "Pull Day" [Exercise.mk "3" "Pull-ups" 4 8 0]
        (DateValue 1700000600002) 4 0;
      WorkoutSession.mk "1700000000000" "1" "Push Day" [Exercise.mk "1" "Bench Press" 3 10 60]
        (DateValue 1700000000001) 3 180 ] in
  let '(viewer', store', notice) :=
    ProgressList.deleteSession_onPress (ProgressList.mkState history false)
      "1700000600000" ∅ in
  ProgressList.loadSessions viewer' store'
  = Some (ProgressList.mkState (ProgressList.sessions viewer') false).
Proof.
  intros history.
  pose proof (X18_deleted_session_stays_deleted (ProgressList.mkState history false)
                "1700000600000" ∅) as H.
  destruct (ProgressList.deleteSession_onPress _ "1700000600000" ∅)
    as [[viewer' store'] notice].
  destruct H as (_ & _ & _ & _ & H & _).
  - repeat constructor; unfold maxTime; simpl; lia.
  - exact H.
Defined.

(** X19.  Completing a workout and then deleting the session it recorded
    gives back the history.  On a store that holds a history whose sessions
    do not carry the text of the reading as id, [complete] makes the
    viewer read the new session followed by the history; the confirmed
    deletion of the new session leaves the viewer with the history, and
    the store with the text of the history. *)
Theorem X19_complete_then_delete (now completed : Z) (workout : Workout.t)
    (old : list WorkoutSession.t) (store : gmap string string) :
  Session.holds_history store old →
  Forall (λ x, Spec.timestamp (WorkoutSession.completedAt x)) old →
  - maxTime ≤ completed ≤ maxTime →
  Number_toString now ∉ map WorkoutSession.id old →
  ∃ store1,
    saveWorkoutSession now completed workout store
    = Some (store1,
            alert "Workout Complete!"
              ("Great job finishing " +:+ Workout.name workout +:+ "!")) ∧
    let viewer1 := ProgressList.mkState (newSession now completed workout :: old) false in
    ProgressList.loadSessions ProgressList.initial store1 = Some viewer1 ∧
    let '(viewer2, store2, _) :=
      ProgressList.deleteSession_onPress viewer1 (Number_toString now) store1 in
    ProgressList.sessions viewer2 = old ∧
    store2 !! PROGRESS_KEY = Some (stringify (JArr (map WorkoutSession_toJSON old))) ∧
    ProgressList.loadSessions viewer2 store2 = Some (ProgressList.mkState old false).
Proof.
  intros Hholds Hold Hcompleted Hfresh.
  eexists. split; [exact (ProgressFacts.saveWorkoutSession_onto _ _ _ _ old Hholds)|].
  cbv zeta. split.
  - apply ProgressFacts.loadSessions_stored; [apply lookup_insert_eq|].
    constructor; [exact Hcompleted | exact Hold].
  - unfold ProgressList.deleteSession_onPress. cbn [ProgressList.sessions].
    rewrite filter_cons.
    destruct (decide (WorkoutSession.id (newSession now completed workout)
                      ≠ Number_toString now)) as [E|_];
      [contradiction E; reflexivity|].
    rewrite (KeyedFacts.filter_absent WorkoutSession.id) by assumption.
    split; [reflexivity|]. split.
    + unfold AsyncStorage.setItem. apply lookup_insert_eq.
    + apply ProgressFacts.loadSessions_stored; [|exact Hold].
      unfold AsyncStorage.setItem. apply lookup_insert_eq.
Qed.

Lemma X19_complete_then_delete_witness :
  let workout := Workout.mk "1" "Push Day" [Exercise.mk "1" "Bench Press" 3 10 60]
                   (DateValue 5) in
  ∃ store1,
    saveWorkoutSession 1700000000000 1700000000001 workout ∅
    = Some (store1, alert "Workout Complete!" "Great job finishing Push Day!") ∧
    let viewer1 :=
      ProgressList.mkState [newSession 1700000000000 1700000000001 workout] false in
    ProgressList.loadSessions ProgressList.initial store1 = Some viewer1 ∧
    let '(viewer2, store2, _) :=
      ProgressList.deleteSession_onPress viewer1 "1700000000000" store1 in
    ProgressList.sessions viewer2 = [] ∧
    store2 !! PROGRESS_KEY = Some "[]" ∧
    ProgressList.loadSessions viewer2 store2 = Some (ProgressList.mkState [] false).
Proof.
  intros workout.
  apply (X19_complete_then_delete 1700000000000 1700000000001 workout [] ∅).
  - right. split; reflexivity.
  - constructor.
  - unfold maxTime. lia.
  - apply not_elem_of_nil.
Defined.

(** X20.  The deletion in the progress viewer writes the list the viewer
    shows, not the history the store holds.  When a workout is completed
    after the viewer last read the store and a session is deleted in the
    viewer before it reads the store again, the store is left with the
    sessions the viewer showed, less the deleted ones: the session just
    completed, unless the viewer already showed an equal one, is no longer
    in the history, and the next poll does not show it. *)
Theorem X20_delete_writes_the_list_shown (viewer : ProgressList.State)
    (sessionId : string) (now completed : Z) (workout : Workout.t)
    (store : gmap string string) :
  Session.holds_history store (ProgressList.sessions viewer) →
  Forall (λ x, Spec.timestamp (WorkoutSession.completedAt x))
    (ProgressList.sessions viewer) →
  let new := newSession now completed workout in
  ∃ store1,
    saveWorkoutSession now completed workout store
    = Some (store1,
            alert "Workout Complete!"
              ("Great job finishing " +:+ Workout.name workout +:+ "!")) ∧
    Session.holds_history store1 (new :: ProgressList.sessions viewer) ∧
    let '(viewer', store2, _) :=
      ProgressList.deleteSession_onPress viewer sessionId store1 in
    let kept :=
      filter (λ x, WorkoutSession.id x ≠ sessionId) (ProgressList.sessions viewer) in
    Session.holds_history store2 kept ∧
    ProgressList.loadSessions viewer' store2 = Some (ProgressList.mkState kept false) ∧
    (new ∉ ProgressList.sessions viewer → new ∉ kept).
Proof.
  intros Hholds Hvalid new. subst new.
  eexists. split; [exact (ProgressFacts.saveWorkoutSession_onto _ _ _ _ _ Hholds)|].
  split; [left; apply lookup_insert_eq|].
  unfold ProgressList.deleteSession_onPress, AsyncStorage.setItem.
  change ProgressList.PROGRESS_KEY with PROGRESS_KEY. cbv zeta.
  split; [left; apply lookup_insert_eq|]. split.
  - apply ProgressFacts.loadSessions_stored; [apply lookup_insert_eq|].
    now apply ProgressFacts.Forall_filter_kept.
  - intros Hnew Hin. apply list_elem_of_filter in Hin as [_ Hin]. contradiction.
Qed.

Lemma X20_delete_writes_the_list_shown_witness :
  let shown :=
    [ WorkoutSession.mk "1700000000000" "1" "Push Day" [Exercise.mk "1" "Bench Press" 3 10 60]
        (DateValue 1700000000001) 3 180 ] in
  let viewer := ProgressList.mkState shown false in
  let store : gmap string string :=
    {[ PROGRESS_KEY := stringify (JArr (map WorkoutSession_toJSON shown)) ]} in
  let workout := Workout.mk "2" "Pull Day" [Exercise.mk "3" "Pull-ups" 4 8 0] (DateValue 6) in
  ∃ store1,
    saveWorkoutSession 1700000600000 1700000600002 workout store
    = Some (store1, alert "Workout Complete!" "Great job finishing Pull Day!") ∧
    let '(viewer', store2, _) :=
      ProgressList.deleteSession_onPress viewer "1700000000000" store1 in
    ProgressList.loadSessions viewer' store2 = Some (ProgressList.mkState [] false).
Proof.
  intros shown viewer store workout.
  destruct (X20_delete_writes_the_list_shown viewer "1700000000000"
              1700000600000 1700000600002 workout store) as (store1 & Hsave & _ & H).
  - left. apply lookup_singleton_eq.
  - repeat constructor; unfold maxTime; simpl; lia.
  - exists store1. split; [exact Hsave|].
    destruct (ProgressList.deleteSession_onPress viewer "1700000000000" store1)
      as [[viewer' store2] notice].
    destruct H as (_ & H & _). exact H.
Defined.

(** X21.  From the screen to the history.  A workout is selected and the
    list shows its exercises, whose ids are pairwise distinct; the store
    holds a history.  The user adds an exercise (at a reading that is not
    yet an id), which opens in edit mode, types a name, a number of sets and
    a number of reps and a weight (integers within [±2^53], typed as their
    decimal texts), saves, and presses Workout Done.  Then the list shows
    the former exercises followed by the edited one, the completion is
    announced, and the progress viewer reads a new session in front of the
    history: it is a session of the selected workout, with those
    exercises, and when the sums over them are exact (every product and
    every running sum within [±2^53]) its total of sets and total volume
    are the former totals plus the sets, and the sets times the weight, of
    the new exercise. *)
Theorem X21_add_edit_save_complete (added now completed : Z) (name : string)
    (s r wgt : Z) (old : list WorkoutSession.t) (list : ExerciseList.State)
    (st : State) (store : gmap string string) (w : Workout.t) :
  selectedWorkout st = Some w →
  ExerciseList.exercises list = Workout.exercises w →
  Number_toString added ∉ map Exercise.id (Workout.exercises w) →
  - 2 ^ 53 ≤ s ≤ 2 ^ 53 → - 2 ^ 53 ≤ r ≤ 2 ^ 53 → - 2 ^ 53 ≤ wgt ≤ 2 ^ 53 →
  Session.holds_history store old →
  Forall (λ x, Spec.timestamp (WorkoutSession.completedAt x)) old →
  - maxTime ≤ completed ≤ maxTime →
  let '(list1, (st1, store1)) := Screen.addExercise added list st store in
  let item := Exercise.mk (Number_toString added) "New Exercise" 3 10 0 in
  let edited := Exercise.mk (Number_toString added) name s r wgt in
  ExerciseList.isEditing list1 item = true ∧
  ExerciseItem.edits
    [ ExerciseItem.TypeName name; ExerciseItem.TypeSets (Number_toString s);
      ExerciseItem.TypeReps (Number_toString r);
      ExerciseItem.TypeWeight (Number_toString wgt) ]
    (ExerciseItem.initial item (Some (ExerciseList.isEditing list1 item)))
  = Some (ExerciseItem.mkState true edited) ∧
  let '(it', list2, (st2, store2)) :=
    Screen.saveItem item (ExerciseItem.mkState true edited) list1 st1 store1 in
  ExerciseItem.isEditing it' = false ∧
  ExerciseList.exercises list2 = Workout.exercises w ++ [edited] ∧
  (∀ e, ExerciseList.isEditing list2 e = false) ∧
  Screen.rendered list2 st2 ∧
  ∃ store3,
    Screen.workoutDone now completed list2 st2 store2
    = Some (store3,
            alert "Workout Complete!" ("Great job finishing " +:+ Workout.name w +:+ "!")) ∧
    ∃ session,
      ProgressList.loadSessions ProgressList.initial store3
      = Some (ProgressList.mkState (session :: old) false) ∧
      WorkoutSession.workoutId session = Workout.id w ∧
      WorkoutSession.workoutName session = Workout.name w ∧
      WorkoutSession.exercises session = Workout.exercises w ++ [edited] ∧
      (Spec.exact_totals (Workout.exercises w ++ [edited]) →
       WorkoutSession.totalSets session = Spec.sum_sets (Workout.exercises w) + s ∧
       WorkoutSession.totalVolume session
       = Spec.sum_volume (Workout.exercises w) + s * wgt).
Proof.
  intros Hw Hlist Hfresh Hs Hr Hwgt Hholds Hold Hcompleted.
  unfold Screen.addExercise, ExerciseList.addNewExercise. rewrite Hlist.
  set (item := Exercise.mk (Number_toString added) "New Exercise" 3 10 0).
  set (exs1 := Workout.exercises w ++ [item]).
  pose proof (ScreenFacts.selectedWorkout_updated exs1 st store w Hw) as Hw1.
  pose proof (FlowFacts.updateWorkoutExercises_history exs1 st store old Hholds) as Hh1.
  destruct (updateWorkoutExercises exs1 st store) as [st1 store1].
  cbn [fst snd] in Hw1, Hh1. cbv zeta.
  assert (ExerciseList.isEditing (ExerciseList.mkState exs1 (Some (Exercise.id item))) item
          = true) as Hmark
    by (unfold ExerciseList.isEditing; cbn [ExerciseList.newlyAddedId];
        now apply bool_decide_eq_true).
  split; [exact Hmark|]. rewrite Hmark. split.
  { cbn [ExerciseItem.edits ExerciseItem.edit]. unfold ExerciseItem.onChangeSets,
      ExerciseItem.onChangeReps, ExerciseItem.onChangeWeight.
    rewrite !FlowFacts.typed_number, FlowFacts.typed_weight by assumption.
    reflexivity. }
  set (edited := Exercise.mk (Number_toString added) name s r wgt).
  unfold Screen.saveItem, ExerciseItem.handleSave,
    ExerciseList.renderExerciseItem_onUpdate, ExerciseList.updateExercise.
  cbn [ExerciseItem.editedExercise ExerciseList.exercises ExerciseList.newlyAddedId].
  destruct (decide (Some (Exercise.id item) = Some (Exercise.id item))) as [_|E];
    [|contradiction E; reflexivity].
  cbn [ExerciseList.exercises].
  assert (map (λ exercise,
                 if decide (Exercise.id exercise = Exercise.id edited)
                 then edited else exercise) exs1
          = Workout.exercises w ++ [edited]) as ->.
  { subst exs1. rewrite map_app. f_equal.
    - now apply (KeyedFacts.replace_absent Exercise.id).
    - simpl. destruct (decide (Number_toString added = Number_toString added)) as [_|E];
        [reflexivity | contradiction E; reflexivity]. }
  set (exs2 := Workout.exercises w ++ [edited]).
  pose proof (ScreenFacts.selectedWorkout_updated exs2 st1 store1 _ Hw1) as Hw2.
  pose proof (FlowFacts.updateWorkoutExercises_history exs2 st1 store1 old Hh1) as Hh2.
  destruct (updateWorkoutExercises exs2 st1 store1) as [st2 store2].
  cbn [fst snd Workout.id Workout.name Workout.createdAt] in Hw2, Hh2.
  split; [reflexivity|]. split; [reflexivity|]. split; [reflexivity|]. split.
  { eexists. split; [exact Hw2 | reflexivity]. }
  unfold Screen.workoutDone, Screen.workoutDone_shown.
  rewrite Hw2. cbn [ExerciseList.exercises].
  assert ((0 <? length exs2)%nat = true) as ->.
  { subst exs2. rewrite length_app. apply Nat.ltb_lt. simpl. lia. }
  cbn [mbind option_bind].
  rewrite (ProgressFacts.saveWorkoutSession_onto _ _ _ _ old Hh2).
  cbn [Workout.name]. eexists. split; [reflexivity|].
  eexists. split.
  - apply ProgressFacts.loadSessions_stored; [apply lookup_insert_eq|].
    constructor; [exact Hcompleted | exact Hold].
  - cbn [newSession WorkoutSession.workoutId WorkoutSession.workoutName
         WorkoutSession.exercises WorkoutSession.totalSets WorkoutSession.totalVolume
         Workout.id Workout.name Workout.exercises].
    split; [reflexivity|]. split; [reflexivity|]. split; [reflexivity|].
    intros Hexact.
    rewrite (ManagerFacts.fold_left_sets exs2 0 0 Hexact),
      (ManagerFacts.fold_left_volume exs2 0 0 Hexact).
    subst exs2. rewrite ProgressFacts.sum_sets_app, ProgressFacts.sum_volume_app.
    cbn [Exercise.sets Exercise.weight edited]. split; lia.
Qed.

Lemma X21_add_edit_save_complete_witness :
  let st := mkState (DEFAULT_WORKOUTS 5 6) "1" false EmptyString false in
  let list := ExerciseList.initial [Exercise.mk "1" "Bench Press" 3 10 60;
                                    Exercise.mk "2" "Shoulder Press" 3 8 30] in
  let '(list1, (st1, store1)) := Screen.addExercise 1700000000000 list st ∅ in
  let item := Exercise.mk "1700000000000" "New Exercise" 3 10 0 in
  let edited := Exercise.mk "1700000000000" "Dips" 4 12 10 in
  let '(it', list2, (st2, store2)) :=
    Screen.saveItem item (ExerciseItem.mkState true edited) list1 st1 store1 in
  ∃ store3 notice session,
    Screen.workoutDone 1700000900000 1700000900001 list2 st2 store2
    = Some (store3, notice) ∧
    ProgressList.loadSessions ProgressList.initial store3
    = Some (ProgressList.mkState [session] false) ∧
    WorkoutSession.totalSets session = 10 ∧
    WorkoutSession.totalVolume session = 310.
Proof.
  intros st list.
  pose proof (X21_add_edit_save_complete 1700000000000 1700000900000 1700000900001
                "Dips" 4 12 10 [] list st ∅
                (Workout.mk "1" "Push Day"
                   [Exercise.mk "1" "Bench Press" 3 10 60;
                    Exercise.mk "2" "Shoulder Press" 3 8 30] (DateValue 5))) as H.
  change (Number_toString 1700000000000) with "1700000000000" in H.
  destruct (Screen.addExercise 1700000000000 list st ∅) as [list1 [st1 store1]].
  cbv zeta in H. destruct H as (_ & _ & H).
  - reflexivity.
  - reflexivity.
  - apply (bool_decide_unpack _). vm_compute. exact I.
  - lia.
  - lia.
  - lia.
  - right. split; reflexivity.
  - constructor.
  - unfold maxTime. lia.
  - cbv zeta.
    destruct (Screen.saveItem _ _ list1 st1 store1) as [[it' list2] [st2 store2]].
    destruct H as (_ & _ & _ & _ & store3 & Hdone & session & Hload & _ & _ & _ & Htotals).
    exists store3. eexists. exists session. split; [exact Hdone|]. split; [exact Hload|].
    apply Htotals. unfold Spec.exact_totals. simpl. unfold Spec.safe.
    change maxSafeInteger with 9007199254740992. lia.
Defined.

(** X22.  When at most one workout is listed, [delete] shows the notice
    that one workout must be left and offers no deletion; so no number of
    long presses on the tabs, whatever the ids and whatever the user
    answers, changes the state or the store. *)
Theorem X22_last_workout_is_not_deleted (st : State) (workoutId : string)
    (presses : list (string * bool)) (store : gmap string string) :
  (length (workouts st) ≤ 1)%nat →
  deleteWorkout st workoutId
  = Notice (alert "Error" "You must have at least one workout") ∧
  Session.run (map (λ '(i, confirmed), Session.LongPress i confirmed) presses) st store
  = Some (st, store).
Proof.
  intros Hlen. split; [now apply ManagerFacts.deleteWorkout_refused|].
  induction presses as [|[i confirmed] presses IH]; [reflexivity|].
  cbn [map Session.run Session.step].
  now rewrite (ManagerFacts.deleteWorkout_refused st i Hlen).
Qed.

Lemma X22_last_workout_is_not_deleted_witness :
  let st := mkState [Workout.mk "1" "Push Day" [] (DateValue 5)] "1" false
              EmptyString false in
  Session.run [Session.LongPress "1" true; Session.LongPress "2" false;
               Session.LongPress "1" true] st ∅
  = Some (st, ∅).
Proof.
  intros st.
  apply (X22_last_workout_is_not_deleted st "1" [("1", true); ("2", false); ("1", true)] ∅).
  simpl. lia.
Defined.

(** X23.  Written by [saveWorkouts] and read back by [loadWorkouts], a
    workout whose [createdAt] is the invalid date comes back with
    [createdAt] the epoch (it is written as [null], and [new Date(null)]
    is the time value 0); its id, name and exercises are kept, and the
    workouts whose [createdAt] is a timestamp come back as they are. *)
Theorem X23_invalid_date_reloads_as_epoch (loaded1 loaded2 : Z)
    (workoutsToSave : list Workout.t) (st : State) (store : gmap string string) :
  Forall (λ w, Workout.createdAt w = InvalidDate ∨ Spec.timestamp (Workout.createdAt w))
    workoutsToSave →
  let store' := saveWorkouts workoutsToSave store in
  let reloaded :=
    map (λ w, match Workout.createdAt w with
              | InvalidDate =>
                  Workout.mk (Workout.id w) (Workout.name w) (Workout.exercises w)
                    (DateValue 0)
              | DateValue _ => w
              end) workoutsToSave in
  (∃ items,
     (parse <$> store' !! STORAGE_KEY) = Some (Returns (JArr items)) ∧
     Forall2 (λ w item, Workout.createdAt w = InvalidDate →
                        member "createdAt" item = Some JNull)
       workoutsToSave items) ∧
  ∃ selected,
    loadWorkouts loaded1 loaded2 st store'
    = Some (mkState reloaded selected (showCreateModal st) (newWorkoutName st) false,
            store').
Proof.
  intros Hvalid store' reloaded. split.
  - exists (map Workout_toJSON workoutsToSave). subst store'.
    unfold saveWorkouts, AsyncStorage.setItem. rewrite lookup_insert_eq.
    cbn [fmap option_fmap option_map].
    rewrite JSFacts.parse_stringify
      by apply CodecFacts.plain_items, CodecFacts.plain_Workout.
    split; [reflexivity|]. clear Hvalid reloaded.
    induction workoutsToSave as [|w ws IH]; constructor; [|exact IH].
    destruct w as [i n exs d]. cbn [Workout.createdAt]. intros ->. reflexivity.
  - eexists.
    apply (SessionFacts.loadWorkouts_Got _ _ _ _
             (stringify (JArr (map Workout_toJSON workoutsToSave)))).
    + subst store'. unfold saveWorkouts, AsyncStorage.setItem.
      rewrite lookup_insert_eq. apply CodecFacts.present_stringify.
    + unfold parse_and_restore.
      rewrite JSFacts.parse_stringify
        by apply CodecFacts.plain_items, CodecFacts.plain_Workout.
      rewrite CodecFacts.no_null_items by reflexivity.
      now rewrite (ReloadFacts.mapM_restore_map _ _ _ _ _
                     ReloadFacts.restore_Workout_written Hvalid).
Qed.

Lemma X23_invalid_date_reloads_as_epoch_witness :
  let collection :=
    [ Workout.mk "1" "Push Day" [Exercise.mk "1" "Bench Press" 3 10 60] InvalidDate;
      Workout.mk "2" "Pull Day" [] (DateValue 1700000000124) ] in
  ∃ selected,
    loadWorkouts 5 6 initial (saveWorkouts collection ∅)
    = Some (mkState
              [ Workout.mk "1" "Push Day" [Exercise.mk "1" "Bench Press" 3 10 60]
                  (DateValue 0);
                Workout.mk "2" "Pull Day" [] (DateValue 1700000000124) ]
              selected false EmptyString false,
            saveWorkouts collection ∅).
Proof.
  intros collection.
  destruct (X23_invalid_date_reloads_as_epoch 5 6 collection initial ∅)
    as [_ (selected & H)].
  - constructor; [now left|]. constructor; [|constructor].
    right. simpl. unfold maxTime. lia.
  - exists selected. exact H.
Defined.

(** X24.  Cancel discards what was typed.  Whatever the item holds,
    Cancel puts it in view mode on the exercise it was given; and when the
    ids of the list are pairwise distinct and the item shows an exercise
    of the list, opening the item again and saving at once hands that
    exercise over unchanged: the list, and the sequence it sends up, are
    the ones before. *)
Theorem X24_cancel_discards_edits (item : Exercise.t) (k : nat)
    (it : ExerciseItem.State) (list : ExerciseList.State) (st : State)
    (store : gmap string string) :
  NoDup (map Exercise.id (ExerciseList.exercises list)) →
  ExerciseList.exercises list !! k = Some item →
  let cancelled := ExerciseItem.handleCancel item it in
  cancelled = ExerciseItem.initial item None ∧
  ExerciseItem.handleSave (ExerciseItem.setIsEditing true cancelled)
  = (cancelled, item) ∧
  let '(_, list', (st', store')) :=
    Screen.saveItem item (ExerciseItem.setIsEditing true cancelled) list st store in
  ExerciseList.exercises list' = ExerciseList.exercises list ∧
  (st', store') = updateWorkoutExercises (ExerciseList.exercises list) st store.
Proof.
  intros Hnd Hk cancelled. subst cancelled.
  split; [reflexivity|]. split; [reflexivity|].
  unfold Screen.saveItem, ExerciseItem.handleSave, ExerciseItem.setIsEditing,
    ExerciseItem.handleCancel, ExerciseList.renderExerciseItem_onUpdate,
    ExerciseList.updateExercise.
  cbn [ExerciseItem.editedExercise].
  rewrite (KeyedFacts.replace_at Exercise.id item item _ k Hnd Hk eq_refl).
  rewrite list_insert_id by assumption.
  split; [now destruct (decide _) | reflexivity].
Qed.

Lemma X24_cancel_discards_edits_witness :
  let item := Exercise.mk "4" "Rows" 3 10 40 in
  let list := ExerciseList.initial [Exercise.mk "3" "Pull-ups" 4 8 0; item] in
  let st := mkState (DEFAULT_WORKOUTS 5 6) "2" false EmptyString false in
  let it := ExerciseItem.mkState true (Exercise.mk "4" "Barbell Rows" 5 10 45) in
  let '(_, list', _) :=
    Screen.saveItem item
      (ExerciseItem.setIsEditing true (ExerciseItem.handleCancel item it)) list st ∅ in
  ExerciseList.exercises list' = [Exercise.mk "3" "Pull-ups" 4 8 0; item].
Proof.
  intros item list st it.
  pose proof (X24_cancel_discards_edits item 1 it list st ∅) as H.
  cbv zeta in H.
  destruct (Screen.saveItem item _ list st ∅) as [[it' list'] [st' store']].
  destruct H as (_ & _ & H & _).
  - apply (bool_decide_unpack _). vm_compute. exact I.
  - reflexivity.
  - exact H.
Defined.
